(** * IELTS writing evaluator: the rating pipeline of [app.py]

    A shallow embedding of [count_words], [evaluate_with_llm] and
    [rate_writing], together with the pieces of the Python runtime they call
    ([str.split], [re.search], [json.loads], [float], dictionary subscripts,
    exceptions), and the properties of the extraction and orchestration code.

    Text is a sequence of Unicode code points, as a Python [str] is. What
    depends on the version of the interpreter, of pydantic or of Starlette
    is gathered in the class [Platform]; the properties are proved for every
    platform and run on a reference one. A backend is a function of the
    world around a request, and the calls sent to it are recorded.

    The route is the handler followed by its response model, [post_rate].

    The module [Client] embeds [submit_task] of the desktop form,
    [ielts_tkinter_app.py]: the window is a record of the feedback widget,
    the dialogs shown and the requests posted, and the service it talks to
    is a function from a request to an answer or an exception. *)

From Stdlib Require Import ZArith NArith List String Ascii Bool Lia.
From Stdlib Require Import QArith DecimalString.
From Stdlib Require SpecFloat.
From stdpp Require Import base option list gmap.

Set Default Proof Using "Type".
Local Open Scope N_scope.

(* ===================================================================== *)
(** * Text *)
(* ===================================================================== *)

Module Text.

(** A code point. *)
Abbreviation char := N.

(** A Python [str]. *)
Abbreviation str := (list N).

(** A literal of the source, given by its ASCII characters. *)
Definition u (s : string) : str := map N_of_ascii (list_ascii_of_string s).

(** The same, for literals that contain the double quote character: the
    backquote, which no literal of the program uses, stands for it. *)
Definition uq (s : string) : str :=
  map (fun c => if c =? 96 then 34 else c) (u s).

Definition LBRACE : char := 123.
Definition RBRACE : char := 125.
Definition DQUOTE : char := 34.
Definition BACKSLASH : char := 92.

(** [str.isspace] on one character: the code points with bidirectional
    type WS, B or S, or of category Zs. *)
Definition isspace (c : char) : bool :=
  ((9 <=? c) && (c <=? 13)) || ((28 <=? c) && (c <=? 32))
  || (c =? 133) || (c =? 160) || (c =? 5760)
  || ((8192 <=? c) && (c <=? 8202))
  || (c =? 8232) || (c =? 8233) || (c =? 8239) || (c =? 8287)
  || (c =? 12288).

(** [str.split()] without arguments: the maximal runs of characters that
    are not whitespace, in order. [cur] is the run being read, reversed. *)
Fixpoint split_from (cur : str) (s : str) : list str :=
  match s with
  | [] => match cur with [] => [] | _ => [rev cur] end
  | c :: t =>
      if isspace c
      then match cur with
           | [] => split_from [] t
           | _ => rev cur :: split_from [] t
           end
      else split_from (c :: cur) t
  end.

Definition split (s : str) : list str := split_from [] s.

(** Decimal rendering of a natural number, as [str(n)] and the f-string
    field of an [int] give it. *)
Definition str_of_nat (n : nat) : str :=
  u (NilEmpty.string_of_uint (Nat.to_uint n)).

(** [s[:n]] *)
Definition slice_to (n : nat) (s : str) : str := firstn n s.

(** [s.startswith(p)] *)
Fixpoint startswith (p s : str) : bool :=
  match p, s with
  | [], _ => true
  | a :: p', b :: s' => (a =? b) && startswith p' s'
  | _ :: _, [] => false
  end.

(** [sub in s] *)
Fixpoint contains (sub s : str) : bool :=
  startswith sub s
  || match s with
     | [] => false
     | _ :: s' => contains sub s'
     end.

End Text.
Export Text.

(* ===================================================================== *)
(** * The Prompt Builder's word count *)
(* ===================================================================== *)

(** [count_words], app.py lines 60-62: [len(text.split())]. *)
Definition count_words (text : str) : nat := length (split text).

(* ===================================================================== *)
(** * The regular expression of the Extractor *)
(* ===================================================================== *)

Module Re.

(** [re.search(r'({[\s\S]*})', s)], app.py line 147, and [group(1)] of its
    match, line 149.

    The pattern is a literal open brace, then [[\s\S]*], which matches any
    character, newlines included, as many times as possible, then a literal
    close brace. The only group spans the whole match.

    [greedy_close t] is the match of [[\s\S]*}] at the start of [t]: the
    star first takes every character, then gives them back one at a time
    until a close brace follows, so the longest candidate wins. *)
Fixpoint greedy_close (t : str) : option str :=
  match t with
  | [] => None
  | c :: t' =>
      match greedy_close t' with
      | Some m => Some (c :: m)
      | None => if c =? RBRACE then Some [c] else None
      end
  end.

(** [search] tries the start positions from left to right and returns the
    first match, as [re.search] does. *)
Fixpoint search (s : str) : option str :=
  match s with
  | [] => None
  | c :: t =>
      if c =? LBRACE
      then match greedy_close t with
           | Some m => Some (c :: m)
           | None => search t
           end
      else search t
  end.

End Re.

(* ===================================================================== *)
(** * Results, exceptions and values of the runtime *)
(* ===================================================================== *)

(** The outcome of a computation that may raise. *)
Inductive result (E A : Type) : Type :=
| Ok (a : A)
| Err (e : E).
Arguments Ok {E A} a.
Arguments Err {E A} e.

#[export] Instance result_ret {E} : MRet (result E) := fun _ a => Ok a.

#[export] Instance result_bind {E} : MBind (result E) := fun _ _ k r =>
  match r with
  | Ok a => k a
  | Err e => Err e
  end.

(** The exceptions that can travel through the rating code, all of them
    subclasses of [Exception]. Each carries what [str(e)] is made of. *)
Inductive exn : Type :=
| ValueError (msg : str)
| KeyError (key : str)
| TypeError (msg : str)
| NameError (name : str)
| OverflowError (msg : str)
| RecursionError (msg : str)
| JSONDecodeError (msg : str)
| ValidationError (msg : str)
| HTTPException (status_code : nat) (detail : str)
| LibraryError (type_name : str) (msg : str).

(** [type(e).__name__] *)
Definition exn_type_name (e : exn) : str :=
  match e with
  | ValueError _ => u "ValueError"
  | KeyError _ => u "KeyError"
  | TypeError _ => u "TypeError"
  | NameError _ => u "NameError"
  | OverflowError _ => u "OverflowError"
  | RecursionError _ => u "RecursionError"
  | JSONDecodeError _ => u "JSONDecodeError"
  | ValidationError _ => u "ValidationError"
  | HTTPException _ _ => u "HTTPException"
  | LibraryError n _ => n
  end.

(** An IEEE 754 binary64 value, which is what a Python [float] holds. *)
Abbreviation float := SpecFloat.spec_float.

Definition prec : Z := 53.
Definition emax : Z := 1024.

Definition float_nan : float := SpecFloat.S754_nan.
Definition float_inf (neg : bool) : float := SpecFloat.S754_infinity neg.

(** The nearest binary64 value of an integer, ties to even; an infinity when
    the integer is out of range. *)
Definition float_round_Z (n : Z) : float :=
  SpecFloat.binary_normalize prec emax n 0 false.

(** What [json.loads] returns: [None], [bool], [int], [float], [str], [list]
    and [dict]. A [dict] keeps its keys in insertion order, each key once. *)
#[warnings="-register-all"]
Inductive json : Type :=
| JNull
| JBool (b : bool)
| JInt (n : Z)
| JFloat (f : float)
| JString (s : str)
| JArray (items : list json)
| JObject (fields : list (str * json)).

Definition str_eqb (a b : str) : bool := bool_decide (a = b).

Module Dict.

(** [d[k] = v] on an insertion-ordered dictionary. *)
Fixpoint set {V} (k : str) (v : V) (d : list (str * V)) : list (str * V) :=
  match d with
  | [] => [(k, v)]
  | (k', v') :: d' =>
      if str_eqb k k' then (k', v) :: d' else (k', v') :: set k v d'
  end.

(** [d.get(k)] *)
Fixpoint get {V} (k : str) (d : list (str * V)) : option V :=
  match d with
  | [] => None
  | (k', v') :: d' => if str_eqb k k' then Some v' else get k d'
  end.

End Dict.

(** The name of the Python type of a decoded value, [type(x).__name__]. *)
Definition json_type_name (x : json) : str :=
  match x with
  | JNull => u "NoneType"
  | JBool _ => u "bool"
  | JInt _ => u "int"
  | JFloat _ => u "float"
  | JString _ => u "str"
  | JArray _ => u "list"
  | JObject _ => u "dict"
  end.

(** [class TaskType(str, Enum)], app.py lines 24-26. *)
Inductive TaskType : Type := TASK1 | TASK2.

(** The errors raised inside library code whose message the program only
    passes on. *)
Inductive library_failure : Type :=
| Decode_failed (doc : str)           (* json: the document is not JSON *)
| Too_deep                            (* json: nesting beyond the limit *)
| Int_too_long (lexeme : str)         (* int: more digits than allowed *)
| Int_too_large                       (* float: integer out of range *)
| Bad_float_argument (x : json)       (* float: neither str nor number *)
| Not_subscriptable (x : json) (key : str)
| Len_of_None
| Invalid_field (model field : str) (x : json).

(** What the rating code takes from the interpreter and from the libraries
    it is deployed with, and which differs between their versions. The
    properties below hold for every platform. *)
Class Platform : Type := {
(** [str.lower] *)
str_lower : str -> str;
(** [float(s)] for a [str]: the value, or the message of the [ValueError] *)
float_of_str : str -> result str float;
(** [sys.get_int_max_str_digits()], 0 for no limit *)
int_max_str_digits : nat;
(** the nesting depth at which the JSON scanner raises [RecursionError] *)
json_depth_limit : nat;
(** [str(e)] for the errors raised inside library code *)
failure_text : library_failure -> str;
(** validation of a pydantic field declared [str] *)
validate_str : json -> option str;
validate_str_JString : forall s, validate_str (JString s) = Some s;
(** the f-string rendering of a [TaskType] member *)
format_TaskType : TaskType -> str;
(** [str(e)] for FastAPI's [HTTPException] *)
HTTPException_str : nat -> str -> str
}.

(** [repr(k)] for a key the program writes as a literal: the key between
    single quotes. *)
Definition repr_key (k : str) : str := u "'" ++ k ++ u "'".

(** [str(e)] *)
Definition exn_str `{Platform} (e : exn) : str :=
  match e with
  | ValueError msg => msg
  | KeyError key => repr_key key
  | TypeError msg => msg
  | NameError name => u "name '" ++ name ++ u "' is not defined"
  | OverflowError msg => msg
  | RecursionError msg => msg
  | JSONDecodeError msg => msg
  | ValidationError msg => msg
  | HTTPException status_code detail => HTTPException_str status_code detail
  | LibraryError _ msg => msg
  end.

(* ===================================================================== *)
(** * [json.loads] *)
(* ===================================================================== *)

(** The decoder of the standard library with its default settings: the
    scanner [scan_once], the string scanner in strict mode, the number
    matcher, and [JSONDecoder.decode] around them. Positions in the document
    are suffixes of it. *)
Module Json.

(** Why a scan stops without a value. [Exhausted] is the step budget of
    this model running out, which [loads] never meets. *)
Inductive stop : Type :=
| Malformed               (* the decoder raises JSONDecodeError *)
| Raised (e : exn)        (* another exception leaves the decoder *)
| Exhausted.

Definition is_ws (c : char) : bool :=
  (c =? 32) || (c =? 9) || (c =? 10) || (c =? 13).

Fixpoint skip_ws (s : str) : str :=
  match s with
  | [] => []
  | c :: t => if is_ws c then skip_ws t else s
  end.

Definition is_digit (c : char) : bool := (48 <=? c) && (c <=? 57).

(** The longest run of digits at the start of [s], and what follows. *)
Fixpoint span_digits (s : str) : str * str :=
  match s with
  | [] => ([], [])
  | c :: t =>
      if is_digit c
      then let '(ds, r) := span_digits t in (c :: ds, r)
      else ([], s)
  end.

(** [s] without the prefix [p], when it starts with it. *)
Fixpoint strip_prefix (p s : str) : option str :=
  match p, s with
  | [], _ => Some s
  | a :: p', b :: s' => if a =? b then strip_prefix p' s' else None
  | _ :: _, [] => None
  end.

(** ** Strings *)

Definition hex_digit (c : char) : option N :=
  if is_digit c then Some (c - 48)
  else if (97 <=? c) && (c <=? 102) then Some (c - 87)
  else if (65 <=? c) && (c <=? 70) then Some (c - 55)
  else None.

Definition hex4 (a b c d : char) : option N :=
  match hex_digit a, hex_digit b, hex_digit c, hex_digit d with
  | Some x, Some y, Some z, Some w => Some (((x * 16 + y) * 16 + z) * 16 + w)
  | _, _, _, _ => None
  end.

Definition is_high_surrogate (c : N) : bool := (55296 <=? c) && (c <=? 56319).
Definition is_low_surrogate (c : N) : bool := (56320 <=? c) && (c <=? 57343).
Definition join_surrogates (hi lo : N) : N :=
  65536 + (N.lor (N.shiftl (hi - 55296) 10) (lo - 56320)).

(** The character a backslash escape other than [\u] stands for. *)
Definition unescape (c : char) : option char :=
  if c =? 34 then Some 34          (* quote *)
  else if c =? 92 then Some 92     (* backslash *)
  else if c =? 47 then Some 47     (* slash *)
  else if c =? 98 then Some 8      (* b: backspace *)
  else if c =? 102 then Some 12    (* f: form feed *)
  else if c =? 110 then Some 10    (* n: line feed *)
  else if c =? 114 then Some 13    (* r: carriage return *)
  else if c =? 116 then Some 9     (* t: tab *)
  else None.

(** One decoded unit of a string: a character written as itself or with a
    one-letter escape, or the code unit of a [\u] escape. *)
Inductive piece : Type :=
| Plain (c : char)
| Escaped (c : N).

(** The string scanner in strict mode, from just after the opening quote,
    up to the closing quote: the pieces read and the text that follows.
    A control character, an unknown escape, a [\u] without four
    hexadecimal digits and the end of the text are errors. *)
Fixpoint scan_pieces (s : str) : option (list piece * str) :=
  match s with
  | [] => None
  | c :: t =>
      if c =? DQUOTE then Some ([], t)
      else if c =? BACKSLASH then
        match t with
        | [] => None
        | e :: t1 =>
            if e =? 117 then
              match t1 with
              | h1 :: h2 :: h3 :: h4 :: t5 =>
                  match hex4 h1 h2 h3 h4 with
                  | None => None
                  | Some x =>
                      match scan_pieces t5 with
                      | Some (ps, r) => Some (Escaped x :: ps, r)
                      | None => None
                      end
                  end
              | _ => None
              end
            else
              match unescape e with
              | Some c' =>
                  match scan_pieces t1 with
                  | Some (ps, r) => Some (Plain c' :: ps, r)
                  | None => None
                  end
              | None => None
              end
        end
      else if c <=? 31 then None
      else
        match scan_pieces t with
        | Some (ps, r) => Some (Plain c :: ps, r)
        | None => None
        end
  end.

(** The characters of the pieces: a [\u] escape for a high surrogate
    directly followed by a [\u] escape for a low surrogate is one
    character; every other piece stands for itself. *)
Fixpoint join_pieces (ps : list piece) : str :=
  match ps with
  | [] => []
  | Plain c :: ps' => c :: join_pieces ps'
  | Escaped hi :: ps' =>
      match ps' with
      | Escaped lo :: ps'' =>
          if is_high_surrogate hi && is_low_surrogate lo
          then join_surrogates hi lo :: join_pieces ps''
          else hi :: join_pieces ps'
      | _ => hi :: join_pieces ps'
      end
  end.

(** [scanstring]: the decoded string and the text after the closing
    quote. *)
Definition scanstring (s : str) : option (str * str) :=
  match scan_pieces s with
  | Some (ps, r) => Some (join_pieces ps, r)
  | None => None
  end.

(** ** Numbers *)

(** The integer part: one zero, or a digit from 1 to 9 and the digits
    after it. *)
Definition scan_int_part (s : str) : option (str * str) :=
  match s with
  | [] => None
  | c :: t =>
      if (49 <=? c) && (c <=? 57)
      then let '(ds, r) := span_digits t in Some (c :: ds, r)
      else if c =? 48 then Some ([c], t)
      else None
  end.

(** The fraction: a point and at least one digit. *)
Definition scan_frac (s : str) : option (str * str) :=
  match s with
  | p :: d :: t =>
      if (p =? 46) && is_digit d
      then let '(ds, r) := span_digits t in Some (p :: d :: ds, r)
      else None
  | _ => None
  end.

(** The exponent: [e] or [E], an optional sign, at least one digit. *)
Definition scan_exp (s : str) : option (str * str) :=
  match s with
  | e :: t =>
      if (e =? 101) || (e =? 69) then
        let '(sign, t1) :=
          match t with
          | c :: t' => if (c =? 43) || (c =? 45) then ([c], t') else ([], t)
          | [] => ([], t)
          end in
        match span_digits t1 with
        | ([], _) => None
        | (ds, r) => Some (e :: sign ++ ds, r)
        end
      else None
  | [] => None
  end.

(** The number at the start of [s]: whether it is a float, its sign, its
    integer digits, the rest of its text, and what follows it. *)
Definition match_number (s : str) : option (bool * str * str * str * str) :=
  let '(sign, s1) :=
    match s with
    | c :: t => if c =? 45 then ([c], t) else ([], s)
    | [] => ([], s)
    end in
  match scan_int_part s1 with
  | None => None
  | Some (ip, r1) =>
      let '(fr, r2) :=
        match scan_frac r1 with
        | Some (f, r) => (f, r)
        | None => ([], r1)
        end in
      let '(ex, r3) :=
        match scan_exp r2 with
        | Some (x, r) => (x, r)
        | None => ([], r2)
        end in
      Some (match fr ++ ex with [] => false | _ => true end, sign, ip, fr ++ ex, r3)
  end.

(** The value of a run of decimal digits. *)
Definition Z_of_digits (ds : str) : Z :=
  fold_left (fun acc c => (10 * acc + Z.of_N (c - 48))%Z) ds 0%Z.

(** The text after a number does not continue it: it does not start with
    a point or an exponent mark. *)
Definition delimited (r : str) : Prop :=
  match r with
  | c :: _ => c <> 46 /\ c <> 101 /\ c <> 69
  | [] => False
  end.

(** The text starts a string, an object or an array. *)
Definition composite (s : str) : Prop :=
  match s with
  | c :: _ => c = DQUOTE \/ c = LBRACE \/ c = 91
  | [] => False
  end.

Section WithPlatform.
Context `{Platform}.

(** [int(lexeme)] on the text of an integer, with the limit on the
    number of digits. *)
Definition int_of_lexeme (sign ip : str) : result stop json :=
  if negb (Nat.eqb int_max_str_digits 0)
     && Nat.ltb int_max_str_digits (length ip)
  then Err (Raised (ValueError (failure_text (Int_too_long (sign ++ ip)))))
  else Ok (JInt (match sign with
                 | [] => Z_of_digits ip
                 | _ => - Z_of_digits ip
                 end)%Z).

(** [float(lexeme)] on the text of a number with a fraction or an
    exponent. *)
Definition float_of_lexeme (lexeme : str) : result stop json :=
  match float_of_str lexeme with
  | Ok f => Ok (JFloat f)
  | Err msg => Err (Raised (ValueError msg))
  end.

Definition number (s : str) : result stop (json * str) :=
  match match_number s with
  | None => Err Malformed
  | Some (is_float, sign, ip, tail, r) =>
      v ← (if is_float then float_of_lexeme (sign ++ ip ++ tail)
           else int_of_lexeme sign ip);
      mret (v, r)
  end.

(** The constant a value may be, by its first character. *)
Definition constant_for (c : char) : option (str * json) :=
  if c =? 110 then Some (u "null", JNull)
  else if c =? 116 then Some (u "true", JBool true)
  else if c =? 102 then Some (u "false", JBool false)
  else if c =? 78 then Some (u "NaN", JFloat float_nan)
  else if c =? 73 then Some (u "Infinity", JFloat (float_inf false))
  else if c =? 45 then Some (u "-Infinity", JFloat (float_inf true))
  else None.

(** A value that is neither a string nor an object nor an array: the
    constant its first character announces when it is spelled out in
    full, and otherwise a number. *)
Definition scalar (s : str) : result stop (json * str) :=
  match s with
  | [] => Err Malformed
  | c :: _ =>
      match constant_for c with
      | Some (p, v) =>
          match strip_prefix p s with
          | Some r => Ok (v, r)
          | None => number s
          end
      | None => number s
      end
  end.

(** ** Values

    [scan_once n depth s] reads the value at the start of [s]; [members]
    is the loop of the object parser from the point where a key is read,
    [elements] the loop of the array parser from the point where an item
    is read. [n] bounds the number of calls; [depth] counts the open
    objects and arrays. *)
Fixpoint scan_once (n : nat) (depth : nat) (s : str) {struct n}
  : result stop (json * str) :=
  match n with
  | O => Err Exhausted
  | S n' =>
      match s with
      | [] => Err Malformed
      | c :: t =>
          if c =? DQUOTE then
            match scanstring t with
            | Some (x, r) => Ok (JString x, r)
            | None => Err Malformed
            end
          else if c =? LBRACE then
            if Nat.leb json_depth_limit depth
            then Err (Raised (RecursionError (failure_text Too_deep)))
            else
              match skip_ws t with
              | c1 :: t1 =>
                  if c1 =? RBRACE then Ok (JObject [], t1)
                  else members n' (S depth) (c1 :: t1) []
              | [] => Err Malformed
              end
          else if c =? 91 then
            if Nat.leb json_depth_limit depth
            then Err (Raised (RecursionError (failure_text Too_deep)))
            else
              match skip_ws t with
              | c1 :: t1 =>
                  if c1 =? 93 then Ok (JArray [], t1)
                  else elements n' (S depth) (c1 :: t1) []
              | [] => Err Malformed
              end
          else scalar s
      end
  end

with members (n : nat) (depth : nat) (s : str) (acc : list (str * json))
  {struct n} : result stop (json * str) :=
  match n with
  | O => Err Exhausted
  | S n' =>
      match s with
      | [] => Err Malformed
      | c :: t =>
          if c =? DQUOTE then
            match scanstring t with
            | None => Err Malformed
            | Some (key, r) =>
                match skip_ws r with
                | c2 :: t2 =>
                    if c2 =? 58 then
                      match scan_once n' depth (skip_ws t2) with
                      | Err e => Err e
                      | Ok (v, r3) =>
                          let acc' := Dict.set key v acc in
                          match skip_ws r3 with
                          | c3 :: t3 =>
                              if c3 =? RBRACE then Ok (JObject acc', t3)
                              else if c3 =? 44
                              then members n' depth (skip_ws t3) acc'
                              else Err Malformed
                          | [] => Err Malformed
                          end
                      end
                    else Err Malformed
                | [] => Err Malformed
                end
            end
          else Err Malformed
      end
  end

with elements (n : nat) (depth : nat) (s : str) (acc : list json)
  {struct n} : result stop (json * str) :=
  match n with
  | O => Err Exhausted
  | S n' =>
      match scan_once n' depth s with
      | Err e => Err e
      | Ok (v, r) =>
          match skip_ws r with
          | c :: t =>
              if c =? 93 then Ok (JArray (rev (v :: acc)), t)
              else if c =? 44
              then elements n' depth (skip_ws t) (v :: acc)
              else Err Malformed
          | [] => Err Malformed
          end
      end
  end.

(** Calls enough for any document of this length: a value costs at most
    two calls for each of its characters. *)
Definition budget (s : str) : nat := S (2 * length s).

(** [json.loads(s)] for a [str]: a byte order mark is refused, white
    space around the value is skipped, and nothing else may follow it. *)
Definition loads (s : str) : result exn json :=
  let malformed := JSONDecodeError (failure_text (Decode_failed s)) in
  match s with
  | 65279 :: _ => Err malformed
  | _ =>
      match scan_once (budget s) 0 (skip_ws s) with
      | Ok (v, r) =>
          match skip_ws r with
          | [] => Ok v
          | _ :: _ => Err malformed
          end
      | Err (Raised e) => Err e
      | Err _ => Err malformed
      end
  end.

End WithPlatform.

End Json.

(* ===================================================================== *)
(** * Data model, app.py lines 28-51 *)
(* ===================================================================== *)

Record WritingSubmission : Type := {
  task_type : TaskType;
  question : str;
  response : str;
  model : str
}.

Record Criterion : Type := {
  score : float;
  feedback : str
}.

Record DetailedRating : Type := {
  task_achievement : Criterion;
  coherence_cohesion : Criterion;
  lexical_resource : Criterion;
  grammatical_range : Criterion;
  overall_score : float;
  overall_feedback : str
}.

(** The values held by the dictionary [rate_writing] returns. *)
Inductive value : Type :=
| VRating (r : DetailedRating)
| VDict (d : gmap str str).

(* ===================================================================== *)
(** * The world around one request *)
(* ===================================================================== *)

(** A request sent to a model backend. *)
Inductive upstream_call : Type :=
| OpenAI_create (api_key : str) (model : str) (messages : list (str * str))
    (temperature : Q) (max_tokens : nat)
| Ollama_chat (model : str) (messages : list (str * str)).

(** What a request finds outside the program: the credential read from the
    environment when the module is loaded (line 21), whether the [openai]
    package can be imported (line 121), and what a backend answers to a call:
    the content of the reply, which the hosted API may leave empty, or the
    exception the client raises. *)
Record World : Type := {
  OPENAI_API_KEY : option str;
  import_openai : result exn unit;
  upstream : upstream_call -> result exn (option str)
}.

(** The names bound in the namespace of the module [app] when a request is
    served: its imports (lines 1-10) and its top-level definitions. Line 11,
    [# import ollama], is a comment and binds nothing. *)
Definition module_globals : list str :=
  map u ["os"; "requests"; "uvicorn"; "FastAPI"; "HTTPException"; "Body";
         "BaseModel"; "Enum"; "List"; "Dict"; "Optional"; "json"; "re";
         "logging"; "logger"; "OLLAMA_API_URL"; "OPENAI_API_KEY"; "TaskType";
         "WritingSubmission"; "Criterion"; "DetailedRating"; "RatingResponse";
         "app"; "count_words"; "evaluate_with_llm"; "rate_writing"]%string.

(** What a request has done so far: the dictionary [debug_info] of
    [evaluate_with_llm], the calls sent upstream, the messages logged. *)
Record state : Type := {
  debug_info : gmap str str;
  calls : list upstream_call;
  logged : list str
}.

Definition initial : state :=
  {| debug_info := ∅; calls := []; logged := [] |}.

(** Code that may raise and that acts on the state. *)
Definition M (A : Type) : Type := state -> result exn A * state.

#[export] Instance M_ret : MRet M := fun _ a st => (Ok a, st).

#[export] Instance M_bind : MBind M := fun _ _ k m st =>
  match m st with
  | (Ok a, st') => k a st'
  | (Err e, st') => (Err e, st')
  end.

Definition raise {A} (e : exn) : M A := fun st => (Err e, st).

Definition lift {A} (r : result exn A) : M A := fun st => (r, st).

Definition set_debug (k v : str) : M unit := fun st =>
  (Ok tt, {| debug_info := <[k := v]> (debug_info st);
             calls := calls st; logged := logged st |}).

Definition log_error (msg : str) : M unit := fun st =>
  (Ok tt, {| debug_info := debug_info st; calls := calls st;
             logged := logged st ++ [msg] |}).

(** One call to a backend: it is recorded, and the world answers. *)
Definition call_upstream (w : World) (c : upstream_call) : M (option str) :=
  fun st =>
    (upstream w c, {| debug_info := debug_info st; calls := calls st ++ [c];
                      logged := logged st |}).

(** Reading a global name of the module. *)
Definition load_global (name : str) : M unit :=
  if bool_decide (name ∈ module_globals) then mret tt
  else raise (NameError name).

(* ===================================================================== *)
(** * [evaluate_with_llm], app.py lines 64-167 *)
(* ===================================================================== *)

Section Evaluator.
Context `{Platform}.

Definition NEWLINE : str := [10].

Definition lines (l : list str) : str := concat (map (fun x => x ++ NEWLINE) l).

(** The f-string of lines 70-116. *)
Definition build_prompt (submission : WritingSubmission) (word_count : nat) : str :=
  NEWLINE ++
  u "    You are a certified IELTS examiner, assessing the following "
    ++ format_TaskType (task_type submission)
    ++ u " response according to official IELTS scoring criteria." ++ NEWLINE ++
  lines (map u [
    "";
    "    ### **IELTS Assessment Criteria:**";
    "    - **Task Achievement** (For Task 1) / **Task Response** (For Task 2): Relevance, clarity, and completeness of the answer.";
    "    - **Coherence & Cohesion**: Logical organization, paragraphing, and use of linking words.";
    "    - **Lexical Resource**: Range, accuracy, and appropriateness of vocabulary.";
    "    - **Grammatical Range & Accuracy**: Variety and correctness of sentence structures.";
    "    - **Overall Band Score**: The final IELTS writing band score (0-9, increments of 0.5).";
    "";
    "    ---";
    "    ### **Task Question:**"]%string) ++
  u "    " ++ question submission ++ NEWLINE ++
  NEWLINE ++
  u "    ### **Student Response (" ++ str_of_nat word_count ++ u " words):**" ++ NEWLINE ++
  u "    " ++ response submission ++ NEWLINE ++
  lines (map uq [
    "";
    "    ---";
    "    ### **Instructions:**";
    "    - **Rate the response fairly** based on **IELTS standards**, avoiding extreme scores unless justified.";
    "    - Provide a **detailed but concise** explanation for each category.";
    "    - Ensure **balanced feedback** with both strengths and weaknesses.";
    "    - Assign **scores in 0.5 increments** to match IELTS standards.";
    "";
    "    ---";
    "    ### **Return JSON Format** (Use realistic scores and feedback):";
    "    {";
    "    `task_achievement`: { ";
    "        `score`: [realistic_score], ";
    "        `feedback`: `[Explain how well the response answers the question. Mention strengths and areas for improvement.]` ";
    "    },";
    "    `coherence_cohesion`: { ";
    "        `score`: [realistic_score], ";
    "        `feedback`: `[Assess logical flow, paragraphing, and use of linking words. Highlight improvements.]` ";
    "    },";
    "    `lexical_resource`: { ";
    "        `score`: [realistic_score], ";
    "        `feedback`: `[Evaluate vocabulary range and accuracy. Mention strong word choices and any misused words.]` ";
    "    },";
    "    `grammatical_range`: { ";
    "        `score`: [realistic_score], ";
    "        `feedback`: `[Review sentence structures, grammatical errors, and complexity. Suggest improvements.]` ";
    "    },";
    "    `overall_score`: [realistic_overall_score],";
    "    `overall_feedback`: `[Summarize the response quality, key strengths, and areas for improvement.]`";
    "    }"]%string) ++
  u "    ".

(** Lines 120-142: the dispatch on the model name and the call to the
    backend. The value is [response_content]. *)
Definition model_gateway (w : World) (model_name prompt : str) : M (option str) :=
  if str_eqb model_name (u "chatgpt") then
    _ ← lift (import_openai w);
    key ← match OPENAI_API_KEY w with
          | None | Some [] =>
              raise (ValueError (u "OPENAI_API_KEY environment variable is not set."))
          | Some k => mret k
          end;
    call_upstream w
      (OpenAI_create key (u "gpt-4")
         [(u "system", u "You are an IELTS examiner."); (u "user", prompt)]
         (2 # 10) 500)
  else if str_eqb model_name (u "llama3.2") then
    _ ← load_global (u "ollama");
    call_upstream w (Ollama_chat (u "llama3.2") [(u "user", prompt)])
  else
    raise (ValueError (u "Invalid model selection. Choose 'chatGPT' or 'llama3.2'.")).

(** Line 144: the preview kept for diagnostics. [len] of an empty reply
    content raises. *)
Definition response_preview (response_content : option str) : M str :=
  match response_content with
  | None => raise (TypeError (failure_text Len_of_None))
  | Some rc =>
      _ ← set_debug (u "response_preview")
            (if Nat.ltb 200 (length rc) then slice_to 200 rc ++ u "..." else rc);
      mret rc
  end.

(** [x[key]] for a decoded value [x] and a [str] key. *)
Definition subscript (x : json) (key : str) : result exn json :=
  match x with
  | JObject d =>
      match Dict.get key d with
      | Some v => Ok v
      | None => Err (KeyError key)
      end
  | _ => Err (TypeError (failure_text (Not_subscriptable x key)))
  end.

(** [float(x)] for a decoded value [x]. *)
Definition float_ (x : json) : result exn float :=
  match x with
  | JFloat f => Ok f
  | JInt n =>
      match float_round_Z n with
      | SpecFloat.S754_infinity _ => Err (OverflowError (failure_text Int_too_large))
      | f => Ok f
      end
  | JBool b => Ok (float_round_Z (if b then 1 else 0))
  | JString s =>
      match float_of_str s with
      | Ok f => Ok f
      | Err msg => Err (ValueError msg)
      end
  | JNull | JArray _ | JObject _ =>
      Err (TypeError (failure_text (Bad_float_argument x)))
  end.

(** A field declared [str] of the pydantic model [cls]. *)
Definition str_field (cls field : str) (x : json) : result exn str :=
  match validate_str x with
  | Some s => Ok s
  | None => Err (ValidationError (failure_text (Invalid_field cls field x)))
  end.

(** One argument of the form
    [Criterion(score=float(rating_data[name]["score"]),
               feedback=rating_data[name]["feedback"])],
    lines 156-159: the score is read and converted, then the feedback is
    read, then the model is built and validated. *)
Definition criterion (rating_data : json) (name : str) : result exn Criterion :=
  a ← subscript rating_data name;
  s ← subscript a (u "score");
  sc ← float_ s;
  b ← subscript rating_data name;
  fb ← subscript b (u "feedback");
  fb' ← str_field (u "Criterion") (u "feedback") fb;
  mret {| score := sc; feedback := fb' |}.

(** Lines 155-162: the arguments are evaluated in the order written, then
    the model is built and validated. *)
Definition detailed_rating (rating_data : json) : result exn DetailedRating :=
  ta ← criterion rating_data (u "task_achievement");
  cc ← criterion rating_data (u "coherence_cohesion");
  lr ← criterion rating_data (u "lexical_resource");
  gr ← criterion rating_data (u "grammatical_range");
  o ← subscript rating_data (u "overall_score");
  os ← float_ o;
  of_ ← subscript rating_data (u "overall_feedback");
  of' ← str_field (u "DetailedRating") (u "overall_feedback") of_;
  mret {| task_achievement := ta; coherence_cohesion := cc;
          lexical_resource := lr; grammatical_range := gr;
          overall_score := os; overall_feedback := of' |}.

(** Lines 147-151: the text given to the JSON decoder. *)
Definition json_str_of (response_content : str) : result exn str :=
  match Re.search response_content with
  | Some json_str => Ok json_str
  | None => Err (ValueError (u "Could not extract JSON from model response"))
  end.

(** Lines 147-162: from the reply to the rating. *)
Definition response_extractor (response_content : str) : result exn DetailedRating :=
  json_str ← json_str_of response_content;
  rating_data ← Json.loads json_str;
  detailed_rating rating_data.

(** The body of the [try] statement, lines 120-162. *)
Definition try_body (w : World) (model_name prompt : str) : M DetailedRating :=
  reply ← model_gateway w model_name prompt;
  response_content ← response_preview reply;
  lift (response_extractor response_content).

(** Line 67: [debug_info = {}]. *)
Definition fresh (st : state) : state :=
  {| debug_info := ∅; calls := calls st; logged := logged st |}.

(** [evaluate_with_llm]: the rating or [None], and the state, whose
    [debug_info] is the dictionary returned with it. The dictionary starts
    empty (line 67). *)
Definition evaluate_with_llm (w : World) (submission : WritingSubmission)
                             (st : state) : option DetailedRating * state :=
  let model_name := str_lower (model submission) in
  let word_count := count_words (response submission) in
  let prompt := build_prompt submission word_count in
  match try_body w model_name prompt (fresh st) with
  | (Ok rating, st') => (Some rating, st')
  | (Err e, st') =>
(* lines 164-167 *)
let '(_, st1) :=
  log_error (u "Error using LLM (" ++ model_name ++ u "): "
             ++ exn_type_name e ++ u ": " ++ exn_str e) st' in
let '(_, st2) := set_debug (u "error_message") (exn_str e) st1 in
(None, st2)
end.

(** The body of the [try] statement on a submission. *)
Definition body (w : World) (submission : WritingSubmission) (st : state)
  : result exn DetailedRating * state :=
  try_body w (str_lower (model submission))
    (build_prompt submission (count_words (response submission))) (fresh st).

(** The state after line 144 has stored the preview of [reply]. *)
Definition with_preview (reply : str) (st : state) : state :=
  {| debug_info :=
       <[u "response_preview" :=
           if Nat.ltb 200 (length reply) then slice_to 200 reply ++ u "..."
           else reply]> (debug_info st);
     calls := calls st; logged := logged st |}.

(** The detail of every failure [rate_writing] reports: the text of its
    own exception of line 175. *)
Definition generic_detail : str :=
  exn_str (HTTPException 500 (u "LLM evaluation failed.")).

(** The Model Gateway on a submission: what lines 120-142 yield for it. *)
Definition dispatch (w : World) (submission : WritingSubmission) (st : state)
  : result exn (option str) * state :=
  model_gateway w (str_lower (model submission))
    (build_prompt submission (count_words (response submission))) (fresh st).

(** The keys and sub-keys lines 155-162 read. *)
Definition criteria : list str :=
  map u ["task_achievement"; "coherence_cohesion"; "lexical_resource";
         "grammatical_range"]%string.

Definition has_key (k : str) (d : list (str * json)) : bool :=
  match Dict.get k d with
  | Some _ => true
  | None => false
  end.

(** A decoded object leaves out a key that is read, or one of the
    sub-keys of a criterion that is itself an object. *)
Definition omits_required (d : list (str * json)) : bool :=
  existsb (fun name =>
             match Dict.get name d with
             | None => true
             | Some (JObject c) =>
                 negb (has_key (u "score") c) || negb (has_key (u "feedback") c)
             | Some _ => false
             end) criteria
  || negb (has_key (u "overall_score") d)
  || negb (has_key (u "overall_feedback") d).

Definition converts (x : json) : bool :=
  match float_ x with
  | Ok _ => true
  | Err _ => false
  end.

Definition validates (x : json) : bool :=
  match validate_str x with
  | Some _ => true
  | None => false
  end.

(* =================================================================== *)
(** * [rate_writing], app.py lines 169-182 *)
(* =================================================================== *)

(** The body of the [try] statement, lines 173-179. *)
Definition rate_body (w : World) (submission : WritingSubmission)
                     (debug_mode : bool) : M (gmap str value) :=
  fun st =>
    let '(rating, st') := evaluate_with_llm w submission st in
    match rating with
    | None => (Err (HTTPException 500 (u "LLM evaluation failed.")), st')
    | Some r =>
        let response : gmap str value := {[ u "rating" := VRating r ]} in
        let response :=
          if debug_mode
          then <[ u "debug_info" := VDict (debug_info st') ]> response
          else response in
        (Ok response, st')
    end.

(** [rate_writing]: the dictionary returned, or the exception raised. *)
Definition rate_writing (w : World) (submission : WritingSubmission)
                        (debug_mode : bool) : M (gmap str value) :=
  fun st =>
    match rate_body w submission debug_mode st with
    | (Ok response, st') => (Ok response, st')
    | (Err e, st') =>
(* lines 180-182 *)
let '(_, st1) :=
  log_error (u "Error in rate_writing endpoint: " ++ exn_str e) st' in
(Err (HTTPException 500 (exn_str e)), st1)
end.

End Evaluator.

(* ===================================================================== *)
(** * A reference platform *)
(* ===================================================================== *)

(** One platform on which the definitions run: CPython 3.12, pydantic 2 and
    a current Starlette. Case mapping and numerals are those of ASCII,
    numerals have no digit separators, and [repr] is that of a string
    without quotes or escapes; the messages of the JSON decoder and of
    pydantic are cut short. *)
Module Reference.

Definition lower_char (c : char) : char :=
  if (65 <=? c) && (c <=? 90) then c + 32 else c.

Definition lower (s : str) : str := map lower_char s.

Fixpoint lstrip (s : str) : str :=
  match s with
  | [] => []
  | c :: t => if isspace c then lstrip t else s
  end.

Definition strip (s : str) : str := rev (lstrip (rev (lstrip s))).

(** The binary64 value nearest to [m * 10^e], ties to even. *)
Definition float_of_decimal (neg : bool) (m : Z) (e : Z) : float :=
  match m with
  | Zpos p =>
      if (0 <=? e)%Z
      then SpecFloat.binary_normalize prec emax
             (SpecFloat.cond_Zopp neg (m * 10 ^ e)%Z) 0 false
      else match (10 ^ (- e))%Z with
           | Zpos q =>
               SpecFloat.SFdiv prec emax
                 (SpecFloat.S754_finite neg p 0)
                 (SpecFloat.S754_finite false q 0)
           | _ => SpecFloat.S754_nan
           end
  | _ => SpecFloat.S754_zero neg
  end.

(** The exponent of a decimal numeral: nothing, or [e], a sign and
    digits, up to the end of the text. *)
Definition exponent (s : str) : option Z :=
  match s with
  | [] => Some 0%Z
  | e :: t =>
      if (e =? 101) || (e =? 69) then
        let '(neg, t1) :=
          match t with
          | c :: t' => if c =? 45 then (true, t')
                       else if c =? 43 then (false, t') else (false, t)
          | [] => (false, t)
          end in
        match Json.span_digits t1 with
        | ((_ :: _) as ds, []) =>
            Some (if neg then - Json.Z_of_digits ds else Json.Z_of_digits ds)%Z
        | _ => None
        end
      else None
  end.

(** An unsigned decimal numeral: digits, an optional point and digits,
    with a digit on one side at least, and an optional exponent. *)
Definition decimal (neg : bool) (s : str) : option float :=
  let '(d1, r) := Json.span_digits s in
  let '(d2, r') :=
    match r with
    | p :: t => if p =? 46 then Json.span_digits t else ([], r)
    | [] => ([], r)
    end in
  match d1 ++ d2 with
  | [] => None
  | ds =>
      e ← exponent r';
      Some (float_of_decimal neg (Json.Z_of_digits ds) (e - Z.of_nat (length d2)))
  end.

Definition float_text (s : str) : option float :=
  let t := strip s in
  let '(neg, body) :=
    match t with
    | c :: t' => if c =? 45 then (true, t')
                 else if c =? 43 then (false, t') else (false, t)
    | [] => (false, t)
    end in
  let l := lower body in
  if str_eqb l (u "inf") || str_eqb l (u "infinity") then Some (float_inf neg)
  else if str_eqb l (u "nan") then Some float_nan
  else decimal neg body.

Definition float_of_str (s : str) : result str float :=
  match float_text s with
  | Some f => Ok f
  | None => Err (u "could not convert string to float: " ++ repr_key s)
  end.

Definition failure_text (f : library_failure) : str :=
  match f with
  | Decode_failed _ => u "not a valid JSON document"
  | Too_deep =>
      u "maximum recursion depth exceeded while decoding a JSON object from a unicode string"
  | Int_too_long lexeme =>
      u "Exceeds the limit (4300 digits) for integer string conversion: value has "
        ++ str_of_nat (length (filter (fun c => c <> 45) lexeme))
        ++ u " digits; use sys.set_int_max_str_digits() to increase the limit"
  | Int_too_large => u "int too large to convert to float"
  | Bad_float_argument x =>
      u "float() argument must be a string or a real number, not '"
        ++ json_type_name x ++ u "'"
  | Not_subscriptable (JString _) _ => u "string indices must be integers, not 'str'"
  | Not_subscriptable (JArray _) _ =>
      u "list indices must be integers or slices, not str"
  | Not_subscriptable x _ =>
      u "'" ++ json_type_name x ++ u "' object is not subscriptable"
  | Len_of_None => u "object of type 'NoneType' has no len()"
  | Invalid_field cls field _ =>
      u "1 validation error for " ++ cls ++ NEWLINE ++ field ++ NEWLINE
        ++ u "  Input should be a valid string"
  end.

Definition validate_str (x : json) : option str :=
  match x with
  | JString s => Some s
  | _ => None
  end.

Definition format_TaskType (t : TaskType) : str :=
  match t with
  | TASK1 => u "TaskType.TASK1"
  | TASK2 => u "TaskType.TASK2"
  end.

Definition HTTPException_str (status_code : nat) (detail : str) : str :=
  str_of_nat status_code ++ u ": " ++ detail.

#[export] Instance platform : Platform :=
  Build_Platform lower float_of_str 4300 1000 failure_text validate_str
    (fun _ => eq_refl) format_TaskType HTTPException_str.

End Reference.

(* ===================================================================== *)
(** * Sample requests and replies *)
(* ===================================================================== *)

Module Samples.
Import Reference.

(** The fields of a reply object, with every field of the rubric. *)
Definition rating_fields : str :=
  uq "`task_achievement`: {`score`: 7, `feedback`: `On topic.`}, `coherence_cohesion`: {`score`: 6.5, `feedback`: `Clear paragraphs.`}, `lexical_resource`: {`score`: 7.0, `feedback`: `Good range.`}, `grammatical_range`: {`score`: 6, `feedback`: `Some slips.`}, `overall_score`: 6.5, `overall_feedback`: `A solid answer.`".

(** The reply object. *)
Definition rating_object : str := LBRACE :: rating_fields ++ [RBRACE].

(** The rating that object describes. *)
Definition rating : DetailedRating :=
  {| task_achievement := {| score := float_round_Z 7; feedback := u "On topic." |};
     coherence_cohesion :=
       {| score := float_of_decimal false 65 (-1); feedback := u "Clear paragraphs." |};
     lexical_resource := {| score := float_round_Z 7; feedback := u "Good range." |};
     grammatical_range := {| score := float_round_Z 6; feedback := u "Some slips." |};
     overall_score := float_of_decimal false 65 (-1);
     overall_feedback := u "A solid answer." |}.

(** A reply object without [grammatical_range], whose first score is a
    word. *)
Definition incomplete_object : str :=
  uq "{`task_achievement`: {`score`: `high`, `feedback`: `On topic.`}, `coherence_cohesion`: {`score`: 6.5, `feedback`: `Clear paragraphs.`}, `lexical_resource`: {`score`: 7.0, `feedback`: `Good range.`}, `overall_score`: 6.5, `overall_feedback`: `A solid answer.`}".

(** A reply object without [grammatical_range] and otherwise well
    formed. *)
Definition three_criteria_object : str :=
  uq "{`task_achievement`: {`score`: 7, `feedback`: `On topic.`}, `coherence_cohesion`: {`score`: 6.5, `feedback`: `Clear paragraphs.`}, `lexical_resource`: {`score`: 7.0, `feedback`: `Good range.`}, `overall_score`: 6.5, `overall_feedback`: `A solid answer.`}".

(** A world with a credential, where the hosted backend answers [reply]. *)
Definition world (reply : str) : World :=
  {| OPENAI_API_KEY := Some (u "sk-test");
     import_openai := Ok tt;
     upstream := fun _ => Ok (Some reply) |}.

Definition submission (model_name : str) : WritingSubmission :=
  {| task_type := TASK2;
     question := u "Some people think that cities should be car free. Discuss.";
     response := u "This is five words.";
     model := model_name |}.

(** A reply of more than two hundred characters. *)
Definition long_reply : str :=
  u "Thank you for the essay. " ++ concat (replicate 20 (u "0123456789")) ++ rating_object.

End Samples.

(* ===================================================================== *)
(** * What the service reads, sends and logs *)
(* ===================================================================== *)

(** The members of the decoded object that lines 155-162 read. *)
Definition top_level_keys : list str :=
  criteria ++ map u ["overall_score"; "overall_feedback"]%string.

Section ServiceTerms.
Context `{Platform}.

(** The request the branch for "chatgpt" sends, lines 125-133. *)
Definition openai_request (key : str) (submission : WritingSubmission) : upstream_call :=
  OpenAI_create key (u "gpt-4")
    [(u "system", u "You are an IELTS examiner.");
     (u "user", build_prompt submission (count_words (response submission)))]
    (2 # 10) 500.

(** The line [evaluate_with_llm] logs for the exception [e], line 165. *)
Definition evaluation_log (submission : WritingSubmission) (e : exn) : str :=
  u "Error using LLM (" ++ str_lower (model submission) ++ u "): "
    ++ exn_type_name e ++ u ": " ++ exn_str e.

(** The line [rate_writing] logs, line 181. *)
Definition endpoint_log : str := u "Error in rate_writing endpoint: " ++ generic_detail.

End ServiceTerms.

(* ===================================================================== *)
(** * The rubric fields of a decoded object *)
(* ===================================================================== *)

Section Rubric.
Context `{Platform}.

(** The member [name] of a decoded object is a complete criterion: an
    object with a score that converts to a float and a feedback that is
    accepted as a string. *)
Definition complete_criterion (d : list (str * json)) (name : str) : bool :=
  match Dict.get name d with
  | Some (JObject c) =>
      match Dict.get (u "score") c, Dict.get (u "feedback") c with
      | Some s, Some fb => converts s && validates fb
      | _, _ => false
      end
  | _ => false
  end.

(** A decoded object has the required rubric fields: the four criteria,
    complete, an overall score that converts to a float and an overall
    feedback that is accepted as a string. *)
Definition rubric_fields (d : list (str * json)) : bool :=
  forallb (complete_criterion d) criteria
  && match Dict.get (u "overall_score") d with
     | Some s => converts s
     | None => false
     end
  && match Dict.get (u "overall_feedback") d with
     | Some fb => validates fb
     | None => false
     end.

(** The criterion [c] is what the member [name] of the object says: its
    score is the float of the score of that member, its feedback the
    feedback of that member. *)
Definition criterion_matches (d : list (str * json)) (name : str) (c : Criterion)
  : Prop :=
  exists fields s fb,
    Dict.get name d = Some (JObject fields)
    /\ Dict.get (u "score") fields = Some s /\ float_ s = Ok (score c)
    /\ Dict.get (u "feedback") fields = Some fb
    /\ validate_str fb = Some (feedback c).

(** The rating [r] is what the object says, field by field. *)
Definition rating_matches (d : list (str * json)) (r : DetailedRating) : Prop :=
  criterion_matches d (u "task_achievement") (task_achievement r)
  /\ criterion_matches d (u "coherence_cohesion") (coherence_cohesion r)
  /\ criterion_matches d (u "lexical_resource") (lexical_resource r)
  /\ criterion_matches d (u "grammatical_range") (grammatical_range r)
  /\ (exists s, Dict.get (u "overall_score") d = Some s
                /\ float_ s = Ok (overall_score r))
  /\ (exists fb, Dict.get (u "overall_feedback") d = Some fb
                 /\ validate_str fb = Some (overall_feedback r)).

(** Where the exception [e] that makes an evaluation fail comes from: the
    gateway raised it; or the gateway returned a reply without content and
    [len] of line 144 raised it; or the extractor raised it on the reply. *)
Definition failure_cause (w : World) (submission : WritingSubmission) (st : state)
                         (e : exn) : Prop :=
  (exists st1, dispatch w submission st = (Err e, st1))
  \/ (exists st1, dispatch w submission st = (Ok None, st1)
                  /\ e = TypeError (failure_text Len_of_None))
  \/ (exists reply st1, dispatch w submission st = (Ok (Some reply), st1)
                        /\ response_extractor reply = Err e).

End Rubric.

(* ===================================================================== *)
(** * The response of the route, app.py lines 49-51 and 169 *)
(* ===================================================================== *)

(** [class RatingResponse(BaseModel)], lines 49-51: [debug_info] is
    optional, and [None] when it is not given. *)
Module RatingResponse.

Record t : Type := {
  rating : DetailedRating;
  debug_info : option (gmap str str)
}.

End RatingResponse.

(** A member of the JSON object sent for a response. *)
Inductive member : Type :=
| Rating_of (r : DetailedRating)
| Trace_of (d : gmap str str)
| Null.

(** The members of the JSON object FastAPI sends for a response of the
    model: every field the model declares, in the order of the
    declaration, with [null] for a field that is [None]. *)
Definition body_members (r : RatingResponse.t) : list (str * member) :=
  [(u "rating", Rating_of (RatingResponse.rating r));
   (u "debug_info",
    match RatingResponse.debug_info r with
    | Some d => Trace_of d
    | None => Null
    end)].

(** What [response_model=RatingResponse] of line 169 makes of the
    dictionary the handler returns: FastAPI validates it against the model,
    a field the dictionary leaves out takes its default, and a dictionary
    the model refuses is a [ResponseValidationError], whose message is left
    out here. *)
Definition response_model (response : gmap str value) : result exn RatingResponse.t :=
  match response !! u "rating" with
  | Some (VRating r) =>
      match response !! u "debug_info" with
      | None => Ok {| RatingResponse.rating := r; RatingResponse.debug_info := None |}
      | Some (VDict d) =>
          Ok {| RatingResponse.rating := r; RatingResponse.debug_info := Some d |}
      | Some (VRating _) => Err (LibraryError (u "ResponseValidationError") [])
      end
  | _ => Err (LibraryError (u "ResponseValidationError") [])
  end.

Section Route.
Context `{Platform}.

(** The route [POST /rate] of line 169: the handler [rate_writing], then
    the response model on what it returns. *)
Definition post_rate (w : World) (submission : WritingSubmission)
                     (debug_mode : bool) : M RatingResponse.t :=
  fun st =>
    match rate_writing w submission debug_mode st with
    | (Ok response, st') => (response_model response, st')
    | (Err e, st') => (Err e, st')
    end.

End Route.

(* ===================================================================== *)
(** * The desktop form, ielts_tkinter_app.py *)
(* ===================================================================== *)

Module Client.

(** Line 5. *)
Definition API_URL : str := u "http://localhost:8000/rate".

(** What the handler of the form can see raised: an exception of the
    [requests] library, which its [except] clause catches (line 41), or any
    other exception, which leaves the handler. *)
Inductive raised : Type :=
| RequestException (msg : str)
| Uncaught (e : exn).

(** The answer to a request: its status line, its address, and what
    [response.json()] gives. *)
Record Response : Type := {
  status_code : nat;
  reason : str;
  url : str;
  json_body : result raised json
}.

(** [requests.post(url, json=data)], for a dictionary of strings. *)
Record Network : Type := {
  post : str -> list (str * str) -> result raised Response
}.

(** What the form takes from the interpreter: the text an f-string gives
    for a decoded value, and [str.title]. *)
Class Display : Type := {
  format_value : json -> str;
  str_title : str -> str
}.

(** [str.strip()] *)
Fixpoint lstrip (s : str) : str :=
  match s with
  | [] => []
  | c :: t => if isspace c then lstrip t else s
  end.

Definition strip (s : str) : str := rev (lstrip (rev (lstrip s))).

(** [s.replace('_', ' ')] *)
Definition replace_underscores (s : str) : str :=
  map (fun c => if c =? 95 then 32 else c) s.

(** [response.raise_for_status()] of the requests library: for a status
    from 400 to 599 it raises [HTTPError], a [RequestException], with the
    message the library builds from the status, the reason and the
    address. *)
Definition raise_for_status (r : Response) : result raised unit :=
  if Nat.leb 400 (status_code r) && Nat.ltb (status_code r) 500 then
    Err (RequestException
           (str_of_nat (status_code r) ++ u " Client Error: " ++ reason r
              ++ u " for url: " ++ url r))
  else if Nat.leb 500 (status_code r) && Nat.ltb (status_code r) 600 then
    Err (RequestException
           (str_of_nat (status_code r) ++ u " Server Error: " ++ reason r
              ++ u " for url: " ++ url r))
  else Ok tt.

(** Lines 25-27 up to the subscript: the request, the check of its status
    and the decoding of its body. *)
Definition fetch (net : Network) (data : list (str * str)) : result raised json :=
  r ← post net API_URL data;
  _ ← raise_for_status r;
  json_body r.

(** A Tk text widget: the pieces of text inserted, each with its tag, and
    whether it accepts changes. *)
Inductive editing : Type := NORMAL | DISABLED.

Record TextWidget : Type := {
  segments : list (str * str);
  editing_state : editing
}.

(** What the user sees and what was sent: the feedback widget, the error
    dialogs shown, the requests posted. *)
Record Gui : Type := {
  feedback_text : TextWidget;
  dialogs : list (str * str);
  posted : list (str * list (str * str))
}.

(** The fields of the form as the widgets hand them over. *)
Record Form : Type := {
  task_type_var : str;
  model_var : str;
  question_text : str;
  response_text : str
}.

Definition G (A : Type) : Type := Gui -> result raised A * Gui.

#[export] Instance G_ret : MRet G := fun _ a g => (Ok a, g).

#[export] Instance G_bind : MBind G := fun _ _ k m g =>
  match m g with
  | (Ok a, g') => k a g'
  | (Err e, g') => (Err e, g')
  end.

Definition lift_raised {A} (r : result raised A) : G A := fun g => (r, g).

Definition lift_exn {A} (r : result exn A) : G A := fun g =>
  (match r with Ok a => Ok a | Err e => Err (Uncaught e) end, g).

Definition with_widget (f : TextWidget -> TextWidget) : G unit := fun g =>
  (Ok tt, {| feedback_text := f (feedback_text g); dialogs := dialogs g;
             posted := posted g |}).

(** [feedback_text.config(state=s)] *)
Definition config (s : editing) : G unit :=
  with_widget (fun t => {| segments := segments t; editing_state := s |}).

(** [feedback_text.delete("1.0", tk.END)]: a disabled widget ignores it. *)
Definition delete_all : G unit :=
  with_widget (fun t =>
    match editing_state t with
    | NORMAL => {| segments := []; editing_state := NORMAL |}
    | DISABLED => t
    end).

(** [feedback_text.insert(tk.END, text, tag)]: a disabled widget ignores
    it. *)
Definition insert (text tag : str) : G unit :=
  with_widget (fun t =>
    match editing_state t with
    | NORMAL => {| segments := segments t ++ [(text, tag)]; editing_state := NORMAL |}
    | DISABLED => t
    end).

(** [messagebox.showerror(title, message)] *)
Definition showerror (title message : str) : G unit := fun g =>
  (Ok tt, {| feedback_text := feedback_text g;
             dialogs := dialogs g ++ [(title, message)]; posted := posted g |}).

(** The request is sent and recorded. *)
Definition request (net : Network) (data : list (str * str)) : G json := fun g =>
  (fetch net data, {| feedback_text := feedback_text g; dialogs := dialogs g;
                      posted := posted g ++ [(API_URL, data)] |}).

Section WithDisplay.
Context `{Platform} `{Display}.

(** [rating.items()] *)
Definition items (rating : json) : result exn (list (str * json)) :=
  match rating with
  | JObject fields => Ok fields
  | _ => Err (LibraryError (u "AttributeError")
                (u "'" ++ json_type_name rating ++ u "' object has no attribute 'items'"))
  end.

(** The loop of lines 34-38. *)
Fixpoint show_criteria (entries : list (str * json)) : G unit :=
  match entries with
  | [] => mret tt
  | (criterion, details) :: rest =>
      _ ← match details with
          | JObject _ =>
              _ ← insert (str_title (replace_underscores criterion) ++ u ":" ++ NEWLINE)
                    (u "subtitle");
              sc ← lift_exn (subscript details (u "score"));
              _ ← insert (u "- Score: " ++ format_value sc ++ NEWLINE) (u "bold");
              fb ← lift_exn (subscript details (u "feedback"));
              insert (u "- Feedback: " ++ format_value fb ++ NEWLINE ++ NEWLINE)
                (u "normal")
          | _ => mret tt
          end;
      show_criteria rest
  end.

(** The body of the [try] statement, lines 25-40. *)
Definition show_rating (net : Network) (data : list (str * str)) : G unit :=
  answer ← request net data;
  rating ← lift_exn (subscript answer (u "rating"));
  _ ← config NORMAL;
  _ ← delete_all;
  os ← lift_exn (subscript rating (u "overall_score"));
  _ ← insert (u "Overall Score: " ++ format_value os ++ NEWLINE ++ NEWLINE) (u "title");
  of_ ← lift_exn (subscript rating (u "overall_feedback"));
  _ ← insert (u "Feedback: " ++ format_value of_ ++ NEWLINE ++ NEWLINE) (u "normal");
  entries ← lift_exn (items rating);
  _ ← show_criteria entries;
  config DISABLED.

(** The dictionary of line 17. *)
Definition form_data (form : Form) : list (str * str) :=
  [(u "task_type", task_type_var form);
   (u "question", strip (question_text form));
   (u "response", strip (response_text form));
   (u "model", model_var form)].

(** [submit_task], lines 7-42. *)
Definition submit_task (net : Network) (form : Form) : G unit := fun g =>
  let question := strip (question_text form) in
  let response := strip (response_text form) in
  match question, response with
  | [], _ | _, [] =>
      showerror (u "Input Error")
        (u "Both question and response fields must be filled.") g
  | _, _ =>
      match show_rating net (form_data form) g with
      | (Err (RequestException msg), g') =>
          showerror (u "API Error") (u "Failed to get feedback: " ++ msg) g'
      | outcome => outcome
      end
  end.

(** The state after the request has been sent. *)
Definition sent (form : Form) (g : Gui) : Gui :=
  {| feedback_text := feedback_text g; dialogs := dialogs g;
     posted := posted g ++ [(API_URL, form_data form)] |}.

(** The segments of lines 31 and 32. *)
Definition overall_segments (os of_ : json) : list (str * str) :=
  [(u "Overall Score: " ++ format_value os ++ NEWLINE ++ NEWLINE, u "title");
   (u "Feedback: " ++ format_value of_ ++ NEWLINE ++ NEWLINE, u "normal")].

(** The segments a member of the rating is shown as, lines 36-38. *)
Definition criterion_segments (entry : str * json) : list (str * str) :=
  match entry with
  | (criterion, JObject c) =>
      match Dict.get (u "score") c, Dict.get (u "feedback") c with
      | Some sc, Some fb =>
          [(str_title (replace_underscores criterion) ++ u ":" ++ NEWLINE, u "subtitle");
           (u "- Score: " ++ format_value sc ++ NEWLINE, u "bold");
           (u "- Feedback: " ++ format_value fb ++ NEWLINE ++ NEWLINE, u "normal")]
      | _, _ => []
      end
  | _ => []
  end.

(** An entry the loop shows in full or skips: not an object, or an object
    with a score and a feedback. *)
Definition showable (entry : str * json) : bool :=
  match entry with
  | (_, JObject c) => has_key (u "score") c && has_key (u "feedback") c
  | _ => true
  end.

End WithDisplay.

(** A step that posts nothing, shows no dialog and raises nothing the
    handler of line 41 catches. *)
Definition quiet {A} (m : G A) : Prop :=
  forall g,
    posted (snd (m g)) = posted g
    /\ dialogs (snd (m g)) = dialogs g
    /\ forall msg, fst (m g) <> Err (RequestException msg).

(** What the form decodes from the body the service answers with for the
    rating [r]: the fields of [DetailedRating] and of [Criterion] in the
    order app.py declares them (lines 36-46), a score as the value
    [number] that its JSON number decodes to. *)
Definition criterion_json (number : float -> json) (c : Criterion) : json :=
  JObject [(u "score", number (score c)); (u "feedback", JString (feedback c))].

Definition rating_json (number : float -> json) (r : DetailedRating) : json :=
  JObject
    [(u "task_achievement", criterion_json number (task_achievement r));
     (u "coherence_cohesion", criterion_json number (coherence_cohesion r));
     (u "lexical_resource", criterion_json number (lexical_resource r));
     (u "grammatical_range", criterion_json number (grammatical_range r));
     (u "overall_score", number (overall_score r));
     (u "overall_feedback", JString (overall_feedback r))].

(** What a JSON number or [null] decodes to. *)
Definition is_number_or_null (v : json) : bool :=
  match v with
  | JInt _ | JFloat _ | JNull => true
  | _ => false
  end.

End Client.

(* ===================================================================== *)
(** * A reference display *)
(* ===================================================================== *)

(** One interpreter on which the form runs: [str.title] is that of ASCII;
    an f-string shows a string as it is, an integer in decimal and a float
    with one decimal, cut to the half below it, which is exact for the
    half bands of the rubric; lists and dictionaries are cut short. *)
Module ClientReference.
Import Client.

Definition is_lower (c : char) : bool := (97 <=? c) && (c <=? 122).

Definition is_upper (c : char) : bool := (65 <=? c) && (c <=? 90).

Fixpoint title_from (after_cased : bool) (s : str) : str :=
  match s with
  | [] => []
  | c :: t =>
      if is_lower c then (if after_cased then c else c - 32) :: title_from true t
      else if is_upper c then (if after_cased then c + 32 else c) :: title_from true t
      else c :: title_from false t
  end.

Definition title (s : str) : str := title_from false s.

Definition str_of_Z (n : Z) : str :=
  match n with
  | Zneg p => u "-" ++ str_of_nat (Pos.to_nat p)
  | _ => str_of_nat (Z.to_nat n)
  end.

Definition format_float (f : float) : str :=
  match f with
  | SpecFloat.S754_zero s => if s then u "-0.0" else u "0.0"
  | SpecFloat.S754_infinity s => if s then u "-inf" else u "inf"
  | SpecFloat.S754_nan => u "nan"
  | SpecFloat.S754_finite s m e =>
      let halves := (if 0 <=? e + 1 then Z.pos m * 2 ^ (e + 1)
                     else Z.pos m / 2 ^ (- (e + 1)))%Z in
      (if s then u "-" else [])
        ++ str_of_nat (Z.to_nat (halves / 2))
        ++ (if Z.even halves then u ".0" else u ".5")
  end.

Definition format (v : json) : str :=
  match v with
  | JNull => u "None"
  | JBool b => if b then u "True" else u "False"
  | JInt n => str_of_Z n
  | JFloat f => format_float f
  | JString s => s
  | JArray _ => u "[...]"
  | JObject _ => u "{...}"
  end.

#[export] Instance display : Display := Build_Display format title.

End ClientReference.

(* ===================================================================== *)
(** * More sample worlds *)
(* ===================================================================== *)

Module ServiceSamples.
Import Reference.

(** What the decoder returns for the sample reply object. *)
Definition decoded_rating : json :=
  Eval vm_compute in
    match Json.loads Samples.rating_object with
    | Ok v => v
    | Err _ => JNull
    end.

(** The members of that object. *)
Definition decoded_fields : list (str * json) :=
  match decoded_rating with
  | JObject d => d
  | _ => []
  end.

(** A world without a credential. *)
Definition world_without_key : World :=
  {| OPENAI_API_KEY := None;
     import_openai := Ok tt;
     upstream := fun _ => Ok None |}.

(** A world whose hosted backend refuses the call. *)
Definition world_refusing : World :=
  {| OPENAI_API_KEY := Some (u "sk-test");
     import_openai := Ok tt;
     upstream := fun _ =>
       Err (LibraryError (u "RateLimitError") (u "Rate limit reached")) |}.

End ServiceSamples.

(* ===================================================================== *)
(** * Sample forms and answers *)
(* ===================================================================== *)

Module ClientSamples.
Import Reference Client ClientReference.

(** The form filled in, as the widgets hand their texts over: with the
    line end a Tk text widget adds. *)
Definition form : Form :=
  {| task_type_var := u "task2";
     model_var := u "chatGPT";
     question_text :=
       u "Some people think that cities should be car free. Discuss." ++ [10];
     response_text := u "  This is five words." ++ [10] |}.

(** The form with no response typed. *)
Definition blank_form : Form :=
  {| task_type_var := u "task2";
     model_var := u "chatGPT";
     question_text :=
       u "Some people think that cities should be car free. Discuss." ++ [10];
     response_text := u "   " ++ [10] |}.

(** The window before the button is pressed: the feedback widget of lines
    97-98, empty and read-only. *)
Definition gui : Gui :=
  {| feedback_text := {| segments := []; editing_state := DISABLED |};
     dialogs := [];
     posted := [] |}.

(** A service that answers every request with one status and body. *)
Definition answering (status : nat) (reason_phrase : str) (body : json) : Network :=
  {| post := fun address _ =>
       Ok {| status_code := status; reason := reason_phrase; url := address;
             json_body := Ok body |} |}.

(** No service listening. *)
Definition unreachable : Network :=
  {| post := fun _ _ => Err (RequestException (u "Connection refused")) |}.

(** The body of the answer for the sample rating, without diagnostics. *)
Definition rating_answer : json :=
  JObject [(u "rating", rating_json JFloat Samples.rating); (u "debug_info", JNull)].

(** A rating whose second criterion has lost its score. *)
Definition damaged_fields : list (str * json) :=
  [(u "task_achievement",
    JObject [(u "score", JInt 7); (u "feedback", JString (u "On topic."))]);
   (u "coherence_cohesion", JObject [(u "feedback", JString (u "Clear paragraphs."))]);
   (u "overall_score", JFloat (float_of_decimal false 65 (-1)));
   (u "overall_feedback", JString (u "A solid answer."))].

(** The body of an answer FastAPI gives for an exception. *)
Definition detail_answer : json :=
  JObject [(u "detail", JString (u "500: LLM evaluation failed."))].

(** A rating with one criterion and a remark. *)
Definition shown_fields : list (str * json) :=
  [(u "overall_score", JInt 7);
   (u "task_achievement",
    JObject [(u "score", JInt 7); (u "feedback", JString (u "On topic."))]);
   (u "remark", JString (u "Checked twice."));
   (u "overall_feedback", JString (u "A solid answer."))].

End ClientSamples.

(* ===================================================================== *)
(** * The span matched by the regular expression *)
(* ===================================================================== *)

Module ReFacts.
Import Re.

Lemma eqb_RBRACE_false c : c ≠ RBRACE -> (c =? RBRACE) = false.
Proof. intros Hc. now apply N.eqb_neq. Qed.

Lemma greedy_close_none t : RBRACE ∉ t -> greedy_close t = None.
Proof.
  induction t as [|c t IH]; intros Hnot; [reflexivity|].
  apply not_elem_of_cons in Hnot as [Hc Ht]. cbn.
  rewrite (IH Ht), eqb_RBRACE_false; [reflexivity|congruence].
Qed.

(** The star gives back no more than it must: the match ends at the last
    close brace. *)
Lemma greedy_close_last mid post :
  RBRACE ∉ post ->
  greedy_close (mid ++ RBRACE :: post) = Some (mid ++ [RBRACE]).
Proof.
  intros Hpost. induction mid as [|c mid IH]; cbn.
  - rewrite (greedy_close_none _ Hpost). reflexivity.
  - rewrite IH. reflexivity.
Qed.

Lemma search_none s : LBRACE ∉ s -> search s = None.
Proof.
  induction s as [|c s IH]; intros Hnot; [reflexivity|].
  apply not_elem_of_cons in Hnot as [Hc Hs]. cbn.
  destruct (N.eqb_spec c LBRACE) as [->|_]; [congruence|auto].
Qed.

(** The match starts at the first open brace and ends at the last close
    brace. *)
Lemma search_span pre mid post :
  LBRACE ∉ pre -> RBRACE ∉ post ->
  search (pre ++ LBRACE :: mid ++ RBRACE :: post)
  = Some (LBRACE :: mid ++ [RBRACE]).
Proof.
  intros Hpre Hpost. induction pre as [|c pre IH]; cbn.
  - rewrite (greedy_close_last mid post Hpost). reflexivity.
  - apply not_elem_of_cons in Hpre as [Hc Hpre].
    destruct (N.eqb_spec c LBRACE) as [->|_]; [congruence|auto].
Qed.

(** A text with an open brace and a close brace somewhere after it splits
    at its first open brace and its last close brace. *)
Lemma first_last_braces a b c :
  exists pre mid post,
    a ++ LBRACE :: b ++ RBRACE :: c = pre ++ LBRACE :: mid ++ RBRACE :: post
    /\ (LBRACE ∉ pre) /\ (RBRACE ∉ post).
Proof.
  assert (Hlast : forall l : str, RBRACE ∈ l ->
            exists mid post, l = mid ++ RBRACE :: post /\ (RBRACE ∉ post)).
  { intros l Hin. apply list_elem_of_split_r in Hin as (l1 & l2 & -> & Hn).
    eauto. }
  induction a as [|x a IH]; cbn.
  - destruct (Hlast (b ++ RBRACE :: c)) as (mid & post & Heq & Hn).
    { apply elem_of_app. right. left. }
    exists [], mid, post. rewrite Heq. split_and!; [reflexivity| |assumption].
    apply not_elem_of_nil.
  - destruct (decide (x = LBRACE)) as [->|Hx].
    + destruct (Hlast (a ++ LBRACE :: b ++ RBRACE :: c)) as (mid & post & Heq & Hn).
      { apply elem_of_app. right. right. apply elem_of_app. right. left. }
      exists [], mid, post. rewrite Heq.
      split_and!; [reflexivity| |assumption]. apply not_elem_of_nil.
    + destruct IH as (pre & mid & post & Heq & Hpre & Hpost).
      exists (x :: pre), mid, post. rewrite Heq.
      split_and!; [reflexivity| |assumption].
      apply not_elem_of_cons. split; [congruence|assumption].
Qed.

End ReFacts.

(* ===================================================================== *)
(** * The decoder reads one value and leaves the rest *)
(* ===================================================================== *)

Module JsonFacts.
Import Json.
Local Open Scope nat_scope.

(** ** White space, digits, prefixes *)

Lemma skip_ws_length s : length (skip_ws s) <= length s.
Proof.
  induction s as [|c s IH]; cbn; [lia|]. destruct (is_ws c); cbn; lia.
Qed.

Lemma skip_ws_app s t c r :
  skip_ws s = c :: r -> skip_ws (s ++ t) = c :: r ++ t.
Proof.
  induction s as [|x s IH]; cbn; [discriminate|].
  destruct (is_ws x); [exact IH|]. intros [= -> ->]. reflexivity.
Qed.

Lemma skip_ws_app_ne s t :
  skip_ws s <> [] -> skip_ws (s ++ t) = skip_ws s ++ t.
Proof.
  destruct (skip_ws s) as [|c r] eqn:E; [congruence|].
  intros _. now apply skip_ws_app.
Qed.

Lemma skip_ws_head s c r : skip_ws s = c :: r -> is_ws c = false.
Proof.
  induction s as [|x s IH]; cbn; [discriminate|].
  destruct (is_ws x) eqn:E; [exact IH|]. now intros [= <- _].
Qed.

Lemma span_digits_length s ds r :
  span_digits s = (ds, r) -> length s = length ds + length r.
Proof.
  revert ds r. induction s as [|c s IH]; cbn; intros ds r.
  - now intros [= <- <-].
  - destruct (is_digit c).
    + destruct (span_digits s) as [ds' r'] eqn:E. intros [= <- <-].
      cbn. now rewrite (IH _ _ eq_refl).
    + now intros [= <- <-].
Qed.

Lemma span_digits_app s t ds c r :
  span_digits s = (ds, c :: r) -> span_digits (s ++ t) = (ds, c :: r ++ t).
Proof.
  revert ds. induction s as [|x s IH]; cbn; intros ds; [discriminate|].
  destruct (is_digit x).
  - destruct (span_digits s) as [ds' r'] eqn:E. intros [= <- ->].
    now rewrite (IH _ eq_refl).
  - now intros [= <- -> ->].
Qed.

Lemma strip_prefix_app p s t r :
  strip_prefix p s = Some r -> strip_prefix p (s ++ t) = Some (r ++ t).
Proof.
  revert s. induction p as [|a p IH]; intros [|b s]; cbn; try discriminate.
  - now intros [= <-].
  - now intros [= <-].
  - destruct (a =? b)%N; [apply IH|discriminate].
Qed.

Lemma strip_prefix_length p s r :
  strip_prefix p s = Some r -> length s = length p + length r.
Proof.
  revert s. induction p as [|a p IH]; intros [|b s]; cbn; try discriminate.
  - now intros [= <-].
  - now intros [= <-].
  - destruct (a =? b)%N; [|discriminate]. intros Hs. now rewrite (IH _ Hs).
Qed.

(** ** Strings *)

Lemma scan_pieces_spec n :
  forall s, length s <= n ->
    forall ps r, scan_pieces s = Some (ps, r) ->
      length r < length s
      /\ forall t, scan_pieces (s ++ t) = Some (ps, r ++ t).
Proof.
  induction n as [|n IH]; intros [|c s] Hlen ps r; cbn in *;
    try discriminate; try lia.
  assert (Hrec : forall s', length s' <= n ->
            forall p ps r,
              match scan_pieces s' with
              | Some (ps0, r0) => Some (p :: ps0, r0)
              | None => None
              end = Some (ps, r) ->
              length r < length s'
              /\ forall t,
                   match scan_pieces (s' ++ t) with
                   | Some (ps0, r0) => Some (p :: ps0, r0)
                   | None => None
                   end = Some (ps, r ++ t)).
  { intros s' Hs' p ps' r'.
    destruct (scan_pieces s') as [[ps0 r0]|] eqn:E; [|discriminate].
    intros [= <- <-]. destruct (IH s' Hs' _ _ E) as [Hl Happ].
    split; [exact Hl|]. intros t. now rewrite Happ. }
  destruct (c =? DQUOTE)%N.
  { intros [= <- <-]. split; [lia|reflexivity]. }
  destruct (c =? BACKSLASH)%N.
  - destruct s as [|e t1]; [discriminate|]. cbn in *.
    destruct (e =? 117)%N.
    + destruct t1 as [|h1 [|h2 [|h3 [|h4 t5]]]]; try discriminate. cbn in *.
      destruct (hex4 h1 h2 h3 h4); [|discriminate].
      intros Hs. destruct (Hrec t5 ltac:(lia) _ _ _ Hs) as [Hl Happ].
      split; [lia|exact Happ].
    + destruct (unescape e); [|discriminate].
      intros Hs. destruct (Hrec t1 ltac:(lia) _ _ _ Hs) as [Hl Happ].
      split; [lia|exact Happ].
  - destruct (c <=? 31)%N; [discriminate|].
    intros Hs. destruct (Hrec s ltac:(lia) _ _ _ Hs) as [Hl Happ].
    split; [lia|exact Happ].
Qed.

Lemma scanstring_length s x r :
  scanstring s = Some (x, r) -> length r < length s.
Proof.
  unfold scanstring. destruct (scan_pieces s) as [[ps r0]|] eqn:E; [|discriminate].
  intros [= _ <-]. exact (proj1 (scan_pieces_spec _ s (le_n _) _ _ E)).
Qed.

(** What follows the closing quote does not change the string read. *)
Lemma scanstring_app s t x r :
  scanstring s = Some (x, r) -> scanstring (s ++ t) = Some (x, r ++ t).
Proof.
  unfold scanstring. destruct (scan_pieces s) as [[ps r0]|] eqn:E; [|discriminate].
  intros [= <- <-].
  now rewrite (proj2 (scan_pieces_spec _ s (le_n _) _ _ E) t).
Qed.

(** ** Numbers *)

Lemma scan_int_part_length s ip r :
  scan_int_part s = Some (ip, r) -> length r < length s.
Proof.
  destruct s as [|c s]; cbn; [discriminate|].
  destruct ((49 <=? c) && (c <=? 57))%N.
  - destruct (span_digits s) as [ds r'] eqn:E. intros [= _ <-].
    apply span_digits_length in E. lia.
  - destruct (c =? 48)%N; [|discriminate]. intros [= _ <-]. lia.
Qed.

Lemma scan_int_part_app s t ip c r :
  scan_int_part s = Some (ip, c :: r) ->
  scan_int_part (s ++ t) = Some (ip, c :: r ++ t).
Proof.
  destruct s as [|x s]; cbn; [discriminate|].
  destruct ((49 <=? x) && (x <=? 57))%N.
  - destruct (span_digits s) as [ds r'] eqn:E. intros [= <- ->].
    now rewrite (span_digits_app _ t _ _ _ E).
  - destruct (x =? 48)%N; [|discriminate]. now intros [= <- ->].
Qed.

Lemma scan_frac_length s f r :
  scan_frac s = Some (f, r) -> length r < length s.
Proof.
  destruct s as [|p [|d s]]; cbn; try discriminate.
  destruct ((p =? 46)%N && is_digit d); [|discriminate].
  destruct (span_digits s) as [ds r'] eqn:E. intros [= _ <-].
  apply span_digits_length in E. lia.
Qed.

Lemma scan_frac_app s t f c r :
  scan_frac s = Some (f, c :: r) ->
  scan_frac (s ++ t) = Some (f, c :: r ++ t).
Proof.
  destruct s as [|p [|d s]]; cbn; try discriminate.
  destruct ((p =? 46)%N && is_digit d); [|discriminate].
  destruct (span_digits s) as [ds r'] eqn:E. intros [= <- ->].
  now rewrite (span_digits_app _ t _ _ _ E).
Qed.

Lemma scan_frac_none_app s t c r :
  s = c :: r -> c <> 46%N -> scan_frac (s ++ t) = None.
Proof.
  intros -> Hc. cbn. destruct (r ++ t); [reflexivity|].
  now apply N.eqb_neq in Hc as ->.
Qed.

Lemma scan_exp_length s x r :
  scan_exp s = Some (x, r) -> length r < length s.
Proof.
  destruct s as [|e s]; cbn; [discriminate|].
  destruct ((e =? 101) || (e =? 69))%N; [|discriminate].
  destruct s as [|c s'].
  - cbn. discriminate.
  - destruct ((c =? 43) || (c =? 45))%N.
    + destruct (span_digits s') as [[|d ds] r'] eqn:E; [discriminate|].
      intros [= _ <-]. apply span_digits_length in E. cbn in *. lia.
    + destruct (span_digits (c :: s')) as [[|d ds] r'] eqn:E; [discriminate|].
      intros [= _ <-]. apply span_digits_length in E. cbn in *. lia.
Qed.

Lemma scan_exp_app s t x c r :
  scan_exp s = Some (x, c :: r) ->
  scan_exp (s ++ t) = Some (x, c :: r ++ t).
Proof.
  destruct s as [|e s]; cbn; [discriminate|].
  destruct ((e =? 101) || (e =? 69))%N; [|discriminate].
  destruct s as [|y s'].
  - cbn. discriminate.
  - cbn [app]. destruct ((y =? 43) || (y =? 45))%N.
    + destruct (span_digits s') as [[|d ds] r'] eqn:E; [discriminate|].
      intros [= <- ->]. now rewrite (span_digits_app _ t _ _ _ E).
    + destruct (span_digits (y :: s')) as [[|d ds] r'] eqn:E; [discriminate|].
      intros [= <- ->].
      change (y :: s' ++ t) with ((y :: s') ++ t).
      now rewrite (span_digits_app _ t _ _ _ E).
Qed.

Lemma scan_exp_none_app s t c r :
  s = c :: r -> c <> 101%N -> c <> 69%N -> scan_exp (s ++ t) = None.
Proof.
  intros -> H1 H2. cbn.
  apply N.eqb_neq in H1 as ->. now apply N.eqb_neq in H2 as ->.
Qed.

Lemma scan_frac_head s f r : scan_frac s = Some (f, r) -> exists t, s = 46%N :: t.
Proof.
  destruct s as [|p [|d s]]; cbn; try discriminate.
  destruct (N.eqb_spec p 46) as [->|]; cbn; [eauto|discriminate].
Qed.

Lemma scan_exp_head s x r :
  scan_exp s = Some (x, r) -> exists c t, s = c :: t /\ c <> 46%N.
Proof.
  destruct s as [|e s]; cbn; [discriminate|].
  destruct (N.eqb_spec e 101) as [->|]; cbn; [intros _; eexists _, _; split; [reflexivity|lia]|].
  destruct (N.eqb_spec e 69) as [->|]; cbn; [intros _; eexists _, _; split; [reflexivity|lia]|].
  discriminate.
Qed.

Lemma match_number_length s fl sg ip tl r :
  match_number s = Some (fl, sg, ip, tl, r) -> length r < length s.
Proof.
  unfold match_number.
  assert (Hgen : forall s1 sign,
    match scan_int_part s1 with
    | None => None
    | Some (ip, r1) =>
        let '(fr, r2) :=
          match scan_frac r1 with
          | Some (f, r) => (f, r)
          | None => ([], r1)
          end in
        let '(ex, r3) :=
          match scan_exp r2 with
          | Some (x, r) => (x, r)
          | None => ([], r2)
          end in
        Some (match fr ++ ex with [] => false | _ => true end, sign, ip, fr ++ ex, r3)
    end = Some (fl, sg, ip, tl, r) -> length r < length s1).
  { intros s1 sign.
    destruct (scan_int_part s1) as [[ip1 r1]|] eqn:Ei; [|discriminate].
    apply scan_int_part_length in Ei.
    destruct (scan_frac r1) as [[f r2]|] eqn:Ef.
    - apply scan_frac_length in Ef.
      destruct (scan_exp r2) as [[x r3]|] eqn:Ee.
      + apply scan_exp_length in Ee. intros [= _ _ _ _ <-]. lia.
      + intros [= _ _ _ _ <-]. lia.
    - destruct (scan_exp r1) as [[x r3]|] eqn:Ee.
      + apply scan_exp_length in Ee. intros [= _ _ _ _ <-]. lia.
      + intros [= _ _ _ _ <-]. lia. }
  destruct s as [|c s0].
  - intros Hm. apply Hgen in Hm. cbn in Hm. lia.
  - destruct (c =? 45)%N; intros Hm; apply Hgen in Hm; cbn in *; lia.
Qed.

(** A number followed by a character that cannot continue it is read the
    same whatever comes after. *)
Lemma match_number_app s t fl sg ip tl r :
  match_number s = Some (fl, sg, ip, tl, r) -> delimited r ->
  match_number (s ++ t) = Some (fl, sg, ip, tl, r ++ t).
Proof.
  unfold match_number.
  assert (Hgen : forall s1 sign,
    match scan_int_part s1 with
    | None => None
    | Some (ip, r1) =>
        let '(fr, r2) :=
          match scan_frac r1 with
          | Some (f, r) => (f, r)
          | None => ([], r1)
          end in
        let '(ex, r3) :=
          match scan_exp r2 with
          | Some (x, r) => (x, r)
          | None => ([], r2)
          end in
        Some (match fr ++ ex with [] => false | _ => true end, sign, ip, fr ++ ex, r3)
    end = Some (fl, sg, ip, tl, r) -> delimited r ->
    match scan_int_part (s1 ++ t) with
    | None => None
    | Some (ip, r1) =>
        let '(fr, r2) :=
          match scan_frac r1 with
          | Some (f, r) => (f, r)
          | None => ([], r1)
          end in
        let '(ex, r3) :=
          match scan_exp r2 with
          | Some (x, r) => (x, r)
          | None => ([], r2)
          end in
        Some (match fr ++ ex with [] => false | _ => true end, sign, ip, fr ++ ex, r3)
    end = Some (fl, sg, ip, tl, r ++ t)).
  { intros s1 sign.
    destruct (scan_int_part s1) as [[ip1 r1]|] eqn:Ei; [|discriminate].
    destruct (scan_frac r1) as [[f r2]|] eqn:Ef.
    - destruct (scan_exp r2) as [[x r3]|] eqn:Ee.
      + intros [= <- <- <- <- <-] Hd.
        destruct r3 as [|c0 r']; [contradiction|].
        destruct (scan_exp_head _ _ _ Ee) as (c2 & t2 & -> & _).
        destruct (scan_frac_head _ _ _ Ef) as (t1 & ->).
        rewrite (scan_int_part_app _ t _ _ _ Ei).
        change (46%N :: t1 ++ t) with ((46%N :: t1) ++ t).
        rewrite (scan_frac_app _ t _ _ _ Ef).
        change (c2 :: t2 ++ t) with ((c2 :: t2) ++ t).
        now rewrite (scan_exp_app _ t _ _ _ Ee).
      + intros [= <- <- <- <- <-] Hd.
        destruct r2 as [|c0 r']; [contradiction|]. destruct Hd as (_ & He1 & He2).
        destruct (scan_frac_head _ _ _ Ef) as (t1 & ->).
        rewrite (scan_int_part_app _ t _ _ _ Ei).
        change (46%N :: t1 ++ t) with ((46%N :: t1) ++ t).
        rewrite (scan_frac_app _ t _ _ _ Ef).
        change (c0 :: r' ++ t) with ((c0 :: r') ++ t).
        now rewrite (scan_exp_none_app _ t _ _ eq_refl He1 He2).
    - destruct (scan_exp r1) as [[x r3]|] eqn:Ee.
      + intros [= <- <- <- <- <-] Hd.
        destruct r3 as [|c0 r']; [contradiction|].
        destruct (scan_exp_head _ _ _ Ee) as (c1 & t1 & -> & Hc1).
        rewrite (scan_int_part_app _ t _ _ _ Ei).
        change (c1 :: t1 ++ t) with ((c1 :: t1) ++ t).
        rewrite (scan_frac_none_app _ t _ _ eq_refl Hc1).
        now rewrite (scan_exp_app _ t _ _ _ Ee).
      + intros [= <- <- <- <- <-] Hd.
        destruct r1 as [|c0 r']; [contradiction|]. destruct Hd as (Hp & He1 & He2).
        rewrite (scan_int_part_app _ t _ _ _ Ei).
        change (c0 :: r' ++ t) with ((c0 :: r') ++ t).
        rewrite (scan_frac_none_app _ t _ _ eq_refl Hp).
        now rewrite (scan_exp_none_app _ t _ _ eq_refl He1 He2). }
  destruct s as [|c s0].
  - cbn. discriminate.
  - cbn [app]. destruct (c =? 45)%N; intros Hm Hd.
    + exact (Hgen _ _ Hm Hd).
    + exact (Hgen (c :: s0) _ Hm Hd).
Qed.

(** ** Scalars and values *)

Ltac eval_lits :=
  repeat match goal with
         | |- context [u ?x] =>
             let v := eval vm_compute in (u x) in change (u x) with v
         end.

Ltac unfold_result := unfold mbind, mret, result_bind, result_ret in *.

Section WithPlatform.
Context `{Platform}.

Lemma number_app s t v r :
  number s = Ok (v, r) -> delimited r -> number (s ++ t) = Ok (v, r ++ t).
Proof.
  unfold number.
  destruct (match_number s) as [[[[[fl sg] ip] tl] r0]|] eqn:E; [|discriminate].
  intros Hn Hd. unfold_result.
  assert (r0 = r) as ->.
  { destruct (if fl then _ else _) as [j|e]; congruence. }
  rewrite (match_number_app _ t _ _ _ _ _ E Hd).
  destruct (if fl then _ else _) as [j|e]; congruence.
Qed.

Lemma number_length s v r : number s = Ok (v, r) -> length r < length s.
Proof.
  unfold number.
  destruct (match_number s) as [[[[[fl sg] ip] tl] r0]|] eqn:E; [|discriminate].
  apply match_number_length in E. unfold_result.
  destruct (if fl then _ else _) as [j|e]; [|discriminate].
  now intros [= _ <-].
Qed.

Lemma number_not_exhausted s : number s <> Err Exhausted.
Proof.
  unfold number, int_of_lexeme, float_of_lexeme.
  destruct (match_number s) as [[[[[fl sg] ip] tl] r0]|]; [|discriminate].
  unfold_result.
  destruct fl.
  - destruct (float_of_str _); discriminate.
  - destruct (_ && _); discriminate.
Qed.

(** A number starts with a digit, or with a minus sign and a digit. *)
Lemma number_head c s v r :
  number (c :: s) = Ok (v, r) ->
  is_digit c = true
  \/ (c = 45%N /\ exists d s', s = d :: s' /\ is_digit d = true).
Proof.
  unfold number.
  destruct (match_number (c :: s)) as [[[[[fl sg] ip] tl] r0]|] eqn:E; [|discriminate].
  intros _. unfold match_number in E.
  assert (Hint : forall x s0 y, scan_int_part (x :: s0) = Some y -> is_digit x = true).
  { intros x s0 y. cbn. unfold is_digit.
    destruct (N.leb_spec 49 x), (N.leb_spec x 57), (N.eqb_spec x 48),
      (N.leb_spec 48 x); cbn; try discriminate; try lia; reflexivity. }
  destruct (N.eqb_spec c 45) as [->|_].
  - right. split; [reflexivity|].
    destruct s as [|d s']; [discriminate|].
    destruct (scan_int_part (d :: s')) as [y|] eqn:Ei; [|discriminate].
    exists d, s'. split; [reflexivity|]. exact (Hint _ _ _ Ei).
  - left. destruct (scan_int_part (c :: s)) as [y|] eqn:Ei; [|discriminate].
    exact (Hint _ _ _ Ei).
Qed.

Lemma constant_for_digit c : is_digit c = true -> constant_for c = None.
Proof.
  unfold is_digit, constant_for. intros Hd.
  apply andb_true_iff in Hd as [H1%N.leb_le H2%N.leb_le].
  repeat match goal with
         | |- context [(c =? ?k)%N] => destruct (N.eqb_spec c k); [lia|]
         end.
  reflexivity.
Qed.

Lemma scalar_app s t v r :
  scalar s = Ok (v, r) -> delimited r -> scalar (s ++ t) = Ok (v, r ++ t).
Proof.
  destruct s as [|c s']; [discriminate|]. cbn [scalar app].
  destruct (constant_for c) as [[p v0]|] eqn:Ec.
  - destruct (strip_prefix p (c :: s')) as [r0|] eqn:Ep.
    + intros [= <- <-] _.
      change (c :: s' ++ t) with ((c :: s') ++ t).
      now rewrite (strip_prefix_app _ _ t _ Ep).
    + intros Hn Hd.
      change (c :: s' ++ t) with ((c :: s') ++ t).
      rewrite (number_app _ t _ _ Hn Hd).
      destruct (number_head _ _ _ _ Hn) as [Hdig|[-> (d & s'' & -> & Hdig)]].
      * rewrite (constant_for_digit _ Hdig) in Ec. discriminate.
      * injection Ec as <- <-. eval_lits. cbn [strip_prefix app].
        rewrite N.eqb_refl.
        destruct (N.eqb_spec 73 d) as [<-|_]; [discriminate|reflexivity].
  - intros Hn Hd. change (c :: s' ++ t) with ((c :: s') ++ t).
    exact (number_app _ t _ _ Hn Hd).
Qed.

Lemma scalar_length s v r : scalar s = Ok (v, r) -> length r < length s.
Proof.
  destruct s as [|c s']; [discriminate|]. cbn [scalar].
  destruct (constant_for c) as [[p v0]|] eqn:Ec; [|apply number_length].
  destruct (strip_prefix p (c :: s')) as [r0|] eqn:Ep; [|apply number_length].
  intros [= _ <-]. apply strip_prefix_length in Ep.
  assert (0 < length p); [|lia].
  unfold constant_for in Ec.
  repeat (destruct (_ =? _)%N; [injection Ec as <- _; vm_compute; lia|]).
  discriminate.
Qed.

Lemma scalar_not_exhausted s : scalar s <> Err Exhausted.
Proof.
  destruct s as [|c s']; [discriminate|]. cbn [scalar].
  destruct (constant_for c) as [[p v0]|]; [|apply number_not_exhausted].
  destruct (strip_prefix p (c :: s')); [discriminate|apply number_not_exhausted].
Qed.


Lemma scan_shrink n :
  (forall d s v r, scan_once n d s = Ok (v, r) -> length r < length s)
  /\ (forall d s acc v r, members n d s acc = Ok (v, r) -> length r < length s)
  /\ (forall d s acc v r, elements n d s acc = Ok (v, r) -> length r < length s).
Proof.
  induction n as [|n (IHs & IHm & IHe)]; [split_and!; intros; discriminate|].
  split_and!.
  - intros d [|c t] v r; cbn [scan_once]; [discriminate|].
    destruct (c =? DQUOTE)%N.
    { destruct (scanstring t) as [[x r0]|] eqn:E; [|discriminate].
      intros [= _ <-]. apply scanstring_length in E. cbn. lia. }
    destruct (c =? LBRACE)%N.
    { destruct (Nat.leb _ _); [discriminate|].
      pose proof (skip_ws_length t) as Hw.
      destruct (skip_ws t) as [|c1 t1]; [discriminate|].
      destruct (c1 =? RBRACE)%N.
      - intros [= _ <-]. cbn in *. lia.
      - intros Hm. apply IHm in Hm. cbn in *. lia. }
    destruct (c =? 91)%N.
    { destruct (Nat.leb _ _); [discriminate|].
      pose proof (skip_ws_length t) as Hw.
      destruct (skip_ws t) as [|c1 t1]; [discriminate|].
      destruct (c1 =? 93)%N.
      - intros [= _ <-]. cbn in *. lia.
      - intros Hm. apply IHe in Hm. cbn in *. lia. }
    apply scalar_length.
  - intros d [|c t] acc v r; cbn [members]; [discriminate|].
    destruct (c =? DQUOTE)%N; [|discriminate].
    destruct (scanstring t) as [[key r0]|] eqn:E; [|discriminate].
    apply scanstring_length in E.
    pose proof (skip_ws_length r0) as Hw0.
    destruct (skip_ws r0) as [|c2 t2]; [discriminate|].
    destruct (c2 =? 58)%N; [|discriminate].
    pose proof (skip_ws_length t2) as Hw2.
    destruct (scan_once n d (skip_ws t2)) as [[v1 r3]|e] eqn:E3; [|discriminate].
    apply IHs in E3. cbv zeta.
    pose proof (skip_ws_length r3) as Hw3.
    destruct (skip_ws r3) as [|c3 t3]; [discriminate|].
    destruct (c3 =? RBRACE)%N.
    + intros [= _ <-]. cbn in *. lia.
    + destruct (c3 =? 44)%N; [|discriminate].
      pose proof (skip_ws_length t3) as Hw4.
      intros Hm. apply IHm in Hm. cbn in *. lia.
  - intros d s acc v r; cbn [elements].
    destruct (scan_once n d s) as [[v1 r1]|e] eqn:E1; [|discriminate].
    apply IHs in E1.
    pose proof (skip_ws_length r1) as Hw1.
    destruct (skip_ws r1) as [|c t0]; [discriminate|].
    destruct (c =? 93)%N.
    + intros [= _ <-]. cbn in *. lia.
    + destruct (c =? 44)%N; [|discriminate].
      pose proof (skip_ws_length t0) as Hw2.
      intros Hm. apply IHe in Hm. cbn in *. lia.
Qed.

(** The budget of [loads] is never used up. *)
Lemma scan_budget n :
  (forall d s, 2 * length s < n -> scan_once n d s <> Err Exhausted)
  /\ (forall d s acc, 2 * length s < n -> members n d s acc <> Err Exhausted)
  /\ (forall d s acc, 2 * length s + 1 < n -> elements n d s acc <> Err Exhausted).
Proof.
  induction n as [|n (IHs & IHm & IHe)]; [split_and!; intros; lia|].
  destruct (scan_shrink n) as (Shs & _ & _).
  split_and!.
  - intros d [|c t] Hlen; cbn [scan_once]; [discriminate|]. cbn [length] in Hlen.
    destruct (c =? DQUOTE)%N.
    { destruct (scanstring t) as [[x r0]|]; discriminate. }
    destruct (c =? LBRACE)%N.
    { destruct (Nat.leb _ _); [discriminate|].
      pose proof (skip_ws_length t) as Hw.
      destruct (skip_ws t) as [|c1 t1]; [discriminate|].
      destruct (c1 =? RBRACE)%N; [discriminate|].
      apply IHm. cbn in *. lia. }
    destruct (c =? 91)%N.
    { destruct (Nat.leb _ _); [discriminate|].
      pose proof (skip_ws_length t) as Hw.
      destruct (skip_ws t) as [|c1 t1]; [discriminate|].
      destruct (c1 =? 93)%N; [discriminate|].
      apply IHe. cbn in *. lia. }
    apply scalar_not_exhausted.
  - intros d [|c t] acc Hlen; cbn [members]; [discriminate|]. cbn [length] in Hlen.
    destruct (c =? DQUOTE)%N; [|discriminate].
    destruct (scanstring t) as [[key r0]|] eqn:E; [|discriminate].
    apply scanstring_length in E.
    pose proof (skip_ws_length r0) as Hw0.
    destruct (skip_ws r0) as [|c2 t2]; [discriminate|].
    destruct (c2 =? 58)%N; [|discriminate].
    pose proof (skip_ws_length t2) as Hw2.
    assert (Hb : 2 * length (skip_ws t2) < n) by (cbn in *; lia).
    destruct (scan_once n d (skip_ws t2)) as [[v1 r3]|e] eqn:E3.
    + apply Shs in E3. cbv zeta.
      pose proof (skip_ws_length r3) as Hw3.
      destruct (skip_ws r3) as [|c3 t3]; [discriminate|].
      destruct (c3 =? RBRACE)%N; [discriminate|].
      destruct (c3 =? 44)%N; [|discriminate].
      pose proof (skip_ws_length t3) as Hw4.
      apply IHm. cbn in *. lia.
    + intros [= ->]. exact (IHs _ _ Hb E3).
  - intros d s acc Hlen; cbn [elements].
    assert (Hb : 2 * length s < n) by lia.
    destruct (scan_once n d s) as [[v1 r1]|e] eqn:E1.
    + apply Shs in E1.
      pose proof (skip_ws_length r1) as Hw1.
      destruct (skip_ws r1) as [|c t0]; [discriminate|].
      destruct (c =? 93)%N; [discriminate|].
      destruct (c =? 44)%N; [|discriminate].
      pose proof (skip_ws_length t0) as Hw2.
      apply IHe. cbn in *. lia.
    + intros [= ->]. exact (IHs _ _ Hb E1).
Qed.

Lemma delimited_after r c t0 :
  skip_ws r = c :: t0 -> (c = 44 \/ c = 93 \/ c = RBRACE)%N -> delimited r.
Proof.
  destruct r as [|x r']; cbn; [discriminate|].
  destruct (is_ws x) eqn:E.
  - intros _ _. unfold is_ws in E.
    destruct (N.eqb_spec x 32), (N.eqb_spec x 9), (N.eqb_spec x 10),
      (N.eqb_spec x 13); cbn in E; try discriminate; lia.
  - intros [= -> ->]. unfold RBRACE. lia.
Qed.


Lemma scan_once_nil n d v r : scan_once n d [] <> Ok (v, r).
Proof. destruct n; discriminate. Qed.

Lemma members_nil n d acc v r : members n d [] acc <> Ok (v, r).
Proof. destruct n; discriminate. Qed.

Lemma elements_nil n d acc v r : elements n d [] acc <> Ok (v, r).
Proof.
  destruct n as [|n]; [discriminate|]. cbn [elements].
  destruct (scan_once n d []) as [[v1 r1]|e] eqn:E; [|discriminate].
  now apply scan_once_nil in E.
Qed.

(** A value is read the same whatever follows it, with as many calls or
    more: the text after it is left for the caller. *)
Lemma scan_app n :
  (forall d s v r t m,
      scan_once n d s = Ok (v, r) -> composite s \/ delimited r -> n <= m ->
      scan_once m d (s ++ t) = Ok (v, r ++ t))
  /\ (forall d s acc v r t m,
      members n d s acc = Ok (v, r) -> n <= m ->
      members m d (s ++ t) acc = Ok (v, r ++ t))
  /\ (forall d s acc v r t m,
      elements n d s acc = Ok (v, r) -> n <= m ->
      elements m d (s ++ t) acc = Ok (v, r ++ t)).
Proof.
  induction n as [|n (IHs & IHm & IHe)]; [split_and!; intros; discriminate|].
  split_and!.
  - intros d [|c s0] v r t [|m] Hs Hsafe Hle; try lia; [discriminate|].
    revert Hs. cbn [scan_once app].
    destruct (N.eqb_spec c DQUOTE) as [Hq|Hq].
    { destruct (scanstring s0) as [[x r0]|] eqn:E; [|discriminate].
      intros [= <- <-]. now rewrite (scanstring_app _ t _ _ E). }
    destruct (N.eqb_spec c LBRACE) as [Hb|Hb].
    { destruct (Nat.leb _ _); [discriminate|].
      destruct (skip_ws s0) as [|c1 t1] eqn:Ew; [discriminate|].
      rewrite (skip_ws_app _ t _ _ Ew).
      destruct (c1 =? RBRACE)%N.
      - now intros [= <- <-].
      - intros Hm. apply (IHm _ _ _ _ _ t m) in Hm; [exact Hm|lia]. }
    destruct (N.eqb_spec c 91) as [Hk|Hk].
    { destruct (Nat.leb _ _); [discriminate|].
      destruct (skip_ws s0) as [|c1 t1] eqn:Ew; [discriminate|].
      rewrite (skip_ws_app _ t _ _ Ew).
      destruct (c1 =? 93)%N.
      - now intros [= <- <-].
      - intros Hm. apply (IHe _ _ _ _ _ t m) in Hm; [exact Hm|lia]. }
    intros Hs. destruct Hsafe as [[?|[?|?]]|Hd]; try contradiction.
    change (c :: s0 ++ t) with ((c :: s0) ++ t). now apply scalar_app.
  - intros d [|c s0] acc v r t [|m] Hs Hle; try lia; [discriminate|].
    revert Hs. cbn [members app].
    destruct (c =? DQUOTE)%N; [|discriminate].
    destruct (scanstring s0) as [[key r0]|] eqn:E; [|discriminate].
    rewrite (scanstring_app _ t _ _ E).
    destruct (skip_ws r0) as [|c2 t2] eqn:E2; [discriminate|].
    rewrite (skip_ws_app _ t _ _ E2).
    destruct (c2 =? 58)%N; [|discriminate].
    destruct (scan_once n d (skip_ws t2)) as [[v1 r3]|e] eqn:E3; [|discriminate].
    cbv zeta.
    destruct (skip_ws r3) as [|c3 t3] eqn:E4; [discriminate|].
    assert (Hne : skip_ws t2 <> []).
    { intros Hnil. rewrite Hnil in E3. now apply scan_once_nil in E3. }
    rewrite (skip_ws_app_ne _ t Hne).
    destruct (N.eqb_spec c3 RBRACE) as [Hc3|Hc3].
    + intros [= <- <-].
      rewrite (IHs _ _ _ _ t m E3); [|right; eapply delimited_after; eauto|lia].
      rewrite (skip_ws_app _ t _ _ E4).
      destruct (N.eqb_spec c3 RBRACE); [reflexivity|contradiction].
    + destruct (N.eqb_spec c3 44) as [Hc4|Hc4]; [|discriminate].
      intros Hm.
      rewrite (IHs _ _ _ _ t m E3); [|right; eapply delimited_after; eauto|lia].
      rewrite (skip_ws_app _ t _ _ E4).
      destruct (N.eqb_spec c3 RBRACE); [contradiction|].
      destruct (N.eqb_spec c3 44); [|contradiction].
      assert (Hne3 : skip_ws t3 <> []).
      { intros Hnil. rewrite Hnil in Hm. now apply members_nil in Hm. }
      rewrite (skip_ws_app_ne _ t Hne3).
      apply (IHm _ _ _ _ _ t m) in Hm; [exact Hm|lia].
  - intros d s acc v r t [|m] Hs Hle; try lia.
    revert Hs. cbn [elements].
    destruct (scan_once n d s) as [[v1 r1]|e] eqn:E1; [|discriminate].
    destruct (skip_ws r1) as [|c t0] eqn:E2; [discriminate|].
    destruct (N.eqb_spec c 93) as [Hc|Hc].
    + intros [= <- <-].
      rewrite (IHs _ _ _ _ t m E1); [|right; eapply delimited_after; eauto|lia].
      rewrite (skip_ws_app _ t _ _ E2).
      destruct (N.eqb_spec c 93); [reflexivity|contradiction].
    + destruct (N.eqb_spec c 44) as [Hc4|Hc4]; [|discriminate].
      intros Hm.
      rewrite (IHs _ _ _ _ t m E1); [|right; eapply delimited_after; eauto|lia].
      rewrite (skip_ws_app _ t _ _ E2).
      destruct (N.eqb_spec c 93); [contradiction|].
      destruct (N.eqb_spec c 44); [|contradiction].
      assert (Hne : skip_ws t0 <> []).
      { intros Hnil. rewrite Hnil in Hm. now apply elements_nil in Hm. }
      rewrite (skip_ws_app_ne _ t Hne).
      apply (IHe _ _ _ _ _ t m) in Hm; [exact Hm|lia].
Qed.

(** ** Documents *)

Lemma skip_ws_nil_app r t : skip_ws r = [] -> skip_ws (r ++ t) = skip_ws t.
Proof.
  induction r as [|x r IH]; cbn; [reflexivity|].
  destruct (is_ws x); [exact IH|discriminate].
Qed.

Lemma skip_ws_not_nil t c : c ∈ t -> is_ws c = false -> skip_ws t <> [].
Proof.
  induction t as [|x t IH]; intros Hin Hc; [now apply elem_of_nil in Hin|].
  cbn. destruct (is_ws x) eqn:E; [|discriminate].
  apply elem_of_cons in Hin as [->|Hin]; [congruence|auto].
Qed.

(** [loads] always has calls to spare. *)
Lemma loads_budget s d : scan_once (budget s) d (skip_ws s) <> Err Exhausted.
Proof.
  apply (proj1 (scan_budget _)). unfold budget.
  pose proof (skip_ws_length s). lia.
Qed.

Lemma loads_object s0 :
  loads (LBRACE :: s0)
  = match scan_once (budget (LBRACE :: s0)) 0 (LBRACE :: s0) with
    | Ok (v, r) =>
        match skip_ws r with
        | [] => Ok v
        | _ :: _ => Err (JSONDecodeError (failure_text (Decode_failed (LBRACE :: s0))))
        end
    | Err (Raised e) => Err e
    | Err _ => Err (JSONDecodeError (failure_text (Decode_failed (LBRACE :: s0))))
    end.
Proof. reflexivity. Qed.

Lemma loads_object_inv s0 v :
  loads (LBRACE :: s0) = Ok v ->
  exists r, scan_once (budget (LBRACE :: s0)) 0 (LBRACE :: s0) = Ok (v, r)
            /\ skip_ws r = [].
Proof.
  rewrite loads_object.
  destruct (scan_once _ 0 (LBRACE :: s0)) as [[v1 r]|e] eqn:E.
  - destruct (skip_ws r) eqn:Er; [|discriminate]. intros [= <-]. eauto.
  - destruct e; discriminate.
Qed.

(** A document that starts with an object and goes on with anything but
    white space is refused: the decoder reads the object and finds extra
    data. *)
Lemma loads_extra_data s0 trail v c :
  loads (LBRACE :: s0) = Ok v -> c ∈ trail -> is_ws c = false ->
  loads (LBRACE :: s0 ++ trail)
  = Err (JSONDecodeError (failure_text (Decode_failed (LBRACE :: s0 ++ trail)))).
Proof.
  intros Hl Hin Hc. destruct (loads_object_inv _ _ Hl) as (r & Hs & Hr).
  rewrite loads_object. change (LBRACE :: s0 ++ trail) with ((LBRACE :: s0) ++ trail).
  assert (Happ : scan_once (budget ((LBRACE :: s0) ++ trail)) 0 ((LBRACE :: s0) ++ trail)
                 = Ok (v, r ++ trail)).
  { apply (proj1 (scan_app _) _ _ _ _ trail _ Hs).
    - left. cbn. auto.
    - unfold budget. rewrite length_app. lia. }
  rewrite Happ, (skip_ws_nil_app _ _ Hr).
  destruct (skip_ws trail) eqn:Et; [|reflexivity].
  now apply (skip_ws_not_nil _ _ Hin Hc) in Et.
Qed.

End WithPlatform.

End JsonFacts.

(* ===================================================================== *)
(** * The rating service *)
(* ===================================================================== *)

Ltac unfold_result := unfold mbind, mret, result_bind, result_ret in *.

Ltac key_ne := let E := fresh in intros E; vm_compute in E; discriminate E.

Section Rating.
Context `{Platform}.
Local Open Scope nat_scope.

(** ** The Extractor *)

Lemma extractor_no_brace reply :
  LBRACE ∉ reply ->
  response_extractor reply
  = Err (ValueError (u "Could not extract JSON from model response")).
Proof.
  intros Hn. unfold response_extractor, json_str_of.
  now rewrite (ReFacts.search_none _ Hn).
Qed.

Lemma extractor_span pre mid post :
  LBRACE ∉ pre -> RBRACE ∉ post ->
  response_extractor (pre ++ LBRACE :: mid ++ RBRACE :: post)
  = (rating_data ← Json.loads (LBRACE :: mid ++ [RBRACE]);
     detailed_rating rating_data).
Proof.
  intros Hpre Hpost. unfold response_extractor, json_str_of.
  now rewrite (ReFacts.search_span _ _ _ Hpre Hpost).
Qed.

(** ** [evaluate_with_llm] *)

Lemma evaluate_ok w sub st r st' :
  body w sub st = (Ok r, st') -> evaluate_with_llm w sub st = (Some r, st').
Proof. unfold body, evaluate_with_llm. now intros ->. Qed.

Lemma evaluate_err w sub st e st' :
  body w sub st = (Err e, st') ->
  evaluate_with_llm w sub st
  = (None,
     {| debug_info := <[u "error_message" := exn_str e]> (debug_info st');
        calls := calls st';
        logged := logged st'
                  ++ [u "Error using LLM (" ++ str_lower (model sub) ++ u "): "
                      ++ exn_type_name e ++ u ": " ++ exn_str e] |}).
Proof. unfold body, evaluate_with_llm. now intros ->. Qed.

Lemma body_gateway_err w sub st e st' :
  dispatch w sub st = (Err e, st') -> body w sub st = (Err e, st').
Proof.
  unfold dispatch, body, try_body. unfold mbind at 1. unfold M_bind.
  now intros ->.
Qed.

Lemma body_gateway_none w sub st st' :
  dispatch w sub st = (Ok None, st') ->
  body w sub st = (Err (TypeError (failure_text Len_of_None)), st').
Proof.
  unfold dispatch, body, try_body. unfold mbind at 1. unfold M_bind.
  now intros ->.
Qed.

Lemma body_gateway_reply w sub st reply st' :
  dispatch w sub st = (Ok (Some reply), st') ->
  body w sub st = (response_extractor reply, with_preview reply st').
Proof.
  unfold dispatch, body, try_body. unfold mbind at 1. unfold M_bind.
  intros ->. reflexivity.
Qed.

(** The three outcomes of the gateway. *)
Lemma dispatch_cases w sub st :
  (exists e st', dispatch w sub st = (Err e, st'))
  \/ (exists st', dispatch w sub st = (Ok None, st'))
  \/ (exists reply st', dispatch w sub st = (Ok (Some reply), st')).
Proof.
  destruct (dispatch w sub st) as [[[reply|]|e] st']; eauto 6.
Qed.

(** The gateway does not touch [debug_info]. *)
Lemma dispatch_debug_info w sub st r st' :
  dispatch w sub st = (r, st') -> debug_info st' = ∅.
Proof.
  unfold dispatch, model_gateway.
  destruct (str_eqb _ (u "chatgpt")).
  - unfold mbind, M_bind, lift, raise, mret, M_ret, call_upstream.
    destruct (import_openai w); [|now intros [= _ <-]].
    destruct (OPENAI_API_KEY w) as [[|k0 k]|]; cbn; now intros [= _ <-].
  - destruct (str_eqb _ (u "llama3.2")).
    + unfold mbind, M_bind, load_global, raise, mret, M_ret, call_upstream.
      destruct (bool_decide _); cbn; now intros [= _ <-].
    + unfold raise. now intros [= _ <-].
Qed.

(** ** [rate_writing] *)

Lemma rate_ok w sub debug_mode st r st' :
  evaluate_with_llm w sub st = (Some r, st') ->
  rate_writing w sub debug_mode st
  = (Ok (if debug_mode
         then <[u "debug_info" := VDict (debug_info st')]> {[u "rating" := VRating r]}
         else {[u "rating" := VRating r]}), st').
Proof.
  intros He. unfold rate_writing, rate_body. rewrite He. now destruct debug_mode.
Qed.

Lemma rate_err w sub debug_mode st st' :
  evaluate_with_llm w sub st = (None, st') ->
  rate_writing w sub debug_mode st
  = (Err (HTTPException 500 generic_detail),
     {| debug_info := debug_info st'; calls := calls st';
        logged := logged st' ++ [u "Error in rate_writing endpoint: " ++ generic_detail] |}).
Proof. intros He. unfold rate_writing, rate_body. now rewrite He. Qed.

(** C1. For every submission, [rate_writing] either returns a response
    that holds under the key "rating" a complete [DetailedRating], the one
    the extractor built from the reply of the gateway, with no key besides
    "rating" and "debug_info" and no "error_message" in the trace, or
    raises an [HTTPException] with status 500, and then
    [evaluate_with_llm] returned no rating. Never both, never a partial
    rating: the four criteria and the overall score are fields of the
    record, each a float. *)
Theorem rate_writing_rating_or_failure w sub debug_mode st :
  (exists rating reply st1 resp st',
      rate_writing w sub debug_mode st = (Ok resp, st')
      /\ fst (evaluate_with_llm w sub st) = Some rating
      /\ dispatch w sub st = (Ok (Some reply), st1)
      /\ response_extractor reply = Ok rating
      /\ resp !! u "rating" = Some (VRating rating)
      /\ (forall k, is_Some (resp !! k) -> k = u "rating" \/ k = u "debug_info")
      /\ (forall d, resp !! u "debug_info" = Some (VDict d) ->
                    d !! u "error_message" = None))
  \/ (exists detail st',
      rate_writing w sub debug_mode st = (Err (HTTPException 500 detail), st')
      /\ fst (evaluate_with_llm w sub st) = None).
Proof.
  destruct (dispatch_cases w sub st) as [(e & st1 & Hd)|[(st1 & Hd)|(reply & st1 & Hd)]].
  - right. apply body_gateway_err, evaluate_err in Hd.
    rewrite (rate_err _ _ _ _ _ Hd), Hd. eauto.
  - right. apply body_gateway_none, evaluate_err in Hd.
    rewrite (rate_err _ _ _ _ _ Hd), Hd. eauto.
  - pose proof (dispatch_debug_info _ _ _ _ _ Hd) as Hdbg.
    pose proof Hd as Hg. apply body_gateway_reply in Hd.
    destruct (response_extractor reply) as [rating|e] eqn:Hx.
    + left. apply evaluate_ok in Hd.
      rewrite (rate_ok _ _ _ _ _ _ Hd), Hd.
      exists rating, reply, st1. eexists _, _. split; [reflexivity|].
      split; [reflexivity|]. split; [exact Hg|]. split; [exact Hx|].
      assert (Hne : u "debug_info" <> u "rating") by key_ne.
      split_and!.
      * destruct debug_mode.
        -- now rewrite lookup_insert_ne, lookup_singleton_eq.
        -- apply lookup_singleton_eq.
      * intros k [x Hk]. destruct (decide (k = u "rating")) as [|Hk1]; [now left|].
        destruct (decide (k = u "debug_info")) as [|Hk2]; [now right|].
        exfalso. destruct debug_mode.
        -- rewrite lookup_insert_ne, lookup_singleton_ne in Hk by congruence.
           discriminate.
        -- rewrite lookup_singleton_ne in Hk by congruence. discriminate.
      * intros d. destruct debug_mode.
        -- rewrite lookup_insert_eq. intros [= <-]. cbn. rewrite Hdbg.
           rewrite lookup_insert_ne by key_ne. apply lookup_empty.
        -- rewrite lookup_singleton_ne by congruence. discriminate.
    + right. apply evaluate_err in Hd.
      rewrite (rate_err _ _ _ _ _ Hd), Hd. eauto.
Qed.

(** The response of the route for a rating: the rating, and the trace when
    it was asked for. *)
Lemma post_rate_ok w sub debug_mode st r st' :
  evaluate_with_llm w sub st = (Some r, st') ->
  post_rate w sub debug_mode st
  = (Ok {| RatingResponse.rating := r;
           RatingResponse.debug_info :=
             if debug_mode then Some (debug_info st') else None |}, st').
Proof.
  intros He. unfold post_rate. rewrite (rate_ok _ _ _ _ _ _ He).
  unfold response_model. destruct debug_mode.
  - rewrite lookup_insert_ne by key_ne. rewrite lookup_singleton_eq.
    now rewrite lookup_insert_eq.
  - rewrite lookup_singleton_eq. rewrite lookup_singleton_ne by key_ne. reflexivity.
Qed.

Lemma post_rate_err w sub debug_mode st st' :
  evaluate_with_llm w sub st = (None, st') ->
  post_rate w sub debug_mode st
  = (Err (HTTPException 500 generic_detail),
     {| debug_info := debug_info st'; calls := calls st';
        logged := logged st' ++ [u "Error in rate_writing endpoint: " ++ generic_detail] |}).
Proof. intros He. unfold post_rate. now rewrite (rate_err _ _ _ _ _ He). Qed.

(** C7, as amended. The response sent for a rating always has the member
    "debug_info", which the response model declares. Without [debug_mode]
    its value is null: the response holds no trace. With [debug_mode] it
    is the trace, whose "response_preview" is the reply itself when it has
    at most 200 characters, and otherwise its first 200 characters
    followed by "...". *)
Theorem diagnostic_trace w sub debug_mode st resp st' :
  post_rate w sub debug_mode st = (Ok resp, st') ->
  if debug_mode
  then exists reply st1 d,
      dispatch w sub st = (Ok (Some reply), st1)
      /\ body_members resp
         = [(u "rating", Rating_of (RatingResponse.rating resp));
            (u "debug_info", Trace_of d)]
      /\ d !! u "response_preview"
         = Some (if decide (length reply <= 200) then reply
                 else take 200 reply ++ u "...")
  else body_members resp
       = [(u "rating", Rating_of (RatingResponse.rating resp));
          (u "debug_info", Null)].
Proof.
  destruct (evaluate_with_llm w sub st) as [[r|] st2] eqn:He.
  2:{ rewrite (post_rate_err _ _ _ _ _ He). discriminate. }
  rewrite (post_rate_ok _ _ _ _ _ _ He). intros [= <- <-].
  destruct debug_mode; [|reflexivity].
  destruct (dispatch_cases w sub st) as [(e & st1 & Hd)|[(st1 & Hd)|(reply & st1 & Hd)]].
  - apply body_gateway_err, evaluate_err in Hd. rewrite Hd in He. discriminate.
  - apply body_gateway_none, evaluate_err in Hd. rewrite Hd in He. discriminate.
  - pose proof Hd as Hb. apply body_gateway_reply in Hb.
    destruct (response_extractor reply) as [rating|e] eqn:Hx.
    + apply evaluate_ok in Hb. rewrite Hb in He. injection He as <- <-.
      exists reply, st1. eexists. split; [exact Hd|]. split; [reflexivity|].
      unfold with_preview. cbn [debug_info]. rewrite lookup_insert_eq.
      f_equal. unfold slice_to.
      destruct (Nat.ltb_spec 200 (length reply)), (decide (length reply <= 200));
        try lia; reflexivity.
    + apply evaluate_err in Hb. rewrite Hb in He. discriminate.
Qed.


Lemma str_eqb_false a b : a <> b -> str_eqb a b = false.
Proof. intros Hne. unfold str_eqb. now apply bool_decide_eq_false. Qed.

Lemma str_eqb_refl a : str_eqb a a = true.
Proof. unfold str_eqb. now apply bool_decide_eq_true. Qed.

Lemma rate_fails w sub debug_mode st :
  fst (evaluate_with_llm w sub st) = None ->
  fst (rate_writing w sub debug_mode st) = Err (HTTPException 500 generic_detail)
  /\ calls (snd (rate_writing w sub debug_mode st))
     = calls (snd (evaluate_with_llm w sub st)).
Proof.
  destruct (evaluate_with_llm w sub st) as [[r|] st'] eqn:He; [discriminate|].
  intros _. now rewrite (rate_err _ _ _ _ _ He).
Qed.

(** C4. When the lowered model name is neither "chatgpt" nor "llama3.2",
    the gateway raises the invalid-model-selection [ValueError] without
    changing the state, [evaluate_with_llm] returns no rating,
    [rate_writing] raises a 500, and no call is sent upstream by either. *)
Theorem invalid_model_selection w sub st :
  str_lower (model sub) <> u "chatgpt" ->
  str_lower (model sub) <> u "llama3.2" ->
  dispatch w sub st
  = (Err (ValueError (u "Invalid model selection. Choose 'chatGPT' or 'llama3.2'.")),
     fresh st)
  /\ fst (evaluate_with_llm w sub st) = None
  /\ calls (snd (evaluate_with_llm w sub st)) = calls st
  /\ forall debug_mode,
       calls (snd (rate_writing w sub debug_mode st)) = calls st
       /\ exists detail,
           fst (rate_writing w sub debug_mode st) = Err (HTTPException 500 detail).
Proof.
  intros H1 H2.
  assert (Hd : dispatch w sub st
               = (Err (ValueError (u "Invalid model selection. Choose 'chatGPT' or 'llama3.2'.")),
                  fresh st)).
  { unfold dispatch, model_gateway.
    now rewrite (str_eqb_false _ _ H1), (str_eqb_false _ _ H2). }
  split; [exact Hd|].
  apply body_gateway_err, evaluate_err in Hd.
  assert (He : fst (evaluate_with_llm w sub st) = None) by now rewrite Hd.
  split; [exact He|]. split; [now rewrite Hd|].
  intros debug_mode. destruct (rate_fails w sub debug_mode st He) as [Hr Hc].
  rewrite Hc, Hr, Hd. eauto.
Qed.

(** C9. When the lowered model name is "llama3.2", the gateway raises
    [NameError] for the name [ollama] before any call: the local backend is
    never reached and the evaluation fails with that error recorded. *)
Theorem llama_backend_unreachable w sub st :
  str_lower (model sub) = u "llama3.2" ->
  dispatch w sub st = (Err (NameError (u "ollama")), fresh st)
  /\ fst (evaluate_with_llm w sub st) = None
  /\ calls (snd (evaluate_with_llm w sub st)) = calls st
  /\ debug_info (snd (evaluate_with_llm w sub st)) !! u "error_message"
     = Some (u "name 'ollama' is not defined").
Proof.
  intros Hm.
  assert (Hd : dispatch w sub st = (Err (NameError (u "ollama")), fresh st)).
  { unfold dispatch, model_gateway. rewrite Hm.
    rewrite (str_eqb_false (u "llama3.2") (u "chatgpt")) by (vm_compute; discriminate).
    rewrite str_eqb_refl. reflexivity. }
  split; [exact Hd|].
  apply body_gateway_err, evaluate_err in Hd. rewrite Hd. cbn.
  split_and!; [reflexivity|reflexivity|]. rewrite lookup_insert_eq. reflexivity.
Qed.

(** C5. When the gateway answers with a reply that has no open brace, the
    extraction raises the no-JSON [ValueError], [evaluate_with_llm] returns
    no rating and records that message, and [rate_writing] raises a 500:
    no default rating is returned. *)
Theorem no_json_found w sub st reply st1 :
  dispatch w sub st = (Ok (Some reply), st1) ->
  LBRACE ∉ reply ->
  response_extractor reply
  = Err (ValueError (u "Could not extract JSON from model response"))
  /\ fst (evaluate_with_llm w sub st) = None
  /\ debug_info (snd (evaluate_with_llm w sub st)) !! u "error_message"
     = Some (u "Could not extract JSON from model response")
  /\ forall debug_mode, exists detail,
       fst (rate_writing w sub debug_mode st) = Err (HTTPException 500 detail).
Proof.
  intros Hd Hn. pose proof (extractor_no_brace _ Hn) as Hx.
  split; [exact Hx|].
  apply body_gateway_reply in Hd. rewrite Hx in Hd. apply evaluate_err in Hd.
  assert (He : fst (evaluate_with_llm w sub st) = None) by now rewrite Hd.
  split; [exact He|]. split.
  - rewrite Hd. cbn. now rewrite lookup_insert_eq.
  - intros debug_mode. destruct (rate_fails w sub debug_mode st He) as [Hr _].
    rewrite Hr. eauto.
Qed.

(** The gateway logs nothing. *)
Lemma dispatch_logged w sub st r st' :
  dispatch w sub st = (r, st') -> logged st' = logged st.
Proof.
  unfold dispatch, model_gateway.
  destruct (str_eqb _ (u "chatgpt")).
  - unfold mbind, M_bind, lift, raise, mret, M_ret, call_upstream.
    destruct (import_openai w); [|now intros [= _ <-]].
    destruct (OPENAI_API_KEY w) as [[|k0 k]|]; cbn; now intros [= _ <-].
  - destruct (str_eqb _ (u "llama3.2")).
    + unfold mbind, M_bind, load_global, raise, mret, M_ret, call_upstream.
      destruct (bool_decide _); cbn; now intros [= _ <-].
    + unfold raise. now intros [= _ <-].
Qed.

(** The exception of a failing [try] body has one of the three causes. *)
Lemma body_cause w sub st e st1 :
  body w sub st = (Err e, st1) -> failure_cause w sub st e.
Proof.
  intros Hb. unfold failure_cause.
  destruct (dispatch_cases w sub st) as [(e' & st' & Hd)|[(st' & Hd)|(reply & st' & Hd)]].
  - left. rewrite (body_gateway_err _ _ _ _ _ Hd) in Hb. injection Hb as <- _. eauto.
  - right. left. rewrite (body_gateway_none _ _ _ _ Hd) in Hb. injection Hb as <- _. eauto.
  - right. right. rewrite (body_gateway_reply _ _ _ _ _ Hd) in Hb.
    injection Hb as Hx _. eauto.
Qed.

Lemma cause_body w sub st e :
  failure_cause w sub st e ->
  exists st1, body w sub st = (Err e, st1) /\ logged st1 = logged st.
Proof.
  intros [(st1 & Hd)|[(st1 & Hd & ->)|(reply & st1 & Hd & Hx)]];
    pose proof (dispatch_logged _ _ _ _ _ Hd) as Hl.
  - exists st1. split; [now apply body_gateway_err|exact Hl].
  - exists st1. split; [now apply body_gateway_none|exact Hl].
  - exists (with_preview reply st1). split; [|exact Hl].
    rewrite (body_gateway_reply _ _ _ _ _ Hd). now rewrite Hx.
Qed.

(** C8, as amended. Whatever makes an evaluation fail, the exception of
    the gateway, the [TypeError] of line 144 on a reply without content or
    the exception of the extractor, the evaluation returns no rating, the
    description of that exception is stored under "error_message" in the
    [debug_info] of [evaluate_with_llm] and logged with the lowered model
    name and the type of the exception, and the failure [rate_writing]
    reports has status 500 and, as detail, the text of its own exception
    "LLM evaluation failed.", the same for every cause, which it logs as
    well. Every failing evaluation has one of these causes. *)
Theorem failure_report w sub debug_mode st :
  (forall e,
      failure_cause w sub st e ->
      fst (evaluate_with_llm w sub st) = None
      /\ debug_info (snd (evaluate_with_llm w sub st)) !! u "error_message"
         = Some (exn_str e)
      /\ logged (snd (evaluate_with_llm w sub st)) = logged st ++ [evaluation_log sub e]
      /\ fst (rate_writing w sub debug_mode st)
         = Err (HTTPException 500 (HTTPException_str 500 (u "LLM evaluation failed.")))
      /\ logged (snd (rate_writing w sub debug_mode st))
         = logged st ++ [evaluation_log sub e; endpoint_log])
  /\ (fst (evaluate_with_llm w sub st) = None ->
      exists e, failure_cause w sub st e).
Proof.
  split.
  - intros e Hc. destruct (cause_body _ _ _ _ Hc) as (st1 & Hb & Hl).
    pose proof (evaluate_err _ _ _ _ _ Hb) as He.
    rewrite (rate_err _ _ debug_mode _ _ He), He. cbn [fst snd debug_info logged].
    rewrite Hl, lookup_insert_eq, <- app_assoc. now split_and!.
  - destruct (body w sub st) as [[r|e] st1] eqn:Hb.
    + rewrite (evaluate_ok _ _ _ _ _ Hb). discriminate.
    + intros _. exists e. exact (body_cause _ _ _ _ _ Hb).
Qed.

(** ** Missing fields *)

Lemma subscript_ok d key v :
  subscript (JObject d) key = Ok v -> has_key key d = true.
Proof.
  unfold subscript, has_key. now destruct (Dict.get key d).
Qed.

Lemma subscript_missing d key :
  Dict.get key d = None -> subscript (JObject d) key = Err (KeyError key).
Proof. unfold subscript. now intros ->. Qed.

(** A criterion is built only from an object with both sub-keys. *)
Lemma criterion_ok d name c :
  criterion (JObject d) name = Ok c ->
  exists fields,
    Dict.get name d = Some (JObject fields)
    /\ has_key (u "score") fields = true
    /\ has_key (u "feedback") fields = true.
Proof.
  unfold criterion. unfold_result. cbn [subscript].
  destruct (Dict.get name d) as [a|]; [|discriminate].
  destruct a as [| | | | | |fields]; try discriminate.
  destruct (subscript (JObject fields) (u "score")) as [s|] eqn:Es; [|discriminate].
  destruct (float_ s); [|discriminate].
  destruct (subscript (JObject fields) (u "feedback")) as [fb|] eqn:Ef; [|discriminate].
  intros _. exists fields.
  split; [reflexivity|]. split; eapply subscript_ok; eassumption.
Qed.

Lemma criterion_missing d name :
  Dict.get name d = None -> criterion (JObject d) name = Err (KeyError name).
Proof. intros Hm. unfold criterion. unfold_result. cbn [subscript]. now rewrite Hm. Qed.

(** Without one of the keys it reads, the mapping of lines 155-162
    builds no rating. *)
Lemma detailed_rating_omits d :
  omits_required d = true -> exists e, detailed_rating (JObject d) = Err e.
Proof.
  intros Ho. destruct (detailed_rating (JObject d)) as [r|e] eqn:E; [|eauto].
  exfalso. revert E. unfold detailed_rating. unfold_result.
  destruct (criterion (JObject d) (u "task_achievement")) as [ta|] eqn:E1; [|discriminate].
  destruct (criterion (JObject d) (u "coherence_cohesion")) as [cc|] eqn:E2; [|discriminate].
  destruct (criterion (JObject d) (u "lexical_resource")) as [lr|] eqn:E3; [|discriminate].
  destruct (criterion (JObject d) (u "grammatical_range")) as [gr|] eqn:E4; [|discriminate].
  destruct (subscript (JObject d) (u "overall_score")) as [o|] eqn:E5; [|discriminate].
  destruct (float_ o); [|discriminate].
  destruct (subscript (JObject d) (u "overall_feedback")) as [f|] eqn:E6; [|discriminate].
  intros _.
  apply criterion_ok in E1 as (f1 & G1 & S1 & F1).
  apply criterion_ok in E2 as (f2 & G2 & S2 & F2).
  apply criterion_ok in E3 as (f3 & G3 & S3 & F3).
  apply criterion_ok in E4 as (f4 & G4 & S4 & F4).
  apply subscript_ok in E5. apply subscript_ok in E6.
  unfold omits_required, criteria in Ho. cbn [map existsb] in Ho.
  rewrite G1, G2, G3, G4, S1, S2, S3, S4, F1, F2, F3, F4, E5, E6 in Ho.
  discriminate Ho.
Qed.

(** A criterion that is built is what its member says. *)
Lemma criterion_built d name c :
  criterion (JObject d) name = Ok c -> criterion_matches d name c.
Proof.
  unfold criterion, str_field, criterion_matches. unfold_result. cbn [subscript].
  destruct (Dict.get name d) as [a|] eqn:En; [|discriminate].
  destruct a as [| | | | | |fields]; try discriminate. cbn [subscript].
  destruct (Dict.get (u "score") fields) as [s|] eqn:Es; [|discriminate].
  destruct (float_ s) as [f|] eqn:Ef; [|discriminate].
  destruct (Dict.get (u "feedback") fields) as [fb|] eqn:Eb; [|discriminate].
  destruct (validate_str fb) as [t|] eqn:Ev; [|discriminate].
  intros [= <-]. exists fields, s, fb. cbn [score feedback]. now split_and!.
Qed.

(** A complete criterion is built. *)
Lemma criterion_complete d name :
  complete_criterion d name = true -> exists c, criterion (JObject d) name = Ok c.
Proof.
  unfold complete_criterion, criterion, str_field, converts, validates.
  unfold_result. cbn [subscript].
  destruct (Dict.get name d) as [a|]; [|discriminate].
  destruct a as [| | | | | |fields]; try discriminate. cbn [subscript].
  destruct (Dict.get (u "score") fields) as [s|]; [|discriminate].
  destruct (Dict.get (u "feedback") fields) as [fb|]; [|discriminate].
  intros [Hs Hf]%andb_true_iff.
  destruct (float_ s) as [f|]; [|discriminate].
  destruct (validate_str fb) as [t|]; [|discriminate]. eauto.
Qed.

Lemma criterion_score_missing d name c :
  Dict.get name d = Some (JObject c) -> Dict.get (u "score") c = None ->
  criterion (JObject d) name = Err (KeyError (u "score")).
Proof.
  intros Hn Hs. unfold criterion. unfold_result. cbn [subscript]. rewrite Hn.
  cbn [subscript]. now rewrite Hs.
Qed.

Lemma criterion_feedback_missing d name c s :
  Dict.get name d = Some (JObject c) -> Dict.get (u "score") c = Some s ->
  converts s = true -> Dict.get (u "feedback") c = None ->
  criterion (JObject d) name = Err (KeyError (u "feedback")).
Proof.
  intros Hn Hs Hc Hf. unfold criterion, converts in *. unfold_result.
  cbn [subscript]. rewrite Hn. cbn [subscript]. rewrite Hs.
  destruct (float_ s); [|discriminate]. now rewrite Hf.
Qed.

(** The criteria are read in the order of [criteria]: the first one that
    fails, after complete ones, decides. *)
Lemma detailed_rating_prefix d done name rest e :
  criteria = done ++ name :: rest ->
  forallb (complete_criterion d) done = true ->
  criterion (JObject d) name = Err e ->
  detailed_rating (JObject d) = Err e.
Proof.
  intros Hc Hd He. unfold criteria in Hc. cbn [map] in Hc.
  unfold detailed_rating. unfold_result.
  destruct done as [|n1 done]; cbn [app] in Hc.
  { injection Hc as <- _. now rewrite He. }
  injection Hc as <- Hc. cbn [forallb] in Hd. apply andb_true_iff in Hd as [H1 Hd].
  destruct (criterion_complete _ _ H1) as [c1 ->].
  destruct done as [|n2 done]; cbn [app] in Hc.
  { injection Hc as <- _. now rewrite He. }
  injection Hc as <- Hc. cbn [forallb] in Hd. apply andb_true_iff in Hd as [H2 Hd].
  destruct (criterion_complete _ _ H2) as [c2 ->].
  destruct done as [|n3 done]; cbn [app] in Hc.
  { injection Hc as <- _. now rewrite He. }
  injection Hc as <- Hc. cbn [forallb] in Hd. apply andb_true_iff in Hd as [H3 Hd].
  destruct (criterion_complete _ _ H3) as [c3 ->].
  destruct done as [|n4 done]; cbn [app] in Hc.
  { injection Hc as <- _. now rewrite He. }
  injection Hc as _ Hc. destruct done; discriminate Hc.
Qed.

(** After four complete criteria the overall fields are read. *)
Lemma detailed_rating_overall d :
  forallb (complete_criterion d) criteria = true ->
  exists ta cc lr gr,
    detailed_rating (JObject d)
    = (o ← subscript (JObject d) (u "overall_score");
       os ← float_ o;
       of_ ← subscript (JObject d) (u "overall_feedback");
       of' ← str_field (u "DetailedRating") (u "overall_feedback") of_;
       mret {| task_achievement := ta; coherence_cohesion := cc;
               lexical_resource := lr; grammatical_range := gr;
               overall_score := os; overall_feedback := of' |}).
Proof.
  unfold criteria. cbn [map forallb].
  intros [H1 [H2 [H3 [H4 _]%andb_true_iff]%andb_true_iff]%andb_true_iff]%andb_true_iff.
  destruct (criterion_complete _ _ H1) as [c1 E1].
  destruct (criterion_complete _ _ H2) as [c2 E2].
  destruct (criterion_complete _ _ H3) as [c3 E3].
  destruct (criterion_complete _ _ H4) as [c4 E4].
  exists c1, c2, c3, c4. unfold detailed_rating. unfold_result.
  now rewrite E1, E2, E3, E4.
Qed.

(** A rating that is built is what the object says, field by field:
    nothing is filled in. *)
Lemma detailed_rating_built d r :
  detailed_rating (JObject d) = Ok r -> rating_matches d r.
Proof.
  unfold detailed_rating, str_field. unfold_result.
  destruct (criterion (JObject d) (u "task_achievement")) as [ta|] eqn:E1; [|discriminate].
  destruct (criterion (JObject d) (u "coherence_cohesion")) as [cc|] eqn:E2; [|discriminate].
  destruct (criterion (JObject d) (u "lexical_resource")) as [lr|] eqn:E3; [|discriminate].
  destruct (criterion (JObject d) (u "grammatical_range")) as [gr|] eqn:E4; [|discriminate].
  cbn [subscript].
  destruct (Dict.get (u "overall_score") d) as [o|] eqn:E5; [|discriminate].
  destruct (float_ o) as [os|] eqn:E6; [|discriminate].
  destruct (Dict.get (u "overall_feedback") d) as [f|] eqn:E7; [|discriminate].
  destruct (validate_str f) as [t|] eqn:E8; [|discriminate].
  intros [= <-]. unfold rating_matches.
  cbn [task_achievement coherence_cohesion lexical_resource grammatical_range
       overall_score overall_feedback].
  split_and!; try (now apply criterion_built); eauto.
Qed.

(** An object with the required rubric fields gives a rating. *)
Lemma detailed_rating_complete d :
  rubric_fields d = true -> exists r, detailed_rating (JObject d) = Ok r.
Proof.
  unfold rubric_fields. intros [[Hc Hos]%andb_true_iff Hof]%andb_true_iff.
  destruct (detailed_rating_overall d Hc) as (ta & cc & lr & gr & ->).
  unfold str_field, converts, validates in *. unfold_result. cbn [subscript].
  destruct (Dict.get (u "overall_score") d) as [o|]; [|discriminate].
  destruct (float_ o) as [os|]; [|discriminate].
  destruct (Dict.get (u "overall_feedback") d) as [f|]; [|discriminate].
  destruct (validate_str f) as [t|]; [|discriminate]. eauto.
Qed.

(** C6, as amended. When the text taken from a reply decodes to an object,
    an object that leaves out a required key or sub-key gives no rating,
    and a rating that is built is what the object says, field by field:
    nothing is filled in. The keys are read in the order of lines 155-162,
    and the first one found missing is reported as a [KeyError] naming it
    whenever all that is read before it is well formed: a criterion after
    complete criteria, the score of a criterion that is an object, its
    feedback after a score that converts, the overall score after four
    complete criteria, the overall feedback after an overall score that
    converts. What is read after the missing key plays no part. *)
Theorem missing_field reply json_str d :
  json_str_of reply = Ok json_str ->
  Json.loads json_str = Ok (JObject d) ->
  (omits_required d = true -> exists e, response_extractor reply = Err e)
  /\ (forall rating, response_extractor reply = Ok rating -> rating_matches d rating)
  /\ (forall done name rest,
        criteria = done ++ name :: rest ->
        forallb (complete_criterion d) done = true ->
        (Dict.get name d = None ->
         response_extractor reply = Err (KeyError name))
        /\ (forall c,
              Dict.get name d = Some (JObject c) ->
              (Dict.get (u "score") c = None ->
               response_extractor reply = Err (KeyError (u "score")))
              /\ (forall s,
                    Dict.get (u "score") c = Some s -> converts s = true ->
                    Dict.get (u "feedback") c = None ->
                    response_extractor reply = Err (KeyError (u "feedback")))))
  /\ (forallb (complete_criterion d) criteria = true ->
      (Dict.get (u "overall_score") d = None ->
       response_extractor reply = Err (KeyError (u "overall_score")))
      /\ (forall s,
            Dict.get (u "overall_score") d = Some s -> converts s = true ->
            Dict.get (u "overall_feedback") d = None ->
            response_extractor reply = Err (KeyError (u "overall_feedback")))).
Proof.
  intros Hj Hl.
  assert (Hx : response_extractor reply = detailed_rating (JObject d)).
  { unfold response_extractor. rewrite Hj. unfold_result. now rewrite Hl. }
  rewrite Hx. split_and!.
  - apply detailed_rating_omits.
  - apply detailed_rating_built.
  - intros done name rest Hc Hd. split.
    + intros Hn. apply (detailed_rating_prefix _ _ _ _ _ Hc Hd).
      now apply criterion_missing.
    + intros c Hn. split.
      * intros Hs. apply (detailed_rating_prefix _ _ _ _ _ Hc Hd).
        now apply (criterion_score_missing _ _ c).
      * intros s Hs Hcv Hf. apply (detailed_rating_prefix _ _ _ _ _ Hc Hd).
        now apply (criterion_feedback_missing _ _ c s).
  - intros Hc. destruct (detailed_rating_overall d Hc) as (ta & cc & lr & gr & ->).
    unfold converts. unfold_result. cbn [subscript]. split.
    + now intros ->.
    + intros s -> Hcv ->. now destruct (float_ s).
Qed.

Lemma json_str_of_span pre mid post :
  LBRACE ∉ pre -> RBRACE ∉ post ->
  json_str_of (pre ++ LBRACE :: mid ++ RBRACE :: post) = Ok (LBRACE :: mid ++ [RBRACE]).
Proof.
  intros Hpre Hpost. unfold json_str_of.
  now rewrite (ReFacts.search_span _ _ _ Hpre Hpost).
Qed.

(** C2, as amended. For a reply made of text without an open brace, then a
    JSON object that decodes and has the required rubric fields, then text
    without a close brace, the text handed to the decoder is exactly that
    object, and the extraction returns a rating that is what the object
    says, field by field. *)
Theorem embedded_object_recovered pre body post d :
  LBRACE ∉ pre -> RBRACE ∉ post ->
  Json.loads (LBRACE :: body ++ [RBRACE]) = Ok (JObject d) ->
  rubric_fields d = true ->
  json_str_of (pre ++ (LBRACE :: body ++ [RBRACE]) ++ post)
  = Ok (LBRACE :: body ++ [RBRACE])
  /\ exists rating,
      response_extractor (pre ++ (LBRACE :: body ++ [RBRACE]) ++ post) = Ok rating
      /\ rating_matches d rating.
Proof.
  intros Hpre Hpost Hl Hr.
  replace (pre ++ (LBRACE :: body ++ [RBRACE]) ++ post)
    with (pre ++ LBRACE :: body ++ RBRACE :: post)
    by (cbn; now rewrite <- app_assoc).
  pose proof (json_str_of_span _ body _ Hpre Hpost) as Hj.
  split; [exact Hj|].
  destruct (detailed_rating_complete d Hr) as [rating Hd].
  exists rating. split; [|now apply detailed_rating_built].
  unfold response_extractor. rewrite Hj. unfold_result. now rewrite Hl.
Qed.

(** C10. In a reply with an open brace and a close brace somewhere after
    it, the text given to the JSON decoder runs from the first open brace
    of the reply to its last close brace. Hence, when a reply holds a
    valid JSON object starting at its first open brace and a close brace
    anywhere later, the decoder is given the object together with what
    follows it up to that brace, and refuses it. *)
Theorem greedy_span :
  (forall a b c : str,
      exists pre mid post,
        a ++ LBRACE :: b ++ RBRACE :: c = pre ++ LBRACE :: mid ++ RBRACE :: post
        /\ (LBRACE ∉ pre) /\ (RBRACE ∉ post)
        /\ json_str_of (a ++ LBRACE :: b ++ RBRACE :: c)
           = Ok (LBRACE :: mid ++ [RBRACE]))
  /\ (forall (pre body trail post : str) (v : json),
         LBRACE ∉ pre -> RBRACE ∉ post ->
         Json.loads (LBRACE :: body) = Ok v ->
         json_str_of (pre ++ (LBRACE :: body) ++ trail ++ RBRACE :: post)
         = Ok ((LBRACE :: body) ++ trail ++ [RBRACE])
         /\ response_extractor (pre ++ (LBRACE :: body) ++ trail ++ RBRACE :: post)
            = Err (JSONDecodeError
                     (failure_text
                        (Decode_failed ((LBRACE :: body) ++ trail ++ [RBRACE]))))).
Proof.
  split.
  - intros a b c. destruct (ReFacts.first_last_braces a b c)
      as (pre & mid & post & Heq & Hpre & Hpost).
    exists pre, mid, post. split_and!; try assumption.
    rewrite Heq. unfold json_str_of.
    now rewrite (ReFacts.search_span _ _ _ Hpre Hpost).
  - intros pre body trail post v Hpre Hpost Hl.
    assert (Hj : json_str_of (pre ++ (LBRACE :: body) ++ trail ++ RBRACE :: post)
                 = Ok ((LBRACE :: body) ++ trail ++ [RBRACE])).
    { replace (pre ++ (LBRACE :: body) ++ trail ++ RBRACE :: post)
        with (pre ++ LBRACE :: (body ++ trail) ++ RBRACE :: post)
        by (cbn; now rewrite <- app_assoc).
      unfold json_str_of. rewrite (ReFacts.search_span _ _ _ Hpre Hpost).
      cbn. now rewrite <- app_assoc. }
    split; [exact Hj|].
    unfold response_extractor. rewrite Hj. unfold_result.
    change ((LBRACE :: body) ++ trail ++ [RBRACE])
      with (LBRACE :: body ++ (trail ++ [RBRACE])).
    rewrite (JsonFacts.loads_extra_data body (trail ++ [RBRACE]) v RBRACE Hl);
      [reflexivity| |reflexivity].
    apply elem_of_app. right. left.
Qed.

(** ** The rating of a well-formed object *)

(** A criterion object with a score that converts and a feedback string
    gives exactly that score and that feedback. *)
Lemma criterion_fields d name fields s f fb :
  Dict.get name d = Some (JObject fields) ->
  Dict.get (u "score") fields = Some s ->
  float_ s = Ok f ->
  Dict.get (u "feedback") fields = Some (JString fb) ->
  criterion (JObject d) name = Ok {| score := f; feedback := fb |}.
Proof.
  intros Hn Hs Hf Hfb. unfold criterion, str_field. unfold_result.
  cbn [subscript]. rewrite Hn. cbn [subscript]. rewrite Hs, Hf, Hfb.
  now rewrite validate_str_JString.
Qed.

End Rating.

(* ===================================================================== *)
(** * The words counted *)
(* ===================================================================== *)

Module WordFacts.
Local Open Scope nat_scope.

Lemma split_from_app cur a w b :
  isspace w = true ->
  split_from cur (a ++ w :: b) = split_from cur a ++ split b.
Proof.
  intros Hw. revert cur. induction a as [|c a IH]; intros cur; cbn.
  - rewrite Hw. now destruct cur.
  - destruct (isspace c).
    + destruct cur; cbn; now rewrite IH.
    + apply IH.
Qed.

Lemma split_from_nil cur s :
  split_from cur s = [] <-> cur = [] /\ forallb isspace s = true.
Proof.
  revert cur. induction s as [|c s IH]; intros cur; cbn.
  - destruct cur; split; try tauto; try discriminate. intros [[=] _].
  - destruct (isspace c) eqn:E; cbn.
    + destruct cur.
      * rewrite IH. tauto.
      * split; [discriminate|]. intros [[=] _].
    + rewrite IH. split; [intros [[=] _]|intros [_ [=]]].
Qed.

Lemma split_from_bound cur s :
  2 * length (split_from cur s)
  <= length s + match cur with [] => 1 | _ => 2 end.
Proof.
  revert cur. induction s as [|c s IH]; intros cur; cbn [split_from length].
  - destruct cur; cbn; lia.
  - destruct (isspace c).
    + destruct cur; cbn [length]; specialize (IH []); cbn in IH; lia.
    + specialize (IH (c :: cur)). cbn in IH. destruct cur; lia.
Qed.

Lemma split_from_words cur s :
  forallb (fun c => negb (isspace c)) cur = true ->
  Forall (fun w => w <> [] /\ forallb (fun c => negb (isspace c)) w = true)
    (split_from cur s)
  /\ concat (split_from cur s)
     = rev cur ++ List.filter (fun c => negb (isspace c)) s.
Proof.
  revert cur. induction s as [|c s IH]; intros cur Hcur; cbn [split_from List.filter].
  - destruct cur as [|x cur].
    + split; [constructor|reflexivity].
    + split.
      * constructor; [|constructor]. split.
        -- intros Hr. apply (f_equal (@length _)) in Hr.
           rewrite length_rev in Hr. discriminate.
        -- rewrite forallb_forall in *. intros y Hy. apply Hcur.
           now apply in_rev.
      * cbn [concat]. now rewrite !app_nil_r.
  - destruct (isspace c) eqn:E; cbn [negb].
    + destruct (IH [] eq_refl) as [Hw Hc]. destruct cur as [|x cur].
      * split; [exact Hw|exact Hc].
      * split.
        -- constructor; [|exact Hw]. split.
           ++ intros Hr. apply (f_equal (@length _)) in Hr.
              rewrite length_rev in Hr. discriminate.
           ++ rewrite forallb_forall in *. intros y Hy. apply Hcur.
              now apply in_rev.
        -- cbn [concat]. now rewrite Hc.
    + destruct (IH (c :: cur)) as [Hw Hc].
      { cbn. now rewrite E. }
      split; [exact Hw|]. rewrite Hc. cbn [rev]. now rewrite <- app_assoc.
Qed.

(** X1. The word count of a text is zero exactly when the text is empty or
    made of white space only. *)
Theorem count_words_zero text :
  count_words text = 0 <-> forallb isspace text = true.
Proof.
  unfold count_words, split. rewrite length_zero_iff_nil, split_from_nil. tauto.
Qed.

(** X2. The word count is additive over a white-space character: the count
    of two texts joined by one is the sum of their counts. *)
Theorem count_words_join a w b :
  isspace w = true ->
  count_words (a ++ w :: b) = count_words a + count_words b.
Proof.
  intros Hw. unfold count_words, split.
  now rewrite (split_from_app _ _ _ _ Hw), length_app.
Qed.

(** X3. A text of n characters has at most (n + 1) / 2 words. *)
Theorem count_words_bound text : 2 * count_words text <= length text + 1.
Proof. exact (split_from_bound [] text). Qed.

(** X4. The words counted are not empty and hold no white space, and put
    end to end they are the text without its white space. *)
Theorem counted_words text :
  Forall (fun w => w <> [] /\ forallb (fun c => negb (isspace c)) w = true)
    (split text)
  /\ concat (split text) = List.filter (fun c => negb (isspace c)) text.
Proof. exact (split_from_words [] text eq_refl). Qed.

End WordFacts.

(* ===================================================================== *)
(** * The text handed to the decoder and the members read *)
(* ===================================================================== *)

Module SpanFacts.
Import Re.
Local Open Scope nat_scope.

Lemma greedy_close_none_inv t : greedy_close t = None -> RBRACE ∉ t.
Proof.
  induction t as [|c t IH]; cbn; [intros _; apply not_elem_of_nil|].
  destruct (greedy_close t); [discriminate|].
  destruct (N.eqb_spec c RBRACE) as [->|Hc]; [discriminate|].
  intros _. apply not_elem_of_cons. split; [congruence|now apply IH].
Qed.

Lemma greedy_close_some t m :
  greedy_close t = Some m ->
  exists mid post, t = mid ++ RBRACE :: post /\ m = mid ++ [RBRACE]
                   /\ (RBRACE ∉ post).
Proof.
  revert m. induction t as [|c t IH]; intros m; cbn; [discriminate|].
  destruct (greedy_close t) as [m'|] eqn:E.
  - intros [= <-]. destruct (IH _ eq_refl) as (mid & post & -> & -> & Hn).
    exists (c :: mid), post. split_and!; [reflexivity|reflexivity|exact Hn].
  - destruct (N.eqb_spec c RBRACE) as [->|_]; [|discriminate].
    intros [= <-]. exists [], t. split_and!; [reflexivity|reflexivity|].
    now apply greedy_close_none_inv.
Qed.

Lemma search_some s m :
  search s = Some m ->
  exists pre mid post,
    s = pre ++ LBRACE :: mid ++ RBRACE :: post
    /\ m = LBRACE :: mid ++ [RBRACE]
    /\ (LBRACE ∉ pre) /\ (RBRACE ∉ post).
Proof.
  induction s as [|c s IH]; cbn; [discriminate|].
  destruct (N.eqb_spec c LBRACE) as [->|Hc].
  - destruct (greedy_close s) as [m'|] eqn:E.
    + intros [= <-]. destruct (greedy_close_some _ _ E) as (mid & post & -> & -> & Hn).
      exists [], mid, post. split_and!; try reflexivity; [apply not_elem_of_nil|exact Hn].
    + intros Hs. apply greedy_close_none_inv in E.
      destruct (IH Hs) as (pre & mid & post & -> & _ & _ & _).
      exfalso. apply E. apply elem_of_app. right. right.
      apply elem_of_app. right. left.
  - intros Hs. destruct (IH Hs) as (pre & mid & post & -> & -> & Hpre & Hpost).
    exists (c :: pre), mid, post. split_and!; try reflexivity; [|exact Hpost].
    apply not_elem_of_cons. split; [congruence|exact Hpre].
Qed.

End SpanFacts.

Section Extractor.
Context `{Platform}.
Local Open Scope nat_scope.

(** The text handed to the decoder is a span of the reply that opens at
    its first open brace and closes at its last close brace. *)
Lemma json_str_span reply json_str :
  json_str_of reply = Ok json_str ->
  exists pre mid post,
    reply = pre ++ LBRACE :: mid ++ RBRACE :: post
    /\ json_str = LBRACE :: mid ++ [RBRACE]
    /\ (LBRACE ∉ pre) /\ (RBRACE ∉ post).
Proof.
  unfold json_str_of. destruct (Re.search reply) as [m|] eqn:E; [|discriminate].
  intros [= <-]. exact (SpanFacts.search_some _ _ E).
Qed.

(** X5. Whenever lines 147-151 find a text for the decoder, the reply is
    some prose without an open brace, then that text, then some prose
    without a close brace; the text starts with an open brace, ends with a
    close brace, and is no longer than the reply. *)
Theorem json_str_shape reply json_str :
  json_str_of reply = Ok json_str ->
  exists pre mid post,
    reply = pre ++ json_str ++ post
    /\ json_str = LBRACE :: mid ++ [RBRACE]
    /\ (LBRACE ∉ pre) /\ (RBRACE ∉ post)
    /\ 2 <= length json_str <= length reply.
Proof.
  intros Hj.
  destruct (json_str_span _ _ Hj) as (pre & mid & post & -> & -> & Hpre & Hpost).
  exists pre, mid, post. split_and!; try assumption; try reflexivity.
  - cbn. now rewrite <- app_assoc.
  - cbn. rewrite length_app. cbn. lia.
  - rewrite !length_app. cbn. rewrite !length_app. cbn. lia.
Qed.

(** X6. Lines 147-151 raise the could-not-extract error exactly when the
    reply has no open brace followed, anywhere later, by a close brace. *)
Theorem json_str_missing reply :
  json_str_of reply = Err (ValueError (u "Could not extract JSON from model response"))
  <-> ~ exists a b c, reply = a ++ LBRACE :: b ++ RBRACE :: c.
Proof.
  unfold json_str_of. split.
  - destruct (Re.search reply) as [m|] eqn:E; [discriminate|].
    intros _ (a & b & c & ->).
    destruct (ReFacts.first_last_braces a b c) as (pre & mid & post & Heq & Hpre & Hpost).
    rewrite Heq, (ReFacts.search_span _ _ _ Hpre Hpost) in E. discriminate.
  - intros Hno. destruct (Re.search reply) as [m|] eqn:E; [|reflexivity].
    exfalso. apply Hno.
    destruct (SpanFacts.search_some _ _ E) as (pre & mid & post & -> & _).
    eauto.
Qed.

Lemma members_object n d s acc v r :
  Json.members n d s acc = Ok (v, r) -> exists fields, v = JObject fields.
Proof.
  revert s acc. induction n as [|n IH]; intros s acc; [discriminate|].
  cbn [Json.members]. destruct s as [|c t]; [discriminate|].
  destruct (c =? DQUOTE)%N; [|discriminate].
  destruct (Json.scanstring t) as [[key r0]|]; [|discriminate].
  destruct (Json.skip_ws r0) as [|c2 t2]; [discriminate|].
  destruct (c2 =? 58)%N; [|discriminate].
  destruct (Json.scan_once n d (Json.skip_ws t2)) as [[v1 r3]|]; [|discriminate].
  cbv zeta. destruct (Json.skip_ws r3) as [|c3 t3]; [discriminate|].
  destruct (c3 =? RBRACE)%N; [intros [= <- _]; eauto|].
  destruct (c3 =? 44)%N; [apply IH|discriminate].
Qed.

(** X7. Whatever the decoder returns for the text extracted from a reply
    is a dictionary, so the subscripts of lines 155-162 are dictionary
    lookups. *)
Theorem rating_data_is_dict reply json_str rating_data :
  json_str_of reply = Ok json_str ->
  Json.loads json_str = Ok rating_data ->
  exists fields, rating_data = JObject fields.
Proof.
  intros Hj Hl. destruct (json_str_span _ _ Hj) as (_ & mid & _ & _ & -> & _).
  destruct (JsonFacts.loads_object_inv _ _ Hl) as (r & Hs & _).
  revert Hs. unfold Json.budget. cbn [Json.scan_once].
  rewrite N.eqb_refl.
  change (LBRACE =? DQUOTE)%N with false. cbv iota.
  destruct (Nat.leb _ _); [discriminate|].
  destruct (Json.skip_ws _) as [|c1 t1]; [discriminate|].
  destruct (c1 =? RBRACE)%N; [intros [= <- _]; eauto|].
  apply members_object.
Qed.

(** ** The members read *)

Lemma subscript_ext d1 d2 key :
  Dict.get key d1 = Dict.get key d2 ->
  subscript (JObject d1) key = subscript (JObject d2) key.
Proof. unfold subscript. now intros ->. Qed.

Lemma criterion_ext d1 d2 name :
  Dict.get name d1 = Dict.get name d2 ->
  criterion (JObject d1) name = criterion (JObject d2) name.
Proof. unfold criterion. unfold_result. cbn [subscript]. now intros ->. Qed.

Lemma detailed_rating_ext d1 d2 :
  (forall key, key ∈ top_level_keys -> Dict.get key d1 = Dict.get key d2) ->
  detailed_rating (JObject d1) = detailed_rating (JObject d2).
Proof.
  intros Heq. unfold detailed_rating. unfold_result.
  assert (Hin : forall key, In key top_level_keys -> Dict.get key d1 = Dict.get key d2).
  { intros key Hk. apply Heq. now apply list_elem_of_In. }
  unfold top_level_keys, criteria in Hin. cbn [map app In] in Hin.
  rewrite (criterion_ext d1 d2 (u "task_achievement")) by (apply Hin; tauto).
  rewrite (criterion_ext d1 d2 (u "coherence_cohesion")) by (apply Hin; tauto).
  rewrite (criterion_ext d1 d2 (u "lexical_resource")) by (apply Hin; tauto).
  rewrite (criterion_ext d1 d2 (u "grammatical_range")) by (apply Hin; tauto).
  cbn [subscript].
  rewrite (Hin (u "overall_score")) by tauto.
  rewrite (Hin (u "overall_feedback")) by tauto.
  reflexivity.
Qed.

Lemma dict_get_set_ne {V} k k' (v : V) d :
  k <> k' -> Dict.get k' (Dict.set k v d) = Dict.get k' d.
Proof.
  intros Hne. induction d as [|[k0 v0] d IH]; cbn.
  - unfold str_eqb. now rewrite bool_decide_eq_false_2 by congruence.
  - unfold str_eqb in *. destruct (bool_decide_reflect (k = k0)) as [<-|Hk]; cbn.
    + unfold str_eqb. now rewrite !bool_decide_eq_false_2 by congruence.
    + unfold str_eqb. destruct (bool_decide (k' = k0)); [reflexivity|exact IH].
Qed.

Lemma dict_get_set_eq {V} k (v : V) d : Dict.get k (Dict.set k v d) = Some v.
Proof.
  induction d as [|[k0 v0] d IH]; cbn.
  - unfold str_eqb. now rewrite bool_decide_eq_true_2.
  - unfold str_eqb in *. destruct (bool_decide_reflect (k = k0)) as [<-|Hk]; cbn.
    + unfold str_eqb. now rewrite bool_decide_eq_true_2.
    + unfold str_eqb. now rewrite bool_decide_eq_false_2.
Qed.

(** X8. A member of the decoded object other than the four criteria and
    the two overall fields does not change the rating built or the error
    raised by lines 155-162. *)
Theorem other_members_ignored d key v :
  key ∉ top_level_keys ->
  detailed_rating (JObject (Dict.set key v d)) = detailed_rating (JObject d).
Proof.
  intros Hk. apply detailed_rating_ext. intros k Hin.
  apply dict_get_set_ne. intros ->. contradiction.
Qed.

End Extractor.

(* ===================================================================== *)
(** * The prompt, the gateway and the log *)
(* ===================================================================== *)

Module TextFacts.
Local Open Scope nat_scope.

Lemma startswith_app p r : startswith p (p ++ r) = true.
Proof. induction p as [|a p IH]; cbn; [reflexivity|]. now rewrite N.eqb_refl. Qed.

Lemma contains_head sub r : contains sub (sub ++ r) = true.
Proof.
  destruct (sub ++ r) eqn:E; cbn; rewrite <- E, startswith_app; reflexivity.
Qed.

Lemma contains_app_r sub l r : contains sub r = true -> contains sub (l ++ r) = true.
Proof.
  intros Hr. induction l as [|c l IH]; cbn; [exact Hr|].
  rewrite IH. apply orb_true_r.
Qed.

Lemma contains_head3 a b c r : contains (a ++ b ++ c) (a ++ b ++ c ++ r) = true.
Proof.
  replace (a ++ b ++ c ++ r) with ((a ++ b ++ c) ++ r)
    by now rewrite <- !app_assoc.
  apply contains_head.
Qed.

End TextFacts.

Section Service.
Context `{Platform}.
Local Open Scope nat_scope.

(** ** The gateway *)

(** What the gateway does to the state: nothing, or one call to the hosted
    backend, whose answer is its outcome. *)
Lemma dispatch_effects w sub st r st' :
  dispatch w sub st = (r, st') ->
  st' = fresh st
  \/ exists key,
      OPENAI_API_KEY w = Some key /\ key <> []
      /\ str_lower (model sub) = u "chatgpt"
      /\ import_openai w = Ok tt
      /\ r = upstream w (openai_request key sub)
      /\ st' = {| debug_info := ∅; calls := calls st ++ [openai_request key sub];
                  logged := logged st |}.
Proof.
  unfold dispatch, model_gateway.
  destruct (str_eqb _ (u "chatgpt")) eqn:Em.
  - unfold mbind, M_bind, lift, raise, mret, M_ret, call_upstream.
    destruct (import_openai w) as [[]|e] eqn:Ei; [|intros [= _ <-]; now left].
    destruct (OPENAI_API_KEY w) as [[|k0 k]|] eqn:Ek; cbn;
      try (intros [= _ <-]; now left).
    intros [= <- <-]. right. exists (k0 :: k).
    split_and!; try reflexivity; [discriminate|].
    unfold str_eqb in Em. now apply bool_decide_eq_true in Em.
  - destruct (str_eqb _ (u "llama3.2")).
    + unfold mbind, M_bind, load_global, raise, mret, M_ret, call_upstream.
      intros Hd. left. revert Hd.
      change (bool_decide (u "ollama" ∈ module_globals)) with false.
      now intros [= _ <-].
    + unfold raise. intros [= _ <-]. now left.
Qed.

Lemma body_effects w sub st :
  exists r st', dispatch w sub st = (r, st')
                /\ calls (snd (body w sub st)) = calls st'
                /\ logged (snd (body w sub st)) = logged st'.
Proof.
  destruct (dispatch_cases w sub st) as [(e & st1 & Hd)|[(st1 & Hd)|(reply & st1 & Hd)]];
    eexists _, _; (split; [exact Hd|]).
  - now rewrite (body_gateway_err _ _ _ _ _ Hd).
  - now rewrite (body_gateway_none _ _ _ _ Hd).
  - now rewrite (body_gateway_reply _ _ _ _ _ Hd).
Qed.

Lemma evaluate_calls w sub st :
  calls (snd (evaluate_with_llm w sub st)) = calls (snd (body w sub st)).
Proof.
  destruct (body w sub st) as [[r|e] st1] eqn:Hb.
  - now rewrite (evaluate_ok _ _ _ _ _ Hb).
  - now rewrite (evaluate_err _ _ _ _ _ Hb).
Qed.

Lemma rate_calls w sub debug_mode st :
  calls (snd (rate_writing w sub debug_mode st)) = calls (snd (body w sub st)).
Proof.
  rewrite <- evaluate_calls.
  destruct (evaluate_with_llm w sub st) as [[r|] st1] eqn:He.
  - now rewrite (rate_ok _ _ _ _ _ _ He).
  - now rewrite (rate_err _ _ _ _ _ He).
Qed.

(** X10. One request to the service sends nothing to a backend, or exactly
    one chat completion: to the hosted API, for the model "gpt-4", with the
    credential of the environment, the examiner's system message and the
    prompt built from the submission, at temperature 0.2 and at most 500
    tokens; and only when the lowered model name is "chatgpt". *)
Theorem upstream_traffic w sub debug_mode st :
  calls (snd (rate_writing w sub debug_mode st)) = calls st
  \/ exists key,
      OPENAI_API_KEY w = Some key /\ key <> []
      /\ str_lower (model sub) = u "chatgpt"
      /\ calls (snd (rate_writing w sub debug_mode st))
         = calls st ++ [openai_request key sub].
Proof.
  rewrite rate_calls.
  destruct (body_effects w sub st) as (r & st' & Hd & -> & _).
  destruct (dispatch_effects _ _ _ _ _ Hd) as [->|(key & Hk & Hne & Hm & _ & _ & ->)].
  - now left.
  - right. exists key. now split_and!.
Qed.

(** X11. With the hosted model selected and the credential unset or empty,
    the gateway raises the error that names the variable, nothing is sent,
    the message is recorded and the service answers with a 500. *)
Theorem missing_credential w sub debug_mode st :
  str_lower (model sub) = u "chatgpt" ->
  import_openai w = Ok tt ->
  OPENAI_API_KEY w = None \/ OPENAI_API_KEY w = Some [] ->
  dispatch w sub st
  = (Err (ValueError (u "OPENAI_API_KEY environment variable is not set.")), fresh st)
  /\ debug_info (snd (evaluate_with_llm w sub st)) !! u "error_message"
     = Some (u "OPENAI_API_KEY environment variable is not set.")
  /\ fst (rate_writing w sub debug_mode st) = Err (HTTPException 500 generic_detail)
  /\ calls (snd (rate_writing w sub debug_mode st)) = calls st.
Proof.
  intros Hm Hi Hk.
  assert (Hd : dispatch w sub st
               = (Err (ValueError (u "OPENAI_API_KEY environment variable is not set.")),
                  fresh st)).
  { unfold dispatch, model_gateway. rewrite Hm, str_eqb_refl.
    unfold mbind, M_bind, lift. rewrite Hi.
    destruct Hk as [-> | ->]; reflexivity. }
  split; [exact Hd|].
  pose proof (body_gateway_err _ _ _ _ _ Hd) as Hb.
  rewrite rate_calls, Hb.
  pose proof (evaluate_err _ _ _ _ _ Hb) as He. rewrite He.
  split; [cbn; now rewrite lookup_insert_eq|].
  split; [|reflexivity].
  now rewrite (rate_err _ _ debug_mode _ _ He).
Qed.

(** X12. When the hosted backend raises, [evaluate_with_llm] returns no
    rating and records the text of that exception, the one call stays
    recorded and the service answers with a 500. *)
Theorem upstream_error w sub debug_mode st key e :
  str_lower (model sub) = u "chatgpt" ->
  import_openai w = Ok tt ->
  OPENAI_API_KEY w = Some key -> key <> [] ->
  upstream w (openai_request key sub) = Err e ->
  fst (evaluate_with_llm w sub st) = None
  /\ debug_info (snd (evaluate_with_llm w sub st)) !! u "error_message"
     = Some (exn_str e)
  /\ fst (rate_writing w sub debug_mode st) = Err (HTTPException 500 generic_detail)
  /\ calls (snd (rate_writing w sub debug_mode st))
     = calls st ++ [openai_request key sub].
Proof.
  intros Hm Hi Hk Hne Hu.
  assert (Hd : dispatch w sub st
               = (Err e, {| debug_info := ∅; calls := calls st ++ [openai_request key sub];
                            logged := logged st |})).
  { unfold dispatch, model_gateway. rewrite Hm, str_eqb_refl.
    unfold mbind, M_bind, lift. rewrite Hi, Hk.
    destruct key as [|k0 k]; [congruence|].
    unfold mret, M_ret, call_upstream. fold (openai_request (k0 :: k) sub).
    now rewrite Hu. }
  pose proof (body_gateway_err _ _ _ _ _ Hd) as Hb.
  rewrite rate_calls, Hb.
  pose proof (evaluate_err _ _ _ _ _ Hb) as He. rewrite He.
  split; [reflexivity|]. split; [cbn; now rewrite lookup_insert_eq|].
  split; [|reflexivity].
  now rewrite (rate_err _ _ debug_mode _ _ He).
Qed.

(** X13. A response preview in the trace is at most 203 characters long
    and agrees with the reply of the backend on its first 200. *)
Theorem preview_bound w sub st p :
  debug_info (snd (evaluate_with_llm w sub st)) !! u "response_preview" = Some p ->
  length p <= 203
  /\ exists reply st1,
      dispatch w sub st = (Ok (Some reply), st1)
      /\ take 200 p = take 200 reply.
Proof.
  assert (Hp : forall reply : str,
             let q := if Nat.ltb 200 (length reply)
                      then slice_to 200 reply ++ u "..." else reply in
             length q <= 203 /\ take 200 q = take 200 reply).
  { intros reply. cbv zeta. unfold slice_to.
    destruct (Nat.ltb_spec 200 (length reply)) as [Hl|Hl].
    - split.
      + rewrite length_app, length_firstn.
        change (length (u "...")) with 3. lia.
      + rewrite take_app_le by (rewrite length_firstn; lia).
        change firstn with (@take N). rewrite take_take. f_equal.
    - split; [lia|reflexivity]. }
  destruct (dispatch_cases w sub st) as [(e & st1 & Hd)|[(st1 & Hd)|(reply & st1 & Hd)]].
  - pose proof (dispatch_debug_info _ _ _ _ _ Hd) as Hdbg.
    apply body_gateway_err, evaluate_err in Hd. rewrite Hd. cbn.
    rewrite lookup_insert_ne by key_ne. rewrite Hdbg, lookup_empty. discriminate.
  - pose proof (dispatch_debug_info _ _ _ _ _ Hd) as Hdbg.
    apply body_gateway_none, evaluate_err in Hd. rewrite Hd. cbn.
    rewrite lookup_insert_ne by key_ne. rewrite Hdbg, lookup_empty. discriminate.
  - pose proof Hd as Hb. apply body_gateway_reply in Hb.
    destruct (response_extractor reply) as [rating|e].
    + apply evaluate_ok in Hb. rewrite Hb. unfold with_preview. cbn [snd debug_info].
      rewrite lookup_insert_eq. intros [= <-].
      destruct (Hp reply) as [H1 H2]. split; [exact H1|]. eauto.
    + apply evaluate_err in Hb. rewrite Hb. unfold with_preview. cbn [snd debug_info].
      rewrite lookup_insert_ne by key_ne. rewrite lookup_insert_eq. intros [= <-].
      destruct (Hp reply) as [H1 H2]. split; [exact H1|]. eauto.
Qed.


(** X15. A request whose evaluation succeeds logs nothing; one whose
    evaluation raises logs two lines, the error of the evaluation with the
    lowered model name, the type and the text of the exception, then the
    error of the endpoint. *)
Theorem logged_lines w sub debug_mode st :
  match body w sub st with
  | (Ok _, _) => logged (snd (rate_writing w sub debug_mode st)) = logged st
  | (Err e, _) =>
      logged (snd (rate_writing w sub debug_mode st))
      = logged st ++ [evaluation_log sub e; endpoint_log]
  end.
Proof.
  destruct (body_effects w sub st) as (r & st' & Hd & _ & Hl).
  assert (Hst : logged st' = logged st).
  { destruct (dispatch_effects _ _ _ _ _ Hd) as [->|(key & _ & _ & _ & _ & _ & ->)];
      reflexivity. }
  destruct (body w sub st) as [[rating|e] st1] eqn:Hb; cbn [snd] in Hl.
  - pose proof (evaluate_ok _ _ _ _ _ Hb) as He.
    rewrite (rate_ok _ _ _ _ _ _ He). cbn [snd]. congruence.
  - pose proof (evaluate_err _ _ _ _ _ Hb) as He.
    rewrite (rate_err _ _ _ _ _ He). cbn [snd logged].
    rewrite Hl, Hst, <- app_assoc. reflexivity.
Qed.

(** X9. The prompt holds the question and the response as submitted, and
    the word count of the response in the form "(N words)". *)
Theorem prompt_contents sub :
  let prompt := build_prompt sub (count_words (response sub)) in
  contains (question sub) prompt = true
  /\ contains (response sub) prompt = true
  /\ contains (u "(" ++ str_of_nat (count_words (response sub)) ++ u " words)") prompt
     = true.
Proof.
  cbv zeta. unfold build_prompt. split_and!.
  - repeat first [apply TextFacts.contains_head | apply TextFacts.contains_app_r].
  - repeat first [apply TextFacts.contains_head | apply TextFacts.contains_app_r].
  - repeat lazymatch goal with
           | |- contains _ (u "    ### **Student Response (" ++ _) = true => fail
           | _ => apply TextFacts.contains_app_r
           end.
    change (u "    ### **Student Response (")
      with (u "    ### **Student Response " ++ u "(").
    change (u " words):**") with (u " words)" ++ u ":**").
    rewrite <- !app_assoc. apply TextFacts.contains_app_r.
    apply TextFacts.contains_head3.
Qed.

(** X16. Two submissions that differ only in the case of the model name,
    as far as [str.lower] maps them to one text, are served alike: same
    answer, same calls, same log. *)
Theorem model_name_case w sub sub' debug_mode st :
  task_type sub = task_type sub' -> question sub = question sub' ->
  response sub = response sub' ->
  str_lower (model sub) = str_lower (model sub') ->
  rate_writing w sub debug_mode st = rate_writing w sub' debug_mode st.
Proof.
  intros Ht Hq Hr Hm.
  unfold rate_writing, rate_body, evaluate_with_llm, build_prompt.
  now rewrite Ht, Hq, Hr, Hm.
Qed.

End Service.

(* ===================================================================== *)
(** * The desktop form *)
(* ===================================================================== *)

Module ClientFacts.
Import Client.
Local Open Scope nat_scope.

Lemma lstrip_blank s : forallb isspace (lstrip s) = forallb isspace s.
Proof.
  induction s as [|c s IH]; cbn; [reflexivity|].
  destruct (isspace c) eqn:E; cbn; [exact IH|now rewrite E].
Qed.

Lemma lstrip_nil s : lstrip s = [] <-> forallb isspace s = true.
Proof.
  induction s as [|c s IH]; cbn; [tauto|].
  destruct (isspace c) eqn:E; cbn; [exact IH|]. split; discriminate.
Qed.

Lemma forallb_rev {A} (f : A -> bool) l : forallb f (rev l) = forallb f l.
Proof.
  induction l as [|x l IH]; cbn; [reflexivity|].
  rewrite forallb_app, IH. cbn. rewrite andb_true_r. apply andb_comm.
Qed.

(** Stripping leaves nothing exactly of the texts made of white space. *)
Lemma strip_nil s : strip s = [] <-> forallb isspace s = true.
Proof.
  unfold strip. split.
  - intros Hs. apply (f_equal (@rev _)) in Hs. rewrite rev_involutive in Hs. cbn in Hs.
    apply lstrip_nil in Hs. now rewrite forallb_rev, lstrip_blank in Hs.
  - intros Hs. replace (lstrip (rev (lstrip s))) with (@nil N); [reflexivity|].
    symmetry. apply lstrip_nil. now rewrite forallb_rev, lstrip_blank.
Qed.

Lemma strip_not_nil s : forallb isspace s = false -> strip s <> [].
Proof. intros Hs Hn. apply strip_nil in Hn. congruence. Qed.

Section WithDisplay.
Context `{Platform} `{Display}.

Ltac run := unfold mbind, G_bind, mret, G_ret, lift_exn, lift_raised,
              config, delete_all, insert, request, showerror, with_widget in *.

Lemma submit_blank net form g :
  strip (question_text form) = [] \/ strip (response_text form) = [] ->
  submit_task net form g
  = showerror (u "Input Error")
      (u "Both question and response fields must be filled.") g.
Proof.
  unfold submit_task. intros [-> | ->]; [reflexivity|].
  now destruct (strip (question_text form)).
Qed.

Lemma submit_filled net form g :
  strip (question_text form) <> [] -> strip (response_text form) <> [] ->
  submit_task net form g
  = match show_rating net (form_data form) g with
    | (Err (RequestException msg), g') =>
        showerror (u "API Error") (u "Failed to get feedback: " ++ msg) g'
    | outcome => outcome
    end.
Proof.
  unfold submit_task. intros Hq Hr.
  destruct (strip (question_text form)); [congruence|].
  destruct (strip (response_text form)); [congruence|]. reflexivity.
Qed.

(** X17. When the question or the response is empty or white space only,
    the form shows the dialog "Input Error", sends no request and leaves
    the feedback widget as it was. *)
Theorem blank_input net form g :
  forallb isspace (question_text form) = true
  \/ forallb isspace (response_text form) = true ->
  submit_task net form g
  = (Ok tt,
     {| feedback_text := feedback_text g;
        dialogs := dialogs g
                   ++ [(u "Input Error",
                        u "Both question and response fields must be filled.")];
        posted := posted g |}).
Proof.
  intros Hb. rewrite submit_blank; [reflexivity|].
  destruct Hb as [Hb|Hb]; [left|right]; now apply strip_nil.
Qed.


Lemma quiet_ret {A} (a : A) : quiet (mret a).
Proof. intros g. cbn. split_and!; [reflexivity|reflexivity|discriminate]. Qed.

Lemma quiet_bind {A B} (m : G A) (k : A -> G B) :
  quiet m -> (forall a, quiet (k a)) -> quiet (m ≫= k).
Proof.
  intros Hm Hk g. unfold mbind, G_bind. destruct (Hm g) as (Hp & Hd & Hn).
  destruct (m g) as [[a|e] g1]; cbn [fst snd] in *.
  - destruct (Hk a g1) as (Hp1 & Hd1 & Hn1). split_and!; [congruence|congruence|exact Hn1].
  - split_and!; [exact Hp|exact Hd|]. intros msg [= ->]. now apply (Hn msg).
Qed.

Lemma quiet_with_widget f : quiet (with_widget f).
Proof. intros g. cbn. split_and!; [reflexivity|reflexivity|discriminate]. Qed.

Lemma quiet_lift_exn {A} (r : result exn A) : quiet (lift_exn r).
Proof.
  intros g. unfold lift_exn. cbn [fst snd].
  split_and!; [reflexivity|reflexivity|]. intros msg. destruct r; discriminate.
Qed.

Ltac quiet_steps :=
  repeat first
    [ apply quiet_ret | apply quiet_with_widget | apply quiet_lift_exn
    | apply quiet_bind; [|intros ?] ].

(** The loop shows no dialog, posts nothing and raises nothing the handler
    catches. *)
Lemma show_criteria_parts entries : quiet (show_criteria entries).
Proof.
  induction entries as [|[criterion details] rest IH]; cbn [show_criteria].
  - apply quiet_ret.
  - apply quiet_bind; [|intros _; exact IH].
    destruct details; unfold insert; quiet_steps.
Qed.

(** Over entries it can show, the loop appends their segments to a widget
    that accepts changes, and goes on. *)
Lemma show_criteria_prefix shown rest :
  forall g,
    forallb showable shown = true ->
    editing_state (feedback_text g) = NORMAL ->
    show_criteria (shown ++ rest) g
    = show_criteria rest
        {| feedback_text :=
             {| segments := segments (feedback_text g)
                            ++ flat_map criterion_segments shown;
                editing_state := NORMAL |};
           dialogs := dialogs g; posted := posted g |}.
Proof.
  induction shown as [|[criterion details] shown IH]; intros g Hs Hn.
  - cbn [app flat_map]. rewrite app_nil_r.
    destruct g as [[seg ed] dl ps]. cbn in *. now subst.
  - cbn [forallb] in Hs. apply andb_true_iff in Hs as [Hd Hs].
    cbn [app show_criteria flat_map]. unfold mbind at 1. unfold G_bind.
    destruct details as [| | | | | |c];
      try (cbn [criterion_segments]; cbn; rewrite (IH g Hs Hn); reflexivity).
    cbn [showable] in Hd. apply andb_true_iff in Hd as [Hsc Hfb].
    unfold has_key in Hsc, Hfb. cbn [criterion_segments].
    destruct (Dict.get (u "score") c) as [sc|] eqn:Esc; [|discriminate].
    destruct (Dict.get (u "feedback") c) as [fb|] eqn:Efb; [|discriminate].
    run. cbn [subscript]. rewrite Esc, Efb. cbn [feedback_text editing_state segments].
    rewrite Hn. cbn [feedback_text editing_state segments].
    rewrite IH; [|exact Hs|reflexivity].
    cbn [feedback_text editing_state segments dialogs posted].
    now rewrite <- !app_assoc.
Qed.

Lemma show_criteria_ok entries g :
  forallb showable entries = true ->
  editing_state (feedback_text g) = NORMAL ->
  show_criteria entries g
  = (Ok tt,
     {| feedback_text :=
          {| segments := segments (feedback_text g)
                         ++ flat_map criterion_segments entries;
             editing_state := NORMAL |};
        dialogs := dialogs g; posted := posted g |}).
Proof.
  intros Hs Hn. rewrite <- (app_nil_r entries) at 1.
  now rewrite show_criteria_prefix.
Qed.

Lemma show_rating_failed net form g e :
  fetch net (form_data form) = Err e ->
  show_rating net (form_data form) g = (Err e, sent form g).
Proof. intros Hf. unfold show_rating. run. now rewrite Hf. Qed.

(** The two lines of the overall result, then the loop over the members
    of the rating. *)
Lemma show_rating_answer net form g answer fields os of_ :
  fetch net (form_data form) = Ok answer ->
  subscript answer (u "rating") = Ok (JObject fields) ->
  Dict.get (u "overall_score") fields = Some os ->
  Dict.get (u "overall_feedback") fields = Some of_ ->
  show_rating net (form_data form) g
  = (_ ← show_criteria fields; config DISABLED)
      {| feedback_text :=
           {| segments := overall_segments os of_; editing_state := NORMAL |};
         dialogs := dialogs g;
         posted := posted g ++ [(API_URL, form_data form)] |}.
Proof.
  intros Hf Hrat Hos Hof. unfold show_rating, overall_segments.
  unfold mbind at 1 2 3 4 5 6 7 8 9. unfold G_bind at 1 2 3 4 5 6 7 8 9.
  unfold request. rewrite Hf. unfold lift_exn. rewrite Hrat. cbn [subscript items].
  rewrite Hos, Hof. reflexivity.
Qed.

Lemma show_rating_ok net form g answer fields os of_ :
  fetch net (form_data form) = Ok answer ->
  subscript answer (u "rating") = Ok (JObject fields) ->
  Dict.get (u "overall_score") fields = Some os ->
  Dict.get (u "overall_feedback") fields = Some of_ ->
  forallb showable fields = true ->
  show_rating net (form_data form) g
  = (Ok tt,
     {| feedback_text :=
          {| segments := overall_segments os of_ ++ flat_map criterion_segments fields;
             editing_state := DISABLED |};
        dialogs := dialogs g;
        posted := posted g ++ [(API_URL, form_data form)] |}).
Proof.
  intros Hf Hrat Hos Hof Hsh.
  rewrite (show_rating_answer _ _ _ _ _ _ _ Hf Hrat Hos Hof).
  unfold mbind, G_bind. rewrite show_criteria_ok; [reflexivity|exact Hsh|reflexivity].
Qed.

(** Once the answer is there, nothing more is posted, no dialog is shown
    and nothing raised is caught. *)
Lemma show_rating_parts net form g :
  posted (snd (show_rating net (form_data form) g)) = posted (sent form g)
  /\ dialogs (snd (show_rating net (form_data form) g)) = dialogs g
  /\ (forall msg,
        fst (show_rating net (form_data form) g) = Err (RequestException msg) ->
        fetch net (form_data form) = Err (RequestException msg)
        /\ snd (show_rating net (form_data form) g) = sent form g)
  /\ (fst (show_rating net (form_data form) g) = Ok tt ->
      editing_state (feedback_text (snd (show_rating net (form_data form) g)))
      = DISABLED).
Proof.
  destruct (fetch net (form_data form)) as [answer|e] eqn:Hf.
  2:{ rewrite (show_rating_failed _ _ _ _ Hf). cbn [fst snd].
      split_and!; try reflexivity; [|discriminate].
      intros msg [= ->]. now split. }
  unfold show_rating. run. rewrite Hf.
  destruct (subscript answer (u "rating")) as [rating|]; cbn [fst snd];
    [|split_and!; try reflexivity; discriminate].
  destruct (subscript rating (u "overall_score")) as [os|]; cbn [fst snd];
    [|split_and!; try reflexivity; discriminate].
  destruct (subscript rating (u "overall_feedback")) as [of_|]; cbn [fst snd];
    [|split_and!; try reflexivity; discriminate].
  destruct (items rating) as [entries|]; cbn [fst snd];
    [|split_and!; try reflexivity; discriminate].
  match goal with
  | |- context [show_criteria entries ?g0] =>
      destruct (show_criteria_parts entries g0) as (Hp & Hd & Hn);
      destruct (show_criteria entries g0) as [[[]|e] g1]
  end; cbn [fst snd] in *.
  - split_and!; [exact Hp|exact Hd|discriminate|reflexivity].
  - split_and!; [exact Hp|exact Hd| |discriminate].
    intros msg [= ->]. now destruct (Hn msg).
Qed.

Lemma request_exception_caught net form g msg :
  forallb isspace (question_text form) = false ->
  forallb isspace (response_text form) = false ->
  fetch net (form_data form) = Err (RequestException msg) ->
  submit_task net form g
  = (Ok tt,
     {| feedback_text := feedback_text g;
        dialogs := dialogs g ++ [(u "API Error", u "Failed to get feedback: " ++ msg)];
        posted := posted g ++ [(API_URL, form_data form)] |}).
Proof.
  intros Hq Hr Hf. rewrite submit_filled by now apply strip_not_nil.
  now rewrite (show_rating_failed _ _ _ _ Hf).
Qed.

Lemma blank_strip s : forallb isspace (strip s) = forallb isspace s.
Proof. unfold strip. now rewrite forallb_rev, lstrip_blank, forallb_rev, lstrip_blank. Qed.

Lemma strip_has_words s :
  forallb isspace s = false -> 0 < count_words (strip s).
Proof.
  intros Hs. destruct (count_words (strip s)) eqn:E; [|lia].
  unfold count_words, split in E. apply length_zero_iff_nil in E.
  apply WordFacts.split_from_nil in E. destruct E as [_ E].
  rewrite blank_strip in E. congruence.
Qed.

(** X18. One press of the button posts at most one request: none when the
    question or the response is blank, and otherwise exactly one, to the
    address of line 5, with the four fields of the form, whose question and
    response are stripped and have at least one word each. *)
Theorem requests_posted net form g :
  posted (snd (submit_task net form g))
  = posted g
    ++ (if forallb isspace (question_text form) || forallb isspace (response_text form)
        then [] else [(API_URL, form_data form)])
  /\ (forallb isspace (question_text form) || forallb isspace (response_text form) = false ->
      0 < count_words (strip (question_text form))
      /\ 0 < count_words (strip (response_text form))).
Proof.
  split.
  - destruct (forallb isspace (question_text form)) eqn:Hq; cbn [orb].
    { rewrite submit_blank by (left; now apply strip_nil). cbn. now rewrite app_nil_r. }
    destruct (forallb isspace (response_text form)) eqn:Hr.
    { rewrite submit_blank by (right; now apply strip_nil). cbn. now rewrite app_nil_r. }
    rewrite submit_filled by now apply strip_not_nil.
    destruct (show_rating_parts net form g) as (Hp & _).
    destruct (show_rating net (form_data form) g) as [[[]|[msg|e]] g1];
      cbn [fst snd] in *; exact Hp.
  - intros Hb. apply orb_false_iff in Hb as [Hq Hr].
    split; now apply strip_has_words.
Qed.

(** X19. When the request, the check of its status or the decoding of its
    body raises an exception of the requests library, the form shows the
    dialog "API Error" with the text "Failed to get feedback: " and the
    text of the exception, and leaves the feedback widget as it was. *)
Theorem api_error_dialog net form g msg :
  forallb isspace (question_text form) = false ->
  forallb isspace (response_text form) = false ->
  fetch net (form_data form) = Err (RequestException msg) ->
  submit_task net form g
  = (Ok tt,
     {| feedback_text := feedback_text g;
        dialogs := dialogs g ++ [(u "API Error", u "Failed to get feedback: " ++ msg)];
        posted := posted g ++ [(API_URL, form_data form)] |}).
Proof. exact (request_exception_caught net form g msg). Qed.

(** X20. An answer with a status from 400 to 599 never reaches the feedback
    widget: the dialog "API Error" gives the status, "Client Error" below
    500 and "Server Error" from 500 on, the reason and the address, and
    nothing of the body, so the detail the service puts in a 500 is not
    shown. *)
Theorem error_status_dialog net form g r :
  forallb isspace (question_text form) = false ->
  forallb isspace (response_text form) = false ->
  post net API_URL (form_data form) = Ok r ->
  400 <= status_code r < 600 ->
  fst (submit_task net form g) = Ok tt
  /\ feedback_text (snd (submit_task net form g)) = feedback_text g
  /\ dialogs (snd (submit_task net form g))
     = dialogs g
       ++ [(u "API Error",
            u "Failed to get feedback: " ++ str_of_nat (status_code r)
              ++ (if decide (status_code r < 500) then u " Client Error: "
                  else u " Server Error: ")
              ++ reason r ++ u " for url: " ++ url r)].
Proof.
  intros Hq Hr Hp Hs.
  assert (Hf : fetch net (form_data form)
               = Err (RequestException
                        (str_of_nat (status_code r)
                           ++ (if decide (status_code r < 500) then u " Client Error: "
                               else u " Server Error: ")
                           ++ reason r ++ u " for url: " ++ url r))).
  { unfold fetch. unfold mbind, result_bind. rewrite Hp. unfold raise_for_status.
    destruct (Nat.leb_spec 400 (status_code r)); [|lia].
    destruct (Nat.ltb_spec (status_code r) 500), (decide (status_code r < 500));
      try lia; cbn [andb]; [reflexivity|].
    destruct (Nat.leb_spec 500 (status_code r)); [|lia].
    destruct (Nat.ltb_spec (status_code r) 600); [|lia]. reflexivity. }
  rewrite (request_exception_caught _ _ _ _ Hq Hr Hf). now split_and!.
Qed.

(** X21. For an answer whose rating has an overall score, an overall
    feedback and, as every member that is an object, an object with a score
    and a feedback, the widget is emptied and filled with the overall
    score, the overall feedback and then, in the order of the answer, three
    lines for each member that is an object, and ends read-only; no dialog
    is shown. *)
Theorem rating_shown net form g answer fields os of_ :
  forallb isspace (question_text form) = false ->
  forallb isspace (response_text form) = false ->
  fetch net (form_data form) = Ok answer ->
  subscript answer (u "rating") = Ok (JObject fields) ->
  Dict.get (u "overall_score") fields = Some os ->
  Dict.get (u "overall_feedback") fields = Some of_ ->
  forallb showable fields = true ->
  submit_task net form g
  = (Ok tt,
     {| feedback_text :=
          {| segments :=
               [(u "Overall Score: " ++ format_value os ++ NEWLINE ++ NEWLINE, u "title");
                (u "Feedback: " ++ format_value of_ ++ NEWLINE ++ NEWLINE, u "normal")]
               ++ flat_map criterion_segments fields;
             editing_state := DISABLED |};
        dialogs := dialogs g;
        posted := posted g ++ [(API_URL, form_data form)] |}).
Proof.
  intros Hq Hr Hf Hrat Hos Hof Hsh. rewrite submit_filled by now apply strip_not_nil.
  now rewrite (show_rating_ok _ _ _ _ _ _ _ Hf Hrat Hos Hof Hsh).
Qed.

(** X22. A rating of the service, with its fields in the order the models
    of app.py declare them, is shown whole: the overall score and feedback,
    then task achievement, coherence cohesion, lexical resource and
    grammatical range, each with its title, score and feedback; the two
    overall members are passed over by the loop. *)
Theorem served_rating_shown number net form g answer r :
  (forall x, is_number_or_null (number x) = true) ->
  forallb isspace (question_text form) = false ->
  forallb isspace (response_text form) = false ->
  fetch net (form_data form) = Ok answer ->
  subscript answer (u "rating") = Ok (rating_json number r) ->
  let shown name (c : Criterion) :=
    [(str_title (u name) ++ u ":" ++ NEWLINE, u "subtitle");
     (u "- Score: " ++ format_value (number (score c)) ++ NEWLINE, u "bold");
     (u "- Feedback: " ++ format_value (JString (feedback c)) ++ NEWLINE ++ NEWLINE,
      u "normal")] in
  submit_task net form g
  = (Ok tt,
     {| feedback_text :=
          {| segments :=
               [(u "Overall Score: " ++ format_value (number (overall_score r))
                   ++ NEWLINE ++ NEWLINE, u "title");
                (u "Feedback: " ++ format_value (JString (overall_feedback r))
                   ++ NEWLINE ++ NEWLINE, u "normal")]
               ++ shown "task achievement"%string (task_achievement r)
               ++ shown "coherence cohesion"%string (coherence_cohesion r)
               ++ shown "lexical resource"%string (lexical_resource r)
               ++ shown "grammatical range"%string (grammatical_range r);
             editing_state := DISABLED |};
        dialogs := dialogs g;
        posted := posted g ++ [(API_URL, form_data form)] |}).
Proof.
  intros Hn Hq Hr Hf Hrat. cbv zeta.
  rewrite submit_filled by now apply strip_not_nil.
  unfold rating_json in Hrat.
  rewrite (show_rating_ok _ _ _ _ _ _ _ Hf Hrat eq_refl eq_refl).
  - unfold overall_segments. cbn [flat_map criterion_segments criterion_json].
    pose proof (Hn (overall_score r)) as Ho.
    destruct (number (overall_score r)); try discriminate Ho; reflexivity.
  - cbn [forallb showable criterion_json]. pose proof (Hn (overall_score r)) as Ho.
    destruct (number (overall_score r)); try discriminate Ho; reflexivity.
Qed.

(** X23. An answer that is an object without the member "rating" makes the
    handler raise KeyError, which its except clause does not catch: no
    dialog is shown and the feedback widget is left as it was. *)
Theorem rating_key_missing net form g d :
  forallb isspace (question_text form) = false ->
  forallb isspace (response_text form) = false ->
  fetch net (form_data form) = Ok (JObject d) ->
  Dict.get (u "rating") d = None ->
  submit_task net form g
  = (Err (Uncaught (KeyError (u "rating"))),
     {| feedback_text := feedback_text g; dialogs := dialogs g;
        posted := posted g ++ [(API_URL, form_data form)] |}).
Proof.
  intros Hq Hr Hf Hk. rewrite submit_filled by now apply strip_not_nil.
  unfold show_rating. run. rewrite Hf. cbn [subscript]. now rewrite Hk.
Qed.

(** X24. When a member of the rating is an object without a score, the
    handler raises KeyError after it has written the overall lines, the
    members before that one and the title of that one: the widget is left
    with that partial text and open to editing, and no dialog is shown. *)
Theorem criterion_key_missing net form g answer shown criterion c rest os of_ :
  forallb isspace (question_text form) = false ->
  forallb isspace (response_text form) = false ->
  fetch net (form_data form) = Ok answer ->
  subscript answer (u "rating") = Ok (JObject (shown ++ (criterion, JObject c) :: rest)) ->
  Dict.get (u "overall_score") (shown ++ (criterion, JObject c) :: rest) = Some os ->
  Dict.get (u "overall_feedback") (shown ++ (criterion, JObject c) :: rest) = Some of_ ->
  forallb showable shown = true ->
  Dict.get (u "score") c = None ->
  submit_task net form g
  = (Err (Uncaught (KeyError (u "score"))),
     {| feedback_text :=
          {| segments :=
               overall_segments os of_ ++ flat_map criterion_segments shown
               ++ [(str_title (replace_underscores criterion) ++ u ":" ++ NEWLINE,
                    u "subtitle")];
             editing_state := NORMAL |};
        dialogs := dialogs g;
        posted := posted g ++ [(API_URL, form_data form)] |}).
Proof.
  intros Hq Hr Hf Hrat Hos Hof Hsh Hsc.
  rewrite submit_filled by now apply strip_not_nil.
  rewrite (show_rating_answer _ _ _ _ _ _ _ Hf Hrat Hos Hof).
  unfold mbind at 1. unfold G_bind at 1.
  rewrite show_criteria_prefix; [|exact Hsh|reflexivity].
  cbn [show_criteria]. run. cbn [subscript]. rewrite Hsc.
  cbn [feedback_text editing_state segments dialogs posted].
  now rewrite <- app_assoc.
Qed.

(** X25. The feedback widget is read-only after every press of the button
    that ends without an exception, if it was before. *)
Theorem feedback_stays_read_only net form g :
  editing_state (feedback_text g) = DISABLED ->
  fst (submit_task net form g) = Ok tt ->
  editing_state (feedback_text (snd (submit_task net form g))) = DISABLED.
Proof.
  intros Hd. unfold submit_task.
  assert (Hshow : fst (match show_rating net (form_data form) g with
                       | (Err (RequestException msg), g') =>
                           showerror (u "API Error") (u "Failed to get feedback: " ++ msg) g'
                       | outcome => outcome
                       end) = Ok tt ->
                  editing_state
                    (feedback_text
                       (snd (match show_rating net (form_data form) g with
                             | (Err (RequestException msg), g') =>
                                 showerror (u "API Error")
                                   (u "Failed to get feedback: " ++ msg) g'
                             | outcome => outcome
                             end))) = DISABLED).
  { destruct (show_rating_parts net form g) as (_ & _ & Hreq & Hok).
    destruct (show_rating net (form_data form) g) as [[[]|[msg|e]] g1];
      cbn [fst snd] in *.
    - intros _. now apply Hok.
    - intros _. destruct (Hreq msg eq_refl) as [_ ->]. exact Hd.
    - discriminate. }
  destruct (strip (question_text form)); [intros _; exact Hd|].
  destruct (strip (response_text form)); [intros _; exact Hd|].
  exact Hshow.
Qed.

End WithDisplay.
End ClientFacts.

(* ===================================================================== *)
(** * The properties on the reference platform *)
(* ===================================================================== *)

#[local] Existing Instance Reference.platform.

Ltac absent := apply (bool_decide_unpack _); vm_compute; exact I.

(** C3, as amended. The word count of "This is five words." is 4: the text
    has four runs of characters between white space. *)
Theorem count_words_sample : count_words (u "This is five words.") = 4%nat.
Proof. reflexivity. Qed.

(** C3 as stated fails: the count is not 5. *)
Lemma count_words_sample_not_five : count_words (u "This is five words.") <> 5%nat.
Proof. vm_compute. discriminate. Qed.

(** C2 as stated fails: the sample object decodes and maps to the sample
    rating, but between prose whose tail has a brace pair the extraction
    hands the decoder the object and the prose up to the last close brace,
    and fails. *)
Lemma embedded_object_not_recovered :
  (rating_data ← Json.loads Samples.rating_object; detailed_rating rating_data)
  = Ok Samples.rating
  /\ response_extractor
       (u "Here is my assessment: " ++ Samples.rating_object
          ++ u " (bands are on the scale {0..9})")
     = Err (JSONDecodeError
              (failure_text
                 (Decode_failed (Samples.rating_object
                                   ++ u " (bands are on the scale {0..9}")))).
Proof. split; vm_compute; reflexivity. Qed.

Lemma embedded_object_recovered_witness :
  json_str_of
    (u "Here is my assessment: "
       ++ (LBRACE :: Samples.rating_fields ++ [RBRACE]) ++ u " I hope this helps.")
  = Ok (LBRACE :: Samples.rating_fields ++ [RBRACE])
  /\ exists rating,
      response_extractor
        (u "Here is my assessment: "
           ++ (LBRACE :: Samples.rating_fields ++ [RBRACE]) ++ u " I hope this helps.")
      = Ok rating
      /\ rating_matches ServiceSamples.decoded_fields rating.
Proof.
  apply embedded_object_recovered.
  - absent.
  - absent.
  - vm_compute. reflexivity.
  - vm_compute. reflexivity.
Defined.

Lemma invalid_model_selection_witness :
  dispatch (Samples.world Samples.rating_object) (Samples.submission (u "gpt-5")) initial
  = (Err (ValueError (u "Invalid model selection. Choose 'chatGPT' or 'llama3.2'.")),
     fresh initial)
  /\ fst (evaluate_with_llm (Samples.world Samples.rating_object)
            (Samples.submission (u "gpt-5")) initial) = None
  /\ calls (snd (evaluate_with_llm (Samples.world Samples.rating_object)
                   (Samples.submission (u "gpt-5")) initial)) = calls initial
  /\ forall debug_mode,
       calls (snd (rate_writing (Samples.world Samples.rating_object)
                     (Samples.submission (u "gpt-5")) debug_mode initial)) = calls initial
       /\ exists detail,
           fst (rate_writing (Samples.world Samples.rating_object)
                  (Samples.submission (u "gpt-5")) debug_mode initial)
           = Err (HTTPException 500 detail).
Proof.
  apply invalid_model_selection; vm_compute; discriminate.
Defined.

Lemma llama_backend_unreachable_witness :
  dispatch (Samples.world Samples.rating_object) (Samples.submission (u "Llama3.2")) initial
  = (Err (NameError (u "ollama")), fresh initial)
  /\ fst (evaluate_with_llm (Samples.world Samples.rating_object)
            (Samples.submission (u "Llama3.2")) initial) = None
  /\ calls (snd (evaluate_with_llm (Samples.world Samples.rating_object)
                   (Samples.submission (u "Llama3.2")) initial)) = calls initial
  /\ debug_info (snd (evaluate_with_llm (Samples.world Samples.rating_object)
                        (Samples.submission (u "Llama3.2")) initial))
       !! u "error_message"
     = Some (u "name 'ollama' is not defined").
Proof.
  apply llama_backend_unreachable. vm_compute. reflexivity.
Defined.

Lemma no_json_found_witness :
  response_extractor (u "I am unable to rate this essay.")
  = Err (ValueError (u "Could not extract JSON from model response"))
  /\ fst (evaluate_with_llm (Samples.world (u "I am unable to rate this essay."))
            (Samples.submission (u "chatGPT")) initial) = None
  /\ debug_info (snd (evaluate_with_llm (Samples.world (u "I am unable to rate this essay."))
                        (Samples.submission (u "chatGPT")) initial))
       !! u "error_message"
     = Some (u "Could not extract JSON from model response")
  /\ forall debug_mode, exists detail,
       fst (rate_writing (Samples.world (u "I am unable to rate this essay."))
              (Samples.submission (u "chatGPT")) debug_mode initial)
       = Err (HTTPException 500 detail).
Proof.
  eapply no_json_found.
  - vm_compute. reflexivity.
  - absent.
Defined.

(** C7 as stated fails: the response sent without [debug_mode] has the
    member "debug_info", with the value null. *)
Lemma diagnostic_field_in_plain_response :
  exists resp st',
    post_rate (Samples.world Samples.rating_object) (Samples.submission (u "chatGPT"))
      false initial = (Ok resp, st')
    /\ body_members resp
       = [(u "rating", Rating_of Samples.rating); (u "debug_info", Null)]
    /\ u "debug_info" ∈ map fst (body_members resp).
Proof.
  eexists _, _. split; [vm_compute; reflexivity|].
  split; [reflexivity|]. absent.
Qed.

Lemma diagnostic_trace_witness :
  exists resp st',
    post_rate (Samples.world Samples.long_reply) (Samples.submission (u "chatGPT"))
      true initial = (Ok resp, st')
    /\ exists reply st1 d,
        dispatch (Samples.world Samples.long_reply) (Samples.submission (u "chatGPT"))
          initial = (Ok (Some reply), st1)
        /\ body_members resp
           = [(u "rating", Rating_of (RatingResponse.rating resp));
              (u "debug_info", Trace_of d)]
        /\ d !! u "response_preview"
           = Some (if decide (length reply <= 200)%nat then reply
                   else take 200 reply ++ u "...").
Proof.
  pose proof (diagnostic_trace (Samples.world Samples.long_reply)
                (Samples.submission (u "chatGPT")) true initial) as T.
  destruct (post_rate (Samples.world Samples.long_reply)
              (Samples.submission (u "chatGPT")) true initial)
    as [[resp|e] st'] eqn:E.
  - exists resp, st'. split; [reflexivity|]. exact (T resp st' eq_refl).
  - exfalso. vm_compute in E. discriminate E.
Defined.

(** C8 as stated fails: for an unknown model the gateway's description is
    the invalid-model-selection message, and the detail of the failure
    reported does not contain it. *)
Lemma failure_report_drops_description :
  dispatch (Samples.world Samples.rating_object) (Samples.submission (u "gpt-5")) initial
  = (Err (ValueError (u "Invalid model selection. Choose 'chatGPT' or 'llama3.2'.")),
     initial)
  /\ fst (rate_writing (Samples.world Samples.rating_object)
            (Samples.submission (u "gpt-5")) false initial)
     = Err (HTTPException 500 (u "500: LLM evaluation failed."))
  /\ contains (u "Invalid model selection. Choose 'chatGPT' or 'llama3.2'.")
       (u "500: LLM evaluation failed.") = false.
Proof. split_and!; vm_compute; reflexivity. Qed.

Lemma failure_report_witness :
  fst (evaluate_with_llm (Samples.world (u "No rating today."))
         (Samples.submission (u "chatGPT")) initial) = None
  /\ debug_info (snd (evaluate_with_llm (Samples.world (u "No rating today."))
                        (Samples.submission (u "chatGPT")) initial))
       !! u "error_message"
     = Some (exn_str (ValueError (u "Could not extract JSON from model response")))
  /\ logged (snd (evaluate_with_llm (Samples.world (u "No rating today."))
                    (Samples.submission (u "chatGPT")) initial))
     = logged initial
       ++ [evaluation_log (Samples.submission (u "chatGPT"))
             (ValueError (u "Could not extract JSON from model response"))]
  /\ fst (rate_writing (Samples.world (u "No rating today."))
            (Samples.submission (u "chatGPT")) true initial)
     = Err (HTTPException 500 (HTTPException_str 500 (u "LLM evaluation failed.")))
  /\ logged (snd (rate_writing (Samples.world (u "No rating today."))
                    (Samples.submission (u "chatGPT")) true initial))
     = logged initial
       ++ [evaluation_log (Samples.submission (u "chatGPT"))
             (ValueError (u "Could not extract JSON from model response"));
           endpoint_log].
Proof.
  apply (proj1 (failure_report _ _ _ _)).
  right. right. exists (u "No rating today."). eexists.
  split; [vm_compute; reflexivity|]. vm_compute. reflexivity.
Defined.

(** C6 as stated fails: this object leaves out "grammatical_range", and the
    extraction fails on the score of the first criterion, with the
    [ValueError] of [float], before the missing key is looked up. *)
Lemma missing_field_reported_as_conversion_error :
  json_str_of (u "Rating: " ++ Samples.incomplete_object) = Ok Samples.incomplete_object
  /\ (exists d, Json.loads Samples.incomplete_object = Ok (JObject d)
                /\ Dict.get (u "grammatical_range") d = None)
  /\ response_extractor (u "Rating: " ++ Samples.incomplete_object)
     = Err (ValueError (u "could not convert string to float: 'high'")).
Proof.
  split_and!.
  - vm_compute. reflexivity.
  - eexists. split; vm_compute; reflexivity.
  - vm_compute. reflexivity.
Qed.

Lemma missing_field_witness :
  response_extractor (u "Rating: " ++ Samples.three_criteria_object)
  = Err (KeyError (u "grammatical_range")).
Proof.
  edestruct (missing_field (u "Rating: " ++ Samples.three_criteria_object))
    as (_ & _ & Hkey & _).
  - vm_compute. reflexivity.
  - vm_compute. reflexivity.
  - apply (Hkey (map u ["task_achievement"; "coherence_cohesion";
                        "lexical_resource"]%string)
             (u "grammatical_range") []).
    + reflexivity.
    + vm_compute. reflexivity.
    + vm_compute. reflexivity.
Defined.

Lemma greedy_span_witness :
  json_str_of (u "Rating: " ++ (LBRACE :: Samples.rating_fields ++ [RBRACE])
                 ++ u " as JSON {see the rubric" ++ RBRACE :: u ".")
  = Ok ((LBRACE :: Samples.rating_fields ++ [RBRACE])
          ++ u " as JSON {see the rubric" ++ [RBRACE])
  /\ response_extractor (u "Rating: " ++ (LBRACE :: Samples.rating_fields ++ [RBRACE])
                           ++ u " as JSON {see the rubric" ++ RBRACE :: u ".")
     = Err (JSONDecodeError
              (failure_text
                 (Decode_failed ((LBRACE :: Samples.rating_fields ++ [RBRACE])
                                   ++ u " as JSON {see the rubric" ++ [RBRACE])))).
Proof.
  eapply (proj2 greedy_span).
  - absent.
  - absent.
  - vm_compute. reflexivity.
Defined.

(** A request that succeeds: the reply is prose and then the sample object,
    and the response holds the sample rating. *)
Example rate_writing_sample :
  fst (rate_writing (Samples.world (u "Here is my assessment: " ++ Samples.rating_object))
         (Samples.submission (u "chatGPT")) false initial)
  = Ok {[ u "rating" := VRating Samples.rating ]}.
Proof. vm_compute. reflexivity. Qed.

(** The hosted backend is called once, with the system turn and the prompt
    as user turn. *)
Example rate_writing_sample_calls :
  calls (snd (rate_writing (Samples.world Samples.rating_object)
                (Samples.submission (u "chatGPT")) false initial))
  = [OpenAI_create (u "sk-test") (u "gpt-4")
       [(u "system", u "You are an IELTS examiner.");
        (u "user", build_prompt (Samples.submission (u "chatGPT")) 4)]
       (2 # 10) 500].
Proof. vm_compute. reflexivity. Qed.

(* ===================================================================== *)
(** * The further properties on the reference platform *)
(* ===================================================================== *)

#[local] Existing Instance ClientReference.display.

Lemma count_words_join_witness :
  count_words (u "well done" ++ 32 :: u "indeed")
  = (count_words (u "well done") + count_words (u "indeed"))%nat.
Proof. apply WordFacts.count_words_join. reflexivity. Defined.

Lemma json_str_shape_witness :
  exists pre mid post,
    u "Here it is: {} and {more} text" = pre ++ u "{} and {more}" ++ post
    /\ u "{} and {more}" = LBRACE :: mid ++ [RBRACE]
    /\ (LBRACE ∉ pre) /\ (RBRACE ∉ post)
    /\ (2 <= length (u "{} and {more}")
        <= length (u "Here it is: {} and {more} text"))%nat.
Proof. apply json_str_shape. vm_compute. reflexivity. Defined.

Lemma rating_data_is_dict_witness :
  exists fields, ServiceSamples.decoded_rating = JObject fields.
Proof.
  apply (rating_data_is_dict (u "Here is my assessment: " ++ Samples.rating_object)
           Samples.rating_object).
  - vm_compute. reflexivity.
  - vm_compute. reflexivity.
Defined.

Lemma other_members_ignored_witness :
  detailed_rating
    (JObject (Dict.set (u "remarks") (JString (u "Well done."))
                ClientSamples.damaged_fields))
  = detailed_rating (JObject ClientSamples.damaged_fields).
Proof. apply other_members_ignored. absent. Defined.

Lemma missing_credential_witness :
  dispatch ServiceSamples.world_without_key (Samples.submission (u "chatGPT")) initial
  = (Err (ValueError (u "OPENAI_API_KEY environment variable is not set.")),
     fresh initial)
  /\ debug_info (snd (evaluate_with_llm ServiceSamples.world_without_key
                        (Samples.submission (u "chatGPT")) initial))
       !! u "error_message"
     = Some (u "OPENAI_API_KEY environment variable is not set.")
  /\ fst (rate_writing ServiceSamples.world_without_key
            (Samples.submission (u "chatGPT")) false initial)
     = Err (HTTPException 500 generic_detail)
  /\ calls (snd (rate_writing ServiceSamples.world_without_key
                   (Samples.submission (u "chatGPT")) false initial))
     = calls initial.
Proof.
  apply missing_credential.
  - vm_compute. reflexivity.
  - reflexivity.
  - left. reflexivity.
Defined.

Lemma upstream_error_witness :
  fst (evaluate_with_llm ServiceSamples.world_refusing
         (Samples.submission (u "chatGPT")) initial) = None
  /\ debug_info (snd (evaluate_with_llm ServiceSamples.world_refusing
                        (Samples.submission (u "chatGPT")) initial))
       !! u "error_message"
     = Some (exn_str (LibraryError (u "RateLimitError") (u "Rate limit reached")))
  /\ fst (rate_writing ServiceSamples.world_refusing
            (Samples.submission (u "chatGPT")) true initial)
     = Err (HTTPException 500 generic_detail)
  /\ calls (snd (rate_writing ServiceSamples.world_refusing
                   (Samples.submission (u "chatGPT")) true initial))
     = calls initial
       ++ [openai_request (u "sk-test") (Samples.submission (u "chatGPT"))].
Proof.
  apply upstream_error.
  - vm_compute. reflexivity.
  - reflexivity.
  - reflexivity.
  - discriminate.
  - reflexivity.
Defined.

Lemma preview_bound_witness :
  (length (slice_to 200 Samples.long_reply ++ u "...") <= 203)%nat
  /\ exists reply st1,
      dispatch (Samples.world Samples.long_reply) (Samples.submission (u "chatGPT"))
        initial = (Ok (Some reply), st1)
      /\ take 200 (slice_to 200 Samples.long_reply ++ u "...") = take 200 reply.
Proof.
  apply (preview_bound (Samples.world Samples.long_reply)
           (Samples.submission (u "chatGPT")) initial).
  vm_compute. reflexivity.
Defined.

Lemma model_name_case_witness :
  rate_writing (Samples.world Samples.rating_object) (Samples.submission (u "chatGPT"))
    false initial
  = rate_writing (Samples.world Samples.rating_object) (Samples.submission (u "CHATGPT"))
      false initial.
Proof. apply model_name_case; vm_compute; reflexivity. Defined.

Lemma blank_input_witness :
  Client.submit_task ClientSamples.unreachable ClientSamples.blank_form ClientSamples.gui
  = (Ok tt,
     {| Client.feedback_text := Client.feedback_text ClientSamples.gui;
        Client.dialogs :=
          Client.dialogs ClientSamples.gui
          ++ [(u "Input Error", u "Both question and response fields must be filled.")];
        Client.posted := Client.posted ClientSamples.gui |}).
Proof. apply ClientFacts.blank_input. right. reflexivity. Defined.

Lemma api_error_dialog_witness :
  Client.submit_task ClientSamples.unreachable ClientSamples.form ClientSamples.gui
  = (Ok tt,
     {| Client.feedback_text := Client.feedback_text ClientSamples.gui;
        Client.dialogs :=
          Client.dialogs ClientSamples.gui
          ++ [(u "API Error", u "Failed to get feedback: " ++ u "Connection refused")];
        Client.posted :=
          Client.posted ClientSamples.gui
          ++ [(Client.API_URL, Client.form_data ClientSamples.form)] |}).
Proof. apply ClientFacts.api_error_dialog; reflexivity. Defined.

Lemma error_status_dialog_witness :
  let net := ClientSamples.answering 500 (u "Internal Server Error")
               ClientSamples.detail_answer in
  fst (Client.submit_task net ClientSamples.form ClientSamples.gui) = Ok tt
  /\ Client.feedback_text (snd (Client.submit_task net ClientSamples.form ClientSamples.gui))
     = Client.feedback_text ClientSamples.gui
  /\ Client.dialogs (snd (Client.submit_task net ClientSamples.form ClientSamples.gui))
     = Client.dialogs ClientSamples.gui
       ++ [(u "API Error",
            u "Failed to get feedback: 500 Server Error: Internal Server Error for url: http://localhost:8000/rate")].
Proof.
  intros net.
  apply (ClientFacts.error_status_dialog net ClientSamples.form ClientSamples.gui
           {| Client.status_code := 500; Client.reason := u "Internal Server Error";
              Client.url := Client.API_URL;
              Client.json_body := Ok ClientSamples.detail_answer |}).
  - reflexivity.
  - reflexivity.
  - reflexivity.
  - simpl. lia.
Defined.

Lemma rating_shown_witness :
  Client.submit_task
    (ClientSamples.answering 200 (u "OK")
       (JObject [(u "rating", JObject ClientSamples.shown_fields)]))
    ClientSamples.form ClientSamples.gui
  = (Ok tt,
     {| Client.feedback_text :=
          {| Client.segments :=
               [(u "Overall Score: " ++ Client.format_value (JInt 7)
                   ++ NEWLINE ++ NEWLINE, u "title");
                (u "Feedback: " ++ Client.format_value (JString (u "A solid answer."))
                   ++ NEWLINE ++ NEWLINE, u "normal")]
               ++ flat_map Client.criterion_segments ClientSamples.shown_fields;
             Client.editing_state := Client.DISABLED |};
        Client.dialogs := Client.dialogs ClientSamples.gui;
        Client.posted :=
          Client.posted ClientSamples.gui
          ++ [(Client.API_URL, Client.form_data ClientSamples.form)] |}).
Proof.
  eapply ClientFacts.rating_shown; reflexivity.
Defined.

Lemma served_rating_shown_witness :
  exists shown,
    Client.submit_task (ClientSamples.answering 200 (u "OK") ClientSamples.rating_answer)
      ClientSamples.form ClientSamples.gui
    = (Ok tt,
       {| Client.feedback_text :=
            {| Client.segments := shown; Client.editing_state := Client.DISABLED |};
          Client.dialogs := Client.dialogs ClientSamples.gui;
          Client.posted :=
            Client.posted ClientSamples.gui
            ++ [(Client.API_URL, Client.form_data ClientSamples.form)] |})
    /\ length shown = 14%nat
    /\ map snd (firstn 3 shown) = [u "title"; u "normal"; u "subtitle"]
    /\ map fst (firstn 3 shown)
       = [u "Overall Score: 6.5" ++ NEWLINE ++ NEWLINE;
          u "Feedback: A solid answer." ++ NEWLINE ++ NEWLINE;
          u "Task Achievement:" ++ NEWLINE].
Proof.
  eexists. split.
  - apply (ClientFacts.served_rating_shown JFloat
             (ClientSamples.answering 200 (u "OK") ClientSamples.rating_answer)
             ClientSamples.form ClientSamples.gui ClientSamples.rating_answer
             Samples.rating).
    + intros x. reflexivity.
    + reflexivity.
    + reflexivity.
    + reflexivity.
    + reflexivity.
  - vm_compute. split_and!; reflexivity.
Defined.

Lemma rating_key_missing_witness :
  Client.submit_task (ClientSamples.answering 200 (u "OK") ClientSamples.detail_answer)
    ClientSamples.form ClientSamples.gui
  = (Err (Client.Uncaught (KeyError (u "rating"))),
     {| Client.feedback_text := Client.feedback_text ClientSamples.gui;
        Client.dialogs := Client.dialogs ClientSamples.gui;
        Client.posted :=
          Client.posted ClientSamples.gui
          ++ [(Client.API_URL, Client.form_data ClientSamples.form)] |}).
Proof.
  apply (ClientFacts.rating_key_missing _ _ _
           [(u "detail", JString (u "500: LLM evaluation failed."))]);
    reflexivity.
Defined.

Lemma criterion_key_missing_witness :
  exists shown,
    Client.submit_task
      (ClientSamples.answering 200 (u "OK")
         (JObject [(u "rating", JObject ClientSamples.damaged_fields)]))
      ClientSamples.form ClientSamples.gui
    = (Err (Client.Uncaught (KeyError (u "score"))),
       {| Client.feedback_text :=
            {| Client.segments := shown; Client.editing_state := Client.NORMAL |};
          Client.dialogs := Client.dialogs ClientSamples.gui;
          Client.posted :=
            Client.posted ClientSamples.gui
            ++ [(Client.API_URL, Client.form_data ClientSamples.form)] |})
    /\ map fst (skipn 5 shown) = [u "Coherence Cohesion:" ++ NEWLINE].
Proof.
  eexists. split.
  - apply (ClientFacts.criterion_key_missing
             (ClientSamples.answering 200 (u "OK")
                (JObject [(u "rating", JObject ClientSamples.damaged_fields)]))
             ClientSamples.form ClientSamples.gui
             (JObject [(u "rating", JObject ClientSamples.damaged_fields)])
             [(u "task_achievement",
               JObject [(u "score", JInt 7); (u "feedback", JString (u "On topic."))])]
             (u "coherence_cohesion")
             [(u "feedback", JString (u "Clear paragraphs."))]
             [(u "overall_score", JFloat (Reference.float_of_decimal false 65 (-1)));
              (u "overall_feedback", JString (u "A solid answer."))]
             (JFloat (Reference.float_of_decimal false 65 (-1)))
             (JString (u "A solid answer."))).
    all: reflexivity.
  - vm_compute. reflexivity.
Defined.

Lemma feedback_stays_read_only_witness :
  Client.editing_state
    (Client.feedback_text
       (snd (Client.submit_task
               (ClientSamples.answering 200 (u "OK") ClientSamples.rating_answer)
               ClientSamples.form ClientSamples.gui)))
  = Client.DISABLED.
Proof.
  apply ClientFacts.feedback_stays_read_only.
  - reflexivity.
  - vm_compute. reflexivity.
Defined.
